(** * Birth-timing scoring engine: a shallow embedding and its properties

    The scoring engine lives in four TypeScript modules: [geolocation],
    [solar-cycle], [seasonal-risk] and [optimal-timing].  Each of them is
    embedded below as a Rocq module of the same name, function by function.

    Numbers.  A JavaScript number is embedded as an exact rational ([Q]);
    every finite double is a rational, the rounding error of [+ - * /] is
    not modelled.  Values produced by [Math.round] and [Math.ceil] are kept
    as integers ([Z]) and injected back where the code computes with them.
    [Math.cos], [Math.sin], [Math.exp] and [Math.PI] are left abstract: the
    engine is embedded over an arbitrary [MathLib].

    Effects.  [Math.random] is the only effect of the engine; it is embedded
    as a state monad over a [World] that carries the stream of future draws.
    A property read of [undefined] (a [TypeError]), a [RangeError] of
    [format], and a division whose divisor is zero complete abruptly. *)

From Stdlib Require Import ZArith QArith Qround Qabs Qminmax.
From Stdlib Require Import Lia Lqa Bool List String Ascii Sorted Permutation.
From Stdlib Require Import DecimalString.
Import ListNotations.

Set Implicit Arguments.

(* ================================================================== *)
(** ** The JavaScript fragment the engine is written in *)
(* ================================================================== *)

Module JS.

Inductive Exception : Type :=
| TypeError      (* property read of undefined *)
| RangeError     (* date-fns format on an invalid time value *)
| ZeroDivisor.   (* a quotient whose divisor is zero: not a finite number *)

(** Completion of a computation without side effects. *)
Inductive Completion (A : Type) : Type :=
| Normal (a : A)
| Abrupt (e : Exception).
Arguments Normal {A} a.
Arguments Abrupt {A} e.

Definition bindC {A B} (m : Completion A) (k : A -> Completion B)
  : Completion B :=
  match m with
  | Normal a => k a
  | Abrupt e => Abrupt e
  end.

(** The fields of a [Date] object the engine reads; [getMonth] is
    zero-based. *)
Record Date : Type := mkDate {
  getFullYear : Z;
  getMonth : Z;
  getDate : Z
}.

(** The store: the draws [Math.random] will return and how many of them
    were consumed.  [engineCalls] is a log the source does not keep: the
    dates the engine's entry point was entered with, most recent first; it
    is there to count evaluations. *)
Record World : Type := mkWorld {
  draws : nat -> Q;
  consumed : nat;
  engineCalls : list Date
}.

(** Computations that may draw random numbers. *)
Definition Eff (A : Type) : Type := World -> Completion (A * World).

Definition ret {A} (a : A) : Eff A := fun w => Normal (a, w).

Definition bind {A B} (m : Eff A) (k : A -> Eff B) : Eff B :=
  fun w =>
    match m w with
    | Normal (a, w') => k a w'
    | Abrupt e => Abrupt e
    end.

Definition lift {A} (c : Completion A) : Eff A :=
  fun w =>
    match c with
    | Normal a => Normal (a, w)
    | Abrupt e => Abrupt e
    end.

Definition Math_random : Eff Q :=
  fun w => Normal (draws w (consumed w),
                   mkWorld (draws w) (S (consumed w)) (engineCalls w)).

(** Entering the engine's entry point with date [d]: one more line of the
    log. *)
Definition enterEngine (d : Date) : Eff unit :=
  fun w => Normal (tt, mkWorld (draws w) (consumed w) (d :: engineCalls w)).

(** The body of a [for] loop run once per index, in order. *)
Fixpoint forEach {A} (indices : list Z) (body : Z -> Eff A) : Eff (list A) :=
  match indices with
  | [] => ret []
  | i :: rest =>
      bind (body i) (fun a =>
      bind (forEach rest body) (fun others => ret (a :: others)))
  end.

(** The indices of [for (let i = lo; i <= hi; i++)]. *)
Definition fromTo (lo hi : Z) : list Z :=
  map (fun k => (lo + Z.of_nat k)%Z) (seq 0 (Z.to_nat (hi - lo + 1))).

(** [Math.round]: nearest integer, ties towards plus infinity. *)
Definition Math_round (x : Q) : Z := Qfloor (x + (1 # 2)).

Definition Math_ceil (x : Q) : Z := Qceiling x.

(** [a / b] where [b] is not a literal. *)
Definition divide (a b : Q) : Completion Q :=
  if Qeq_bool b 0 then Abrupt ZeroDivisor else Normal (a / b).

Definition Qlt_bool (x y : Q) : bool := negb (Qle_bool y x).

(** [obj[key]] on an object literal with integer keys. *)
Fixpoint getProperty {V} (obj : list (Z * V)) (key : Z) : option V :=
  match obj with
  | [] => None
  | (k, v) :: rest => if Z.eqb k key then Some v else getProperty rest key
  end.

(** [obj[key]] on an object literal with string keys (own keys only). *)
Fixpoint getNamed {V} (obj : list (string * V)) (key : string) : option V :=
  match obj with
  | [] => None
  | (k, v) :: rest => if String.eqb k key then Some v else getNamed rest key
  end.

(** Reading a field of a value that may be [undefined]. *)
Definition defined {V} (o : option V) : Completion V :=
  match o with
  | Some v => Normal v
  | None => Abrupt TypeError
  end.

(** [Array.prototype.find]. *)
Definition Array_find {A} (p : A -> bool) (l : list A) : option A :=
  List.find p l.

(** [Array.prototype.sort(cmp)].  The comparator of the recommendation
    list answers [-1] both ways for two critical strings; for such a
    comparator ECMAScript leaves the order to the host.  The order is fixed
    here by one algorithm, the insertion sort hosts run on short arrays:
    each element, left to right, is inserted into the sorted prefix in front
    of the first element it compares below. *)
Fixpoint sortInsert {A} (cmp : A -> A -> Z) (x : A) (sorted : list A)
  : list A :=
  match sorted with
  | [] => [x]
  | y :: rest =>
      if (cmp x y <? 0)%Z then x :: y :: rest
      else y :: sortInsert cmp x rest
  end.

Definition Array_sort {A} (cmp : A -> A -> Z) (l : list A) : list A :=
  fold_left (fun sorted x => sortInsert cmp x sorted) l [].

(** [String.prototype.includes]. *)
Definition includes (s sub : string) : bool :=
  match String.index 0 sub s with
  | Some _ => true
  | None => false
  end.

(** [[...new Set(l)]]: first occurrences, in insertion order. *)
Fixpoint uniqueFrom (seen : list string) (l : list string) : list string :=
  match l with
  | [] => []
  | x :: rest =>
      if existsb (String.eqb x) seen then uniqueFrom seen rest
      else x :: uniqueFrom (x :: seen) rest
  end.

Definition Set_spread (l : list string) : list string := uniqueFrom [] l.

(** [Array.prototype.slice(0, n)]. *)
Definition slice0 {A} (n : Z) (l : list A) : list A :=
  firstn (Z.to_nat n) l.

(** [x.toFixed(1)]: sign, then the tenths nearest to [|x|], ties up. *)
Definition toFixed1 (x : Q) : string :=
  let tenths := Math_round (Qabs x * 10) in
  let digits (n : Z) := NilZero.string_of_uint (N.to_uint (Z.to_N n)) in
  ((if Qlt_bool x 0 then "-" else "")
     ++ digits (tenths / 10)%Z ++ "." ++ digits (tenths mod 10)%Z)%string.

(** The double quote character inside a string literal. *)
Definition dquote : string := String "034"%char EmptyString.

(** The line feed inside a template literal. *)
Definition newline : string := String "010"%char EmptyString.


(** A [Map<string, V>], in insertion order: [get], [has] and [set]. *)
Fixpoint Map_get {V} (m : list (string * V)) (key : string) : option V :=
  match m with
  | [] => None
  | (k, v) :: rest => if String.eqb k key then Some v else Map_get rest key
  end.

Definition Map_has {V} (m : list (string * V)) (key : string) : bool :=
  match Map_get m key with
  | Some _ => true
  | None => false
  end.

Fixpoint Map_set {V} (m : list (string * V)) (key : string) (v : V)
  : list (string * V) :=
  match m with
  | [] => [(key, v)]
  | (k, old) :: rest =>
      if String.eqb k key then (k, v) :: rest
      else (k, old) :: Map_set rest key v
  end.

(** The decimal digits of a natural number. *)
Definition decimal (n : Z) : string :=
  NilZero.string_of_uint (N.to_uint (Z.to_N n)).

(** [String(n)] for an integer. *)
Definition Z_toString (n : Z) : string :=
  ((if (n <? 0)%Z then "-" else "") ++ decimal (Z.abs n))%string.

(** [String(x)] for a number that is a whole number of tenths, the only
    non-integers the engine puts into a template literal. *)
Definition tenths_toString (x : Q) : string :=
  let tenths := Math_round (x * 10) in
  let magnitude := Z.abs tenths in
  ((if (tenths <? 0)%Z then "-" else "")
     ++ decimal (magnitude / 10)%Z
     ++ (if (magnitude mod 10 =? 0)%Z then ""
         else "." ++ decimal (magnitude mod 10)%Z))%string.

(** [String.prototype.padStart(length, "0")]. *)
Definition padStart0 (len : nat) (s : string) : string :=
  (concat "" (repeat "0" (len - String.length s)) ++ s)%string.

(** [a.getTime() === b.getTime()] for two dates at the same time of day. *)
Definition sameTime (a b : Date) : bool :=
  ((getFullYear a =? getFullYear b) && (getMonth a =? getMonth b)
   && (getDate a =? getDate b))%Z.

End JS.
Import JS.

Declare Scope js_scope.
Delimit Scope js_scope with js.
Notation "x <- m ;; k" := (bind m (fun x => k))
(at level 61, m at next level, right associativity) : js_scope.
Notation "x <~ c ;; k" := (bindC c (fun x => k))
(at level 61, c at next level, right associativity) : js_scope.
Infix "<?" := Qlt_bool : Q_scope.
Infix "<=?" := Qle_bool : Q_scope.
Notation "x >? y" := (Qlt_bool y x) : Q_scope.
Notation "x >=? y" := (Qle_bool y x) : Q_scope.

Coercion inject_Z : Z >-> Q.

(** The transcendental part of [Math], which ECMAScript leaves to the host. *)
Class MathLib : Type := {
Math_cos : Q -> Q;
Math_sin : Q -> Q;
Math_exp : Q -> Q;
Math_PI : Q
}.

(* ================================================================== *)
(** ** date-fns *)
(* ================================================================== *)

Module DateFns.

Definition getYear (d : Date) : Z := getFullYear d.

Definition isLeapYear (y : Z) : bool :=
  ((y mod 4 =? 0) && negb (y mod 100 =? 0) || (y mod 400 =? 0))%Z.

Definition daysInMonth (y m : Z) : Z :=
  if (m =? 1)%Z then (if isLeapYear y then 29 else 28)
  else if ((m =? 3) || (m =? 5) || (m =? 8) || (m =? 10))%Z then 30
  else 31.

(** A date a JavaScript [Date] object can hold. *)
Definition valid_date (d : Date) : Prop :=
  (0 <= getMonth d <= 11 /\
   1 <= getDate d <= daysInMonth (getFullYear d) (getMonth d))%Z.

(** [addMonths]: the same day of the month [amount] months away, or the
    last day of that month when it is shorter. *)
Definition addMonths (d : Date) (amount : Z) : Date :=
  let months := (getFullYear d * 12 + getMonth d + amount)%Z in
  let y := (months / 12)%Z in
  let m := (months mod 12)%Z in
  mkDate y m (Z.min (getDate d) (daysInMonth y m)).

Definition monthNames : list string :=
  ["January"; "February"; "March"; "April"; "May"; "June"; "July";
   "August"; "September"; "October"; "November"; "December"]%string.

(** [format(d, 'MMMM')]. *)
Definition format_MMMM (d : Date) : Completion string :=
  if ((0 <=? getMonth d) && (getMonth d <=? 11))%Z then
    match nth_error monthNames (Z.to_nat (getMonth d)) with
    | Some name => Normal name
    | None => Abrupt RangeError
    end
  else Abrupt RangeError.

(** [addLeadingZeros]. *)
Definition addLeadingZeros (number : Z) (targetLength : nat) : string :=
  ((if (number <? 0)%Z then "-" else "")
     ++ padStart0 targetLength (decimal (Z.abs number)))%string.

(** The token [yyyy]: years before year 1 are counted backwards. *)
Definition format_yyyy (d : Date) : string :=
  let signedYear := getFullYear d in
  let year := if (signedYear >? 0)%Z then signedYear else (1 - signedYear)%Z in
  addLeadingZeros year 4.

(** [format(d, 'yyyy-MM-dd')]. *)
Definition format_yyyy_MM_dd (d : Date) : Completion string :=
  if ((0 <=? getMonth d) && (getMonth d <=? 11))%Z then
    Normal (format_yyyy d ++ "-" ++ addLeadingZeros (getMonth d + 1) 2
              ++ "-" ++ addLeadingZeros (getDate d) 2)%string
  else Abrupt RangeError.

(** [format(d, 'MMMM yyyy')]. *)
Definition format_MMMM_yyyy (d : Date) : Completion string :=
  bindC (format_MMMM d)
        (fun monthName => Normal (monthName ++ " " ++ format_yyyy d)%string).

End DateFns.
Import DateFns.

(* ================================================================== *)
(** ** geolocation *)
(* ================================================================== *)

Module Geolocation.

Record LocationData : Type := mkLocation {
  latitude : Q;
  longitude : Q;
  city : option string;
  country : option string;
  timezone : option string;
  accuracy : option Q
}.

Definition calculateDistanceFromEquator (latitude : Q) : Q :=
  Qabs latitude.

Definition isNorthernHemisphere (latitude : Q) : bool :=
  (latitude >? 0)%Q.

Definition calculateUVIntensityByLatitude {M : MathLib}
    (latitude : Q) (month : Z) : Q :=
  let distanceFromEquator := calculateDistanceFromEquator latitude in
  let baseIntensity := Qmax 0 (10 - (distanceFromEquator / 90) * 10) in
  let seasonalMultiplier :=
    if isNorthernHemisphere latitude
    then Math_cos (((month - 6)%Z * Math_PI) / 6) * 0.3 + 1
    else Math_cos (((month - 12)%Z * Math_PI) / 6) * 0.3 + 1 in
  Qmax 0 (Qmin 11 (baseIntensity * seasonalMultiplier)).

End Geolocation.
Import Geolocation.


(** The string-literal union ['LOW' | 'MEDIUM' | 'HIGH']. *)
Inductive Level : Type := LOW | MEDIUM | HIGH.

(* ================================================================== *)
(** ** seasonal-risk *)
(* ================================================================== *)

Module SeasonalRisk.

Local Open Scope Q_scope.
Local Open Scope js_scope.

Record SeasonalRiskData : Type := mkSeasonalRiskData {
  birthMonth : Z;
  vitaminDScore : Z;
  infectiousRisk : Z;
  relativeAgeAdvantage : Z;
  cardiovascularRisk : Z;
  mentalHealthRisk : Z;
  autoImmuneRisk : Z;
  overallSeasonalScore : Z;
  riskLevel : Level
}.

Record DiseaseRiskByMonth : Type := mkDiseaseRisk {
  cardiovascular : Q;
  mentalHealth : Q;
  autoimmune : Q;
  respiratory : Q;
  infectious : Q
}.

(** Disease risk by birth month (Northern Hemisphere). *)
Definition NORTHERN_HEMISPHERE_DISEASE_RISKS : list (Z * DiseaseRiskByMonth) :=
  [ (1%Z,  mkDiseaseRisk 1.06 1.08 0.94 1.12 1.15);
    (2%Z,  mkDiseaseRisk 1.05 1.06 0.96 1.10 1.12);
    (3%Z,  mkDiseaseRisk 1.02 1.02 0.98 1.05 1.08);
    (4%Z,  mkDiseaseRisk 0.98 0.96 1.02 0.98 1.02);
    (5%Z,  mkDiseaseRisk 0.95 0.92 1.05 0.92 0.95);
    (6%Z,  mkDiseaseRisk 0.92 0.88 1.08 0.88 0.88);
    (7%Z,  mkDiseaseRisk 0.90 0.85 1.10 0.85 0.82);
    (8%Z,  mkDiseaseRisk 0.92 0.88 1.08 0.88 0.85);
    (9%Z,  mkDiseaseRisk 0.95 0.92 1.05 0.92 0.90);
    (10%Z, mkDiseaseRisk 0.98 0.96 1.02 0.98 0.95);
    (11%Z, mkDiseaseRisk 1.02 1.02 0.98 1.05 1.02);
    (12%Z, mkDiseaseRisk 1.05 1.06 0.96 1.10 1.10) ].

Definition calculateVitaminDSynthesis {M : MathLib}
    (location : LocationData) (birthDate : Date) : Q :=
  let birthMonth := (getMonth birthDate + 1)%Z in
  let latitude := latitude location in
  let uvIntensity := calculateUVIntensityByLatitude latitude birthMonth in
  let synthesisCapacity := Qmax 0 (Qmin 100 (uvIntensity * 10)) in
  (* the first six months of life *)
  let criticalMonths :=
    map (fun i : Z =>
           let month := (Z.rem (birthMonth - 1 + i) 12 + 1)%Z in
           calculateUVIntensityByLatitude latitude month)
        [0; 1; 2; 3; 4; 5]%Z in
  let averageCriticalUV :=
    fold_left (fun sum uv => sum + uv) criticalMonths 0 / 6 in
  Qmax 0 (Qmin 100 (averageCriticalUV * 10)).

Definition calculateInfectiousRisk (birthDate : Date) (location : LocationData)
  : Completion Q :=
  let birthMonth := (getMonth birthDate + 1)%Z in
  let isNorthern := isNorthernHemisphere (latitude location) in
  let adjustedMonth :=
    if isNorthern then birthMonth else (Z.rem (birthMonth + 5) 12 + 1)%Z in
  riskData <~ defined (getProperty NORTHERN_HEMISPHERE_DISEASE_RISKS
                                   adjustedMonth) ;;
  Normal (infectious riskData).

(** School year cutoffs by country. *)
Definition schoolYearCutoffs : list (string * Z) :=
  [ ("US", 9); ("UK", 9); ("Canada", 9); ("Australia", 1); ("Germany", 6);
    ("France", 9); ("Japan", 4); ("default", 9) ]%string%Z.

(** [country] is [None] when the caller passes [undefined]; the parameter
    then takes its default ['US'].  [a || b] yields [b] when [a] is
    [undefined] or [0].  The table is read by its own rows.  A country that
    names a property every object inherits ([inheritedKeys], further down)
    is outside the embedding: there the code reads the inherited property,
    which is no number, and computes [NaN].  The statements that depend on
    the cutoff carry [plainCountry]. *)
Definition calculateRelativeAgeEffect (birthDate : Date)
    (country : option string) : Completion Q :=
  let birthMonth := (getMonth birthDate + 1)%Z in
  let country := match country with Some c => c | None => "US"%string end in
  cutoffMonth <~
    match getNamed schoolYearCutoffs country with
    | Some cutoff =>
        if (cutoff =? 0)%Z
        then defined (getNamed schoolYearCutoffs "default")
        else Normal cutoff
    | None => defined (getNamed schoolYearCutoffs "default")
    end ;;
  let monthsFromCutoff := Z.rem (birthMonth - cutoffMonth + 12) 12 in
  Normal (Qmax 0 (100 - (monthsFromCutoff * 8.33))).

Definition calculateDiseaseRisks (birthDate : Date) (location : LocationData)
  : Completion DiseaseRiskByMonth :=
  let birthMonth := (getMonth birthDate + 1)%Z in
  let isNorthern := isNorthernHemisphere (latitude location) in
  (* seasons are opposite in the other hemisphere *)
  let adjustedMonth :=
    if isNorthern then birthMonth else (Z.rem (birthMonth + 5) 12 + 1)%Z in
  riskData <~ defined (getProperty NORTHERN_HEMISPHERE_DISEASE_RISKS
                                   adjustedMonth) ;;
  Normal {| cardiovascular := cardiovascular riskData;
            mentalHealth := mentalHealth riskData;
            autoimmune := autoimmune riskData;
            respiratory := respiratory riskData;
            infectious := infectious riskData |}.

Definition calculateSeasonalRisk {M : MathLib}
    (birthDate : Date) (location : LocationData)
  : Completion SeasonalRiskData :=
  let birthMonth := (getMonth birthDate + 1)%Z in
  let vitaminDScore := calculateVitaminDSynthesis location birthDate in
  infectiousRisk <~ calculateInfectiousRisk birthDate location ;;
  relativeAgeAdvantage <~
    calculateRelativeAgeEffect birthDate (country location) ;;
  diseaseRisks <~ calculateDiseaseRisks birthDate location ;;
  (* normalised risks, lower is better *)
  let normalizedInfectiousRisk := Qmax 0 ((infectiousRisk - 0.8) * 500) in
  let normalizedCardiovascularRisk :=
    Qmax 0 ((cardiovascular diseaseRisks - 0.9) * 500) in
  let normalizedMentalHealthRisk :=
    Qmax 0 ((mentalHealth diseaseRisks - 0.85) * 400) in
  let normalizedAutoImmuneRisk :=
    Qmax 0 (Qabs (autoimmune diseaseRisks - 1.0) * 1000) in
  (* overall seasonal score, higher is better *)
  let overallSeasonalScore :=
    Math_round
      ((vitaminDScore * 0.3) +
       ((100 - Qmin 100 normalizedInfectiousRisk) * 0.25) +
       (relativeAgeAdvantage * 0.15) +
       ((100 - Qmin 100 normalizedCardiovascularRisk) * 0.15) +
       ((100 - Qmin 100 normalizedMentalHealthRisk) * 0.10) +
       ((100 - Qmin 100 normalizedAutoImmuneRisk) * 0.05)) in
  let riskLevel :=
    if (overallSeasonalScore >=? 70)%Z then LOW
    else if (overallSeasonalScore >=? 50)%Z then MEDIUM else HIGH in
  Normal {| birthMonth := birthMonth;
            vitaminDScore := Math_round vitaminDScore;
            infectiousRisk := Math_round normalizedInfectiousRisk;
            relativeAgeAdvantage := Math_round relativeAgeAdvantage;
            cardiovascularRisk := Math_round normalizedCardiovascularRisk;
            mentalHealthRisk := Math_round normalizedMentalHealthRisk;
            autoImmuneRisk := Math_round normalizedAutoImmuneRisk;
            overallSeasonalScore := overallSeasonalScore;
            riskLevel := riskLevel |}.

Definition getSeasonalRecommendations {M : MathLib}
    (birthDate : Date) (location : LocationData)
  : Completion (list string) :=
  seasonalRisk <~ calculateSeasonalRisk birthDate location ;;
  let recommendations :=
    (if (vitaminDScore seasonalRisk <? 50)%Z
     then ["Consider vitamin D supplementation during pregnancy and early infancy"%string]
     else [])
    ++ (if (infectiousRisk seasonalRisk >? 70)%Z
        then ["Take extra precautions against infections during the first 6 months"%string]
        else [])
    ++ (if (relativeAgeAdvantage seasonalRisk <? 30)%Z
        then ["Child may benefit from delayed school entry or summer programs"%string]
        else [])
    ++ (if (cardiovascularRisk seasonalRisk >? 60)%Z
        then ["Monitor cardiovascular health markers throughout life"%string]
        else [])
    ++ (if (mentalHealthRisk seasonalRisk >? 60)%Z
        then ["Be aware of increased mental health risks and ensure good support systems"%string]
        else []) in
  Normal recommendations.



End SeasonalRisk.
Import SeasonalRisk.

(* ================================================================== *)
(** ** solar-cycle *)
(* ================================================================== *)

Module SolarCycle.

Local Open Scope Q_scope.
Local Open Scope js_scope.

Inductive Phase : Type := minimum | ascending | maximum | descending.

Record SolarCycleData : Type := mkSolarCycleData {
  cycleNumber : Z;
  startYear : Z;
  peakYear : Z;
  endYear : Z;
  maxSunspots : Q;
  phase : Phase
}.

Record SolarActivityData : Type := mkSolarActivityData {
  date : Date;
  sunspotNumber : Z;
  solarFluxIndex : Q;
  geomagneticIndex : Q;
  cosmicRayIntensity : Q;
  cyclePhase : string;
  lifespanImpact : Q;
  uvRadiationLevel : Q
}.

(** Historical solar cycles. *)
Definition SOLAR_CYCLES : list SolarCycleData :=
  [ mkSolarCycleData 20 1964 1968 1976 156 minimum;
    mkSolarCycleData 21 1976 1979 1986 232 minimum;
    mkSolarCycleData 22 1986 1989 1996 212 minimum;
    mkSolarCycleData 23 1996 2000 2008 180 minimum;
    mkSolarCycleData 24 2008 2012 2019 146 minimum;
    mkSolarCycleData 25 2019 2024 2030 137 ascending ].

(** The year-membership test of the cycle lookup. *)
Definition yearInCycle (year : Z) (cycle : SolarCycleData) : bool :=
  ((year >=? startYear cycle) && (year <=? endYear cycle))%Z.

Definition predictFutureSolarCycle (date : Date) : Completion SolarCycleData :=
  let year := getYear date in
  lastCycle <~ defined (nth_error SOLAR_CYCLES (List.length SOLAR_CYCLES - 1)) ;;
  if (year >? endYear lastCycle)%Z then
    let cyclesAhead := Math_ceil ((year - endYear lastCycle)%Z / 11) in
    let cycleNumber := (cycleNumber lastCycle + cyclesAhead)%Z in
    let startYear := (endYear lastCycle + ((cyclesAhead - 1) * 11))%Z in
    Normal {| cycleNumber := cycleNumber;
              startYear := startYear;
              peakYear := startYear + 4;
              endYear := startYear + 11;
              maxSunspots := 140;
              phase := minimum |}
  else Normal lastCycle.

Definition getSolarCycleForDate (date : Date) : Completion SolarCycleData :=
  let year := getYear date in
  match Array_find (yearInCycle year) SOLAR_CYCLES with
  | Some cycle => Normal cycle
  | None => predictFutureSolarCycle date
  end.

Definition calculateSunspotNumber {M : MathLib} (date : Date) : Eff Z :=
  cycle <- lift (getSolarCycleForDate date) ;;
  let year := getYear date in
  let month := getMonth date in
  let yearInCycle := (year - startYear cycle)%Z + (month / 12) in
  cycleProgress <-
    lift (divide yearInCycle (endYear cycle - startYear cycle)%Z) ;;
  (* sinusoidal approximation of the cycle *)
  let phaseRadians := cycleProgress * 2 * Math_PI in
  let baseActivity := Math_sin phaseRadians in
  let peakAdjustment := Math_exp (- Qpower (cycleProgress - 0.36) 2 * 8) in
  random <- Math_random ;;
  let sunspots :=
    Qmax 0 ((baseActivity * 0.7 + peakAdjustment * 0.8) * maxSunspots cycle
            + (random - 0.5) * 20) in
  ret (Math_round sunspots).

Definition calculateUVFromSolarActivity (sunspotNumber : Z) : Q :=
  let baseUV := 5 in
  let solarMultiplier := 1 + (sunspotNumber / 200) * 0.3 in
  Qmin 11 (baseUV * solarMultiplier).

Definition calculateSolarActivityData {M : MathLib} (date : Date)
  : Eff SolarActivityData :=
  sunspotNumber <- calculateSunspotNumber date ;;
  cycle <- lift (getSolarCycleForDate date) ;;
  let year := getYear date in
  let yearInCycle := (year - startYear cycle)%Z in
  cycleProgress <-
    lift (divide yearInCycle (endYear cycle - startYear cycle)%Z) ;;
  let phase :=
    if cycleProgress <? 0.2 then "minimum"%string
    else if cycleProgress <? 0.5 then "ascending"%string
    else if cycleProgress <? 0.7 then "maximum"%string
    else "descending"%string in
  let normalizedSunspots := Qmax 0 (Qmin 200 sunspotNumber) in
  let lifespanImpact :=
    if normalizedSunspots <? 30 then
      0.5 - (normalizedSunspots / 30) * 0.8
    else if normalizedSunspots <? 120 then
      -0.3 - ((normalizedSunspots - 30) / 90) * 4.5
    else
      -4.8 - ((normalizedSunspots - 120) / 80) * 1.8 in
  let monthVariation := (getMonth date - 6)%Z * 0.1 in
  let finalLifespanImpact :=
    Math_round ((lifespanImpact + monthVariation) * 10) / 10 in
  fluxDraw <- Math_random ;;
  geomagneticDraw <- Math_random ;;
  ret {| date := date;
         sunspotNumber := sunspotNumber;
         solarFluxIndex := Qmax 70 (sunspotNumber + 70 + fluxDraw * 30);
         geomagneticIndex :=
           Qmax 0 (Qmin 9 (sunspotNumber / 30 + geomagneticDraw * 2));
         cosmicRayIntensity := Qmax 0 (100 - (sunspotNumber / 2));
         cyclePhase := phase;
         lifespanImpact := finalLifespanImpact;
         uvRadiationLevel := calculateUVFromSolarActivity sunspotNumber |}.

Definition getSolarRiskLevel (sunspotNumber : Z) : Level :=
  if (sunspotNumber <? 50)%Z then LOW
  else if (sunspotNumber <? 100)%Z then MEDIUM
  else HIGH.

Definition calculateMentalHealthRisk (sunspotNumber : Z) : Q :=
  let baseRisk := 1.0 in
  let solarMaximumMultiplier := if (sunspotNumber >? 90)%Z then 1.3 else 1.0 in
  baseRisk * solarMaximumMultiplier.

(** [getCurrentSolarCycle], with the date [new Date()] reads as [now]. *)
Definition getCurrentSolarCycle (now : Date) : Completion SolarCycleData :=
  let currentYear := getYear now in
  match Array_find (yearInCycle currentYear) SOLAR_CYCLES with
  | Some cycle => Normal cycle
  | None => defined (nth_error SOLAR_CYCLES (List.length SOLAR_CYCLES - 1))
  end.

(** The state of a session: the world, and the module's [solarDataCache]. *)
Record Session : Type := mkSession {
  world : World;
  solarDataCache : list (string * SolarActivityData)
}.

(** [fetchNOAASolarData(date?)], with the date [new Date()] reads as [now].
    The [catch] branch computes the sample again and does not cache it;
    the computation can only fail before its first draw, so the fallback
    starts from the same world. *)
Definition fetchNOAASolarData {M : MathLib} (date : option Date) (now : Date)
    (s : Session) : Completion (SolarActivityData * Session) :=
  dateKey <~
    match date with
    | Some d => format_yyyy_MM_dd d
    | None => Normal "current"%string
    end ;;
  if Map_has (solarDataCache s) dateKey then
    cached <~ defined (Map_get (solarDataCache s) dateKey) ;;
    Normal (cached, s)
  else
    let dateOrNow := match date with Some d => d | None => now end in
    match calculateSolarActivityData dateOrNow (world s) with
    | Normal (simulatedData, w') =>
        Normal (simulatedData,
                mkSession w' (Map_set (solarDataCache s) dateKey simulatedData))
    | Abrupt _ =>
        match calculateSolarActivityData dateOrNow (world s) with
        | Normal (fallbackData, w') =>
            Normal (fallbackData, mkSession w' (solarDataCache s))
        | Abrupt e => Abrupt e
        end
    end.

End SolarCycle.
Import SolarCycle.

(* ================================================================== *)
(** ** optimal-timing *)
(* ================================================================== *)

Module OptimalTiming.

Local Open Scope Q_scope.
Local Open Scope js_scope.

Inductive Category : Type := solar | seasonal | geographic | environmental.

Record RiskFactor : Type := mkRiskFactor {
  category : Category;
  name : string;
  impact : Z;
  severity : Level;
  description : string
}.

Module SolarData.
Record t : Type := mk {
  sunspotNumber : Z;
  solarRisk : Level;
  lifespanImpact : Q;
  mentalHealthMultiplier : Q;
  uvRadiationLevel : Q
}.
End SolarData.

Module SeasonalData.
Record t : Type := mk {
  vitaminDScore : Z;
  infectiousRisk : Z;
  relativeAgeAdvantage : Z;
  overallSeasonalScore : Z
}.
End SeasonalData.

Record OptimalTimingResult : Type := mkOptimalTimingResult {
  birthDate : Date;
  overallScore : Z;
  lifeExpectancyDelta : Q;
  confidenceLevel : Level;
  riskFactors : list RiskFactor;
  recommendations : list string;
  solarData : SolarData.t;
  seasonalData : SeasonalData.t
}.

Inductive Trend : Type := improving | stable | declining.

Record TimingAnalysis : Type := mkTimingAnalysis {
  optimalWindows : list OptimalTimingResult;
  currentTiming : OptimalTimingResult;
  bestOverallMonth : Z;
  worstOverallMonth : Z;
  yearlyTrend : Trend
}.

Record Weights : Type := mkWeights {
  w_solar : Q;
  w_seasonal : Q;
  w_geographic : Q;
  w_environmental : Q
}.

Definition WEIGHTS : Weights :=
  {| w_solar := 0.4; w_seasonal := 0.35;
     w_geographic := 0.15; w_environmental := 0.1 |}.

Inductive Season : Type := spring | summer | fall | winter.

(** The block of [calculateOptimalTiming] that fills [riskFactors]: each
    [push] of the source is one segment of the list, in source order. *)
Definition riskFactorsOf (solarActivity : SolarActivityData)
    (seasonalRisk : SeasonalRiskData) (location : LocationData)
    (targetDate : Date) : list RiskFactor :=
  let li := lifespanImpact solarActivity in
  (* solar factors: always one *)
  let solarFactor :=
    if li <? -1 then
      {| category := solar;
         name := "Solar Activity Risk";
         impact := - Math_round (Qabs li * 12);
         severity := if li <? -3 then HIGH else MEDIUM;
         description := "High solar activity during birth period affects development" |}
    else if li >? 0.5 then
      {| category := solar;
         name := "Solar Minimum Benefit";
         impact := Math_round (li * 15);
         severity := LOW;
         description := "Low solar activity provides optimal conditions" |}
    else
      {| category := solar;
         name := "Solar Activity Neutral";
         impact := Math_round (li * 5);
         severity := LOW;
         description := "Moderate solar activity with minimal impact" |} in
  (* UV radiation *)
  let uvImpact := Math_round ((uvRadiationLevel solarActivity - 6) * 5) in
  let uvFactor :=
    if (Z.abs uvImpact >? 2)%Z then
      [ {| category := solar;
           name := if (uvImpact >? 0)%Z then "UV Exposure Risk"
                   else "UV Protection Benefit";
           impact := if (uvImpact >? 0)%Z then - Z.abs uvImpact
                     else Z.abs uvImpact;
           severity := if (Z.abs uvImpact >? 15)%Z then HIGH
                       else if (Z.abs uvImpact >? 8)%Z then MEDIUM else LOW;
           description :=
             if (uvImpact >? 0)%Z
             then "Elevated UV radiation increases health risks"
             else "Lower UV exposure reduces radiation risks" |} ]
    else [] in
  (* seasonal factors: vitamin D always *)
  let vitaminDImpact :=
    Math_round ((vitaminDScore seasonalRisk - 60)%Z * 0.5) in
  let vitaminDFactor :=
    {| category := seasonal;
       name := if (vitaminDImpact >? 0)%Z then "Vitamin D Advantage"
               else "Vitamin D Deficiency Risk";
       impact := vitaminDImpact;
       severity := if (Z.abs vitaminDImpact >? 15)%Z then HIGH
                   else if (Z.abs vitaminDImpact >? 8)%Z then MEDIUM else LOW;
       description :=
         if (vitaminDImpact >? 0)%Z
         then "Optimal vitamin D synthesis during pregnancy"
         else "Limited vitamin D synthesis may affect development" |} in
  (* infection risk *)
  let infectionImpact :=
    Math_round ((infectiousRisk seasonalRisk - 50)%Z * 0.6) in
  let infectionFactor :=
    if (Z.abs infectionImpact >? 3)%Z then
      [ {| category := seasonal;
           name := if (infectionImpact >? 0)%Z then "Infection Season Risk"
                   else "Low Infection Period";
           impact := if (infectionImpact >? 0)%Z then - Z.abs infectionImpact
                     else Z.abs infectionImpact;
           severity := if (Z.abs infectionImpact >? 18)%Z then HIGH
                       else if (Z.abs infectionImpact >? 10)%Z then MEDIUM
                       else LOW;
           description :=
             if (infectionImpact >? 0)%Z
             then "Higher infection rates during birth period"
             else "Lower infection risk provides health benefits" |} ]
    else [] in
  (* academic advantage *)
  let schoolFactor :=
    if (relativeAgeAdvantage seasonalRisk >? 60)%Z then
      [ {| category := seasonal;
           name := "School Age Advantage";
           impact :=
             Math_round ((relativeAgeAdvantage seasonalRisk - 50)%Z * 0.8);
           severity := LOW;
           description := "Favorable birth timing for academic year" |} ]
    else [] in
  (* geographic factors: latitude always *)
  let distanceFromEquator := Qabs (latitude location) in
  let latitudeImpact := Math_round ((35 - distanceFromEquator) * 0.6) in
  let latitudeFactor :=
    {| category := geographic;
       name := if (latitudeImpact >? 0)%Z then "Favorable Latitude"
               else "Latitude Challenge";
       impact := latitudeImpact;
       severity := if (Z.abs latitudeImpact >? 15)%Z then MEDIUM else LOW;
       description :=
         if (latitudeImpact >? 0)%Z
         then "Optimal latitude for balanced seasonal exposure"
         else "Extreme latitude affects seasonal patterns" |} in
  (* environmental factor of the season *)
  let month := getMonth targetDate in
  let season :=
    if ((month >=? 3) && (month <=? 5))%Z then spring
    else if ((month >=? 6) && (month <=? 8))%Z then summer
    else if ((month >=? 9) && (month <=? 11))%Z then fall
    else winter in
  let '(envImpact, envName, envDesc) :=
    match season with
    | spring => (-12, "Spring Allergen Exposure",
                 "High pollen counts during birth period")
    | summer => (8, "Summer Air Quality",
                 "Generally better air quality and outdoor conditions")
    | fall => (5, "Fall Transition Period",
               "Moderate environmental conditions")
    | winter => (-18, "Winter Environmental Risk",
                 "Indoor pollution and respiratory illness risk")
    end%Z%string in
  let environmentalFactor :=
    {| category := environmental;
       name := envName;
       impact := envImpact;
       severity := if (Z.abs envImpact >? 15)%Z then MEDIUM else LOW;
       description := envDesc |} in
  [solarFactor] ++ uvFactor ++ [vitaminDFactor] ++ infectionFactor
    ++ schoolFactor ++ [latitudeFactor] ++ [environmentalFactor].

(** The block that computes [overallScore]. *)
Definition overallScoreOf (solarActivity : SolarActivityData)
    (seasonalRisk : SeasonalRiskData) (location : LocationData) : Z :=
  let distanceFromEquator := Qabs (latitude location) in
  let solarScore := Qmax 0 (100 - Qabs (lifespanImpact solarActivity) * 15) in
  let seasonalScore := overallSeasonalScore seasonalRisk in
  let geographicScore := Qmax 0 (100 - distanceFromEquator) in
  let environmentalScore := 75 in
  Math_round
    ((solarScore * w_solar WEIGHTS) +
     (seasonalScore * w_seasonal WEIGHTS) +
     (geographicScore * w_geographic WEIGHTS) +
     (environmentalScore * w_environmental WEIGHTS)).

(** The block that fills [recommendations], before deduplication. *)
Definition recommendationsOf {M : MathLib} (solarActivity : SolarActivityData)
    (seasonalRisk : SeasonalRiskData) (location : LocationData)
    (targetDate : Date) (mentalHealthMultiplier : Q) (overallScore : Z)
  : Completion (list string) :=
  let li := lifespanImpact solarActivity in
  let distanceFromEquator := Qabs (latitude location) in
  (* critical timing, from solar activity *)
  let solarAdvice :=
    if li <? -5 then
      [ ("⚠️ CRITICAL: Consider delaying conception by 12-18 months - peak solar maximum detected with significant lifespan impact (-"
           ++ toFixed1 (Qabs li) ++ " years)")%string ]
    else if li <? -3 then
      [ ("Consider delaying conception by 6-12 months to avoid peak solar activity (current impact: "
           ++ toFixed1 li ++ " years)")%string ]
    else if li >? 2 then
      [ ("Excellent solar conditions detected - optimal timing from a solar cycle perspective (+"
           ++ toFixed1 li ++ " years lifespan benefit)")%string ]
    else [] in
  (* vitamin D and seasonal health *)
  vitaminDAdvice <~
    (if (vitaminDScore seasonalRisk <? 30)%Z then
       monthName <~ format_MMMM targetDate ;;
       Normal
         [ ("⚠️ CRITICAL: Start high-dose vitamin D supplementation immediately (2000-4000 IU daily) - severe deficiency risk in "
              ++ monthName)%string;
           "Schedule vitamin D blood test before conception and monitor levels throughout pregnancy"%string ]
     else if (vitaminDScore seasonalRisk <? 50)%Z then
       monthName <~ format_MMMM targetDate ;;
       Normal
         [ "Begin vitamin D supplementation (1000-2000 IU daily) at least 3 months before conception"%string;
           ("Consider light therapy during pregnancy months if born in "
              ++ monthName)%string ]
     else if (vitaminDScore seasonalRisk >? 80)%Z then
       Normal
         [ "Excellent vitamin D synthesis expected - maintain outdoor activities for natural production"%string ]
     else Normal []) ;;
  (* infection risk management *)
  infectionAdvice <~
    (if (infectiousRisk seasonalRisk >? 80)%Z then
       monthName <~ format_MMMM targetDate ;;
       Normal
         [ "⚠️ High infection risk period - implement strict hygiene protocols during first trimester"%string;
           "Consider flu vaccination before conception and pertussis vaccine during pregnancy"%string;
           ("Limit exposure to crowded spaces during peak " ++ monthName
              ++ " infection season")%string ]
     else if (infectiousRisk seasonalRisk >? 60)%Z then
       Normal
         [ "Moderate infection risk - maintain good hygiene practices and consider immune support supplements"%string ]
     else Normal []) ;;
  (* educational timing *)
  let schoolAdvice :=
    if (relativeAgeAdvantage seasonalRisk >? 70)%Z then
      [ "Excellent school entry timing - child will be among oldest in class with documented academic advantages"%string;
        "Consider early enrichment programs to maximize age-related developmental advantages"%string ]
    else if (relativeAgeAdvantage seasonalRisk <? 30)%Z then
      [ ("Child will be among youngest in class - consider delayed kindergarten entry or "
           ++ dquote ++ "redshirting" ++ dquote)%string;
        "Focus on early childhood development programs to offset relative age disadvantage"%string ]
    else [] in
  (* geographic and environmental factors *)
  let latitudeAdvice :=
    if distanceFromEquator >? 50 then
      [ "Northern latitude detected - ensure adequate indoor air quality and humidity control during winter months"%string;
        "Consider seasonal affective disorder (SAD) prevention with light therapy during pregnancy"%string ]
    else [] in
  (* mental health *)
  mentalHealthAdvice <~
    (if mentalHealthMultiplier >? 1.3 then
       monthName <~ format_MMMM targetDate ;;
       Normal
         [ "Elevated mental health risks detected - establish care team including mental health specialist"%string;
           ("Create postpartum support plan with emphasis on " ++ monthName
              ++ " seasonal factors")%string ]
     else Normal []) ;;
  (* seasonal-specific recommendations *)
  seasonalAdvice <~ getSeasonalRecommendations targetDate location ;;
  (* general best practice, by score *)
  let closingAdvice :=
    if (overallScore >=? 80)%Z then
      "Optimal timing confirmed - proceed with standard prenatal care and preparation"%string
    else if (overallScore >=? 60)%Z then
      "Good timing with manageable risks - focus on addressing specific risk factors identified above"%string
    else
      "Consider alternative timing or implement comprehensive risk mitigation strategies"%string in
  Normal (solarAdvice ++ vitaminDAdvice ++ infectionAdvice ++ schoolAdvice
            ++ latitudeAdvice ++ mentalHealthAdvice ++ seasonalAdvice
            ++ [closingAdvice]).

(** The comparator that sorts recommendations by priority. *)
Definition byPriority (a b : string) : Z :=
  if includes a "⚠️ CRITICAL" then (-1)%Z
  else if includes b "⚠️ CRITICAL" then 1%Z
  else if includes a "Consider delaying" then (-1)%Z
  else if includes b "Consider delaying" then 1%Z
  else 0%Z.

(** The parameter [analysisRange] of the source is never read and no caller
    passes it; it is left out. *)
Definition calculateOptimalTiming {M : MathLib}
    (location : LocationData) (targetDate : Date) : Eff OptimalTimingResult :=
  entered <- enterEngine targetDate ;;
  solarActivity <- calculateSolarActivityData targetDate ;;
  let solarRisk := getSolarRiskLevel (sunspotNumber solarActivity) in
  let mentalHealthMultiplier :=
    calculateMentalHealthRisk (sunspotNumber solarActivity) in
  seasonalRisk <- lift (calculateSeasonalRisk targetDate location) ;;
  let riskFactors :=
    riskFactorsOf solarActivity seasonalRisk location targetDate in
  let overallScore := overallScoreOf solarActivity seasonalRisk location in
  let confidenceLevel :=
    if (overallScore >=? 80)%Z then HIGH
    else if (overallScore >=? 60)%Z then MEDIUM else LOW in
  recommendations <-
    lift (recommendationsOf solarActivity seasonalRisk location targetDate
                            mentalHealthMultiplier overallScore) ;;
  (* duplicates out, then critical first *)
  let uniqueRecommendations := Set_spread recommendations in
  let sortedRecommendations := Array_sort byPriority uniqueRecommendations in
  ret {| birthDate := targetDate;
         overallScore := overallScore;
         lifeExpectancyDelta := lifespanImpact solarActivity;
         confidenceLevel := confidenceLevel;
         riskFactors := riskFactors;
         recommendations := sortedRecommendations;
         solarData :=
           {| SolarData.sunspotNumber := sunspotNumber solarActivity;
              SolarData.solarRisk := solarRisk;
              SolarData.lifespanImpact := lifespanImpact solarActivity;
              SolarData.mentalHealthMultiplier := mentalHealthMultiplier;
              SolarData.uvRadiationLevel := uvRadiationLevel solarActivity |};
         seasonalData :=
           {| SeasonalData.vitaminDScore := vitaminDScore seasonalRisk;
              SeasonalData.infectiousRisk := infectiousRisk seasonalRisk;
              SeasonalData.relativeAgeAdvantage :=
                relativeAgeAdvantage seasonalRisk;
              SeasonalData.overallSeasonalScore :=
                overallSeasonalScore seasonalRisk |} |}.

(** The mean of [overallScore] over a non-empty list. *)
Definition averageScore (analyses : list OptimalTimingResult) : Q :=
  fold_left (fun sum a => sum + overallScore a) analyses 0
    / Z.of_nat (List.length analyses).

Definition analyzeTimingRange {M : MathLib} (location : LocationData)
    (centerDate : Date) (rangeMonths : Z) : Eff TimingAnalysis :=
  (* one evaluation per month of the range *)
  analyses <-
    forEach (fromTo (- rangeMonths) rangeMonths)
      (fun i =>
         let testDate := addMonths centerDate i in
         calculateOptimalTiming location testDate) ;;
  (* optimal windows: the top quarter of the scores *)
  let sortedAnalyses :=
    Array_sort (fun a b => (overallScore b - overallScore a)%Z) analyses in
  let topQuartileCount :=
    Math_ceil (Z.of_nat (List.length analyses) * 0.25) in
  let optimalWindows := slice0 topQuartileCount sortedAnalyses in
  let bestAnalysis := nth_error sortedAnalyses 0 in
  let worstAnalysis :=
    nth_error sortedAnalyses (List.length sortedAnalyses - 1) in
  (* yearly trend *)
  let currentYear := getYear centerDate in
  let currentYearAnalyses :=
    filter (fun a => (getYear (birthDate a) =? currentYear)%Z) analyses in
  let nextYearAnalyses :=
    filter (fun a => (getYear (birthDate a) =? currentYear + 1)%Z) analyses in
  let yearlyTrend :=
    if ((Z.of_nat (List.length nextYearAnalyses) >? 0)
        && (Z.of_nat (List.length currentYearAnalyses) >? 0))%Z
    then
      let currentAvg := averageScore currentYearAnalyses in
      let nextAvg := averageScore nextYearAnalyses in
      if nextAvg >? currentAvg + 5 then improving
      else if nextAvg <? currentAvg - 5 then declining
      else stable
    else stable in
  current <- calculateOptimalTiming location centerDate ;;
  best <- lift (defined bestAnalysis) ;;
  worst <- lift (defined worstAnalysis) ;;
  ret {| optimalWindows := optimalWindows;
         currentTiming := current;
         bestOverallMonth := getMonth (birthDate best) + 1;
         worstOverallMonth := getMonth (birthDate worst) + 1;
         yearlyTrend := yearlyTrend |}.

Module Report.
Record t : Type := mk {
  summary : string;
  analysis : OptimalTimingResult;
  alternatives : list OptimalTimingResult;
  scientificBasis : list string
}.
End Report.

(** A value inside a template literal: a string that may be [undefined]. *)
Definition interpolate (o : option string) : string :=
  match o with
  | Some text => text
  | None => "undefined"%string
  end.

Definition Level_toString (l : Level) : string :=
  match l with
  | LOW => "LOW"%string
  | MEDIUM => "MEDIUM"%string
  | HIGH => "HIGH"%string
  end.

Definition isHIGH (l : Level) : bool :=
  match l with
  | HIGH => true
  | _ => false
  end.

Definition generateOptimalityReport {M : MathLib} (location : LocationData)
    (selectedDate : Date) : Eff Report.t :=
  analysis <- calculateOptimalTiming location selectedDate ;;
  timingAnalysis <- analyzeTimingRange location selectedDate 12 ;;
  monthAndYear <- lift (format_MMMM_yyyy selectedDate) ;;
  (* the template literal, trimmed *)
  let summary :=
    ("Birth timing analysis for " ++ monthAndYear ++ " in "
       ++ interpolate (city location) ++ ", "
       ++ interpolate (country location) ++ ":"
       ++ newline ++ "    Overall optimality score: "
       ++ Z_toString (overallScore analysis) ++ "/100 ("
       ++ Level_toString (confidenceLevel analysis) ++ " confidence)"
       ++ newline ++ "    Estimated lifespan impact: "
       ++ (if lifeExpectancyDelta analysis >=? 0 then "+" else "")
       ++ tenths_toString (lifeExpectancyDelta analysis) ++ " years"
       ++ newline ++ "    Primary risk factors: "
       ++ Z_toString
            (Z.of_nat (List.length
               (filter (fun r => isHIGH (severity r)) (riskFactors analysis))))
       ++ " high-risk factors identified")%string in
  let alternatives :=
    slice0 3
      (filter (fun w => negb (sameTime (birthDate w) selectedDate))
              (optimalWindows timingAnalysis)) in
  let scientificBasis :=
    [ "Solar cycle effects on human lifespan: Lowell & Davis (2008), Solar Physics";
      "Seasonal birth effects on disease risk: Disanto et al. (2012), PLoS ONE";
      "Vitamin D deficiency and birth timing: Haggarty et al. (2004), British Journal of Nutrition";
      "Relative age effects in education: Bedard & Dhuey (2006), Quarterly Journal of Economics";
      "UV radiation and folate metabolism: Jablonski & Chaplin (2010), Annual Review of Anthropology"
    ]%string in
  ret {| Report.summary := summary;
         Report.analysis := analysis;
         Report.alternatives := alternatives;
         Report.scientificBasis := scientificBasis |}.

End OptimalTiming.
Import OptimalTiming.

(* ================================================================== *)
(** ** The charts that read the engine's scores *)
(* ================================================================== *)

(** [calculateLifespanImpactForScore] of the full-width analysis. *)
Module FullWidthAnalysis.

Local Open Scope Q_scope.

Definition calculateLifespanImpactForScore (score : Q) : Q :=
  let baseline := 78.5 in
  let normalizedScore := (score - 50) / 50 in
  let impact :=
    if normalizedScore >? 0 then normalizedScore * 2.5
    else normalizedScore * 3.2 in
  Math_round ((baseline + impact) * 10) / 10.

End FullWidthAnalysis.

(** [calculateLifespanImpactForScore] of the life expectancy chart. *)
Module LifeExpectancyChart.

Local Open Scope Q_scope.

Definition calculateLifespanImpactForScore (score : Q) : Q :=
  let baseline := 78 in
  let impact := (score - 50) * 0.1 in
  Math_round ((baseline + impact) * 10) / 10.

End LifeExpectancyChart.

(** A sample host: [Math.sin] and [Math.cos] by the first terms of their
    series, kept within [-1, 1]; [Math.exp] by the first terms of its series
    (of the inverse for a negative argument); [Math.PI] to six decimals. *)
Definition sampleMath : MathLib :=
  {| Math_cos := fun x => Qmax (-1) (Qmin 1 (1 - x * x / 2 + x * x * x * x / 24));
     Math_sin := fun x => Qmax (-1) (Qmin 1 (x - x * x * x / 6));
     Math_exp := fun x =>
       if (x <? 0)%Q then 1 / (1 - x + x * x / 2) else 1 + x + x * x / 2;
     Math_PI := 3.141593 |}.

Definition sampleWorld : World :=
  {| draws := fun n => if Nat.even n then 0.25 else 0.75;
     consumed := 0;
     engineCalls := [] |}.

Definition newYork : LocationData :=
  {| latitude := 40.7128; longitude := -74.0060;
     city := Some "New York"%string; country := Some "United States"%string;
     timezone := None; accuracy := None |}.

Definition midJuly2024 : Date := mkDate 2024 6 15.

Definition midJanuary2024 : Date := mkDate 2024 0 15.

Definition svalbard : LocationData :=
  {| latitude := 78.22; longitude := 15.65;
     city := Some "Longyearbyen"%string; country := Some "Norway"%string;
     timezone := None; accuracy := None |}.

(** A world whose draws are all at the top of the noise band. *)
Definition loudWorld : World :=
  {| draws := fun _ => 0.99; consumed := 0; engineCalls := [] |}.

Definition sydney : LocationData :=
  {| latitude := -33.8688; longitude := 151.2093;
     city := Some "Sydney"%string; country := Some "Australia"%string;
     timezone := None; accuracy := None |}.

(* ================================================================== *)
(** ** Vocabulary of the properties *)
(* ================================================================== *)

(** The solar cycles of the model: the tabulated ones, and every record
    [predictFutureSolarCycle] returns. *)
Definition isCycle (c : SolarCycleData) : Prop :=
  In c SOLAR_CYCLES \/ exists d, predictFutureSolarCycle d = Normal c.

Definition wellShaped (c : SolarCycleData) : Prop :=
  (startYear c < peakYear c < endYear c)%Z.

(** No element of the class [first] stands behind an element outside it. *)
Definition classFirst {A : Type} (first : A -> bool) (l : list A) : Prop :=
  StronglySorted (fun a b => first b = true -> first a = true) l.

(** The advice of the mental-health branch of the recommendations. *)
Definition elevatedAdvice : string :=
  "Elevated mental health risks detected - establish care team including mental health specialist".

(** The marker the comparator of the recommendations looks for first. *)
Definition isCritical (s : string) : bool := includes s "⚠️ CRITICAL".

(** How many times the engine's entry point was entered between two
    worlds. *)
Definition evaluationsBetween (w w' : World) : Z :=
  Z.of_nat (List.length (engineCalls w')) - Z.of_nat (List.length (engineCalls w)).

(** The birth month of a date, in [1..12]. *)
Definition monthOf (d : Date) : Z := (getMonth d + 1)%Z.


(** The school cutoff month [calculateRelativeAgeEffect] reads for a country:
    the table's, or the default when the country is not a key. *)
Definition cutoffOf (country : option string) : Z :=
  match getNamed schoolYearCutoffs
          (match country with Some c => c | None => "US"%string end) with
  | Some cutoff => cutoff
  | None => 9%Z
  end.

(** The names every JavaScript object inherits from [Object.prototype]: a
    lookup of one of them in an object literal is not answered by the
    literal's own rows. *)
Definition inheritedKeys : list string :=
  [ "constructor"; "hasOwnProperty"; "isPrototypeOf"; "propertyIsEnumerable";
    "toLocaleString"; "toString"; "valueOf"; "__proto__";
    "__defineGetter__"; "__defineSetter__"; "__lookupGetter__";
    "__lookupSetter__" ]%string.

(** A country the table of school cutoffs answers for by its own rows. *)
Definition plainCountry (country : option string) : Prop :=
  match country with
  | Some name => ~ In name inheritedKeys
  | None => True
  end.

(** Further samples. *)
Definition northPole : LocationData :=
  {| latitude := 90; longitude := 0; city := None; country := None;
     timezone := None; accuracy := None |}.

(** A session that has fetched nothing yet. *)
Definition freshSession : Session :=
  {| world := sampleWorld; solarDataCache := [] |}.

Definition midJanuary2020 : Date := mkDate 2020 0 15.

Definition ushuaia : LocationData :=
  {| latitude := -54.8019; longitude := -68.3030;
     city := Some "Ushuaia"%string; country := Some "Argentina"%string;
     timezone := None; accuracy := None |}.

(** The two recommendations that advise to delay conception. *)
Definition advisesDelay (text : string) : bool :=
  String.prefix "Consider delaying conception" text
  || String.prefix "⚠️ CRITICAL: Consider delaying conception" text.

(* ================================================================== *)
(** ** Arithmetic of the embedding *)
(* ================================================================== *)

(** Integer literals injected into [Q] become rational literals. *)
Ltac qconst :=
  repeat match goal with
  | |- context [inject_Z (Z.pos ?p)] =>
      change (inject_Z (Z.pos p)) with (Z.pos p # 1)
  | |- context [inject_Z (Z.neg ?p)] =>
      change (inject_Z (Z.neg p)) with (Z.neg p # 1)
  | |- context [inject_Z Z0] => change (inject_Z Z0) with 0%Q
  | H : context [inject_Z (Z.pos ?p)] |- _ =>
      change (inject_Z (Z.pos p)) with (Z.pos p # 1) in H
  | H : context [inject_Z (Z.neg ?p)] |- _ =>
      change (inject_Z (Z.neg p)) with (Z.neg p # 1) in H
  | H : context [inject_Z Z0] |- _ => change (inject_Z Z0) with 0%Q in H
  end.

(** Linear arithmetic over [Q], with quotients by literals and injected
    integer expressions. *)
Ltac qlra :=
  unfold Z.sub in *;
  rewrite ?inject_Z_plus, ?inject_Z_mult, ?inject_Z_opp in *;
  qconst; unfold Qdiv in *; cbn [Qinv Qnum Qden] in *; lra.

(** An integer inequality read in [Q]. *)
Ltac in_Q H := first [rewrite Zle_Qle in H | rewrite Zlt_Qlt in H].

Section Arithmetic.

Local Open Scope Q_scope.

Lemma Qlt_bool_true (x y : Q) : (x <? y) = true <-> x < y.
Proof.
  unfold Qlt_bool. rewrite negb_true_iff.
  split; intro H.
  - apply Qnot_le_lt. intro Hle. apply Qle_bool_iff in Hle. congruence.
  - destruct (Qle_bool y x) eqn:E; [|reflexivity].
    apply Qle_bool_iff in E. lra.
Qed.

Lemma Qlt_bool_false (x y : Q) : (x <? y) = false <-> y <= x.
Proof.
  unfold Qlt_bool. rewrite negb_false_iff. apply Qle_bool_iff.
Qed.

Lemma Qlt_bool_spec (x y : Q) : BoolSpec (x < y) (y <= x) (x <? y).
Proof.
  destruct (x <? y) eqn:E; constructor.
  - now apply Qlt_bool_true.
  - now apply Qlt_bool_false.
Qed.

Lemma Qabs_spec (x : Q) :
  (0 <= x /\ Qabs x == x) \/ (x <= 0 /\ Qabs x == - x).
Proof.
  destruct (Qlt_le_dec x 0) as [H|H].
  - right. split; [lra|]. apply Qabs_neg. lra.
  - left. split; [assumption|]. now apply Qabs_pos.
Qed.

Lemma Math_round_mono (x y : Q) : x <= y -> (Math_round x <= Math_round y)%Z.
Proof.
  intro H. unfold Math_round. apply Qfloor_resp_le. lra.
Qed.

Lemma Math_round_Z (z : Z) : Math_round (inject_Z z) = z.
Proof.
  unfold Math_round.
  assert (Hlo : (z <= Qfloor (inject_Z z + (1 # 2)))%Z).
  { rewrite <- (Qfloor_Z z) at 1. apply Qfloor_resp_le. lra. }
  assert (Hhi : (Qfloor (inject_Z z + (1 # 2)) < z + 1)%Z).
  { rewrite Zlt_Qlt, inject_Z_plus.
    pose proof (Qfloor_le (inject_Z z + (1 # 2))).
    change (inject_Z 1) with 1. lra. }
  lia.
Qed.

(** Rounding stays between integer bounds. *)
Lemma Math_round_between (x : Q) (lo hi : Z) :
  inject_Z lo <= x -> x <= inject_Z hi -> (lo <= Math_round x <= hi)%Z.
Proof.
  intros Hlo Hhi. split.
  - rewrite <- (Math_round_Z lo). now apply Math_round_mono.
  - rewrite <- (Math_round_Z hi). now apply Math_round_mono.
Qed.

(** [Math.ceil] of a quotient of integers by eleven. *)
Lemma Math_ceil_eleven (a : Z) :
  (11 * (Math_ceil (inject_Z a / 11) - 1) < a <= 11 * Math_ceil (inject_Z a / 11))%Z.
Proof.
  unfold Math_ceil.
  pose proof (Qle_ceiling (inject_Z a / 11)) as Hle.
  pose proof (Qceiling_lt (inject_Z a / 11)) as Hlt.
  set (k := Qceiling (inject_Z a / 11)) in *.
  unfold Z.sub in *. rewrite inject_Z_plus in Hlt.
  change (inject_Z (- (1))) with (- (1)) in Hlt.
  split.
  - rewrite Zlt_Qlt, inject_Z_mult, inject_Z_plus.
    change (inject_Z 11) with 11. change (inject_Z (- (1))) with (- (1)).
    clearbody k. qlra.
  - rewrite Zle_Qle, inject_Z_mult. change (inject_Z 11) with 11.
    clearbody k. qlra.
Qed.

End Arithmetic.

(** Case analysis on a comparison of the code. *)
Ltac qcompare x y :=
  let H := fresh "Hcmp" in
  destruct (Qlt_bool_spec x y) as [H|H].

(** Replace every [Qmax], [Qmin] and [Qabs] by a variable and its cases. *)
Ltac qcase_max a b :=
  let H := fresh "Hmax" in
  destruct (Q.max_spec a b) as [[? H]|[? H]];
  generalize dependent (Qmax a b); intros.

Ltac qcase_min a b :=
  let H := fresh "Hmin" in
  destruct (Q.min_spec a b) as [[? H]|[? H]];
  generalize dependent (Qmin a b); intros.

Ltac qcase_abs a :=
  let H := fresh "Habs" in
  destruct (Qabs_spec a) as [[? H]|[? H]];
  generalize dependent (Qabs a); intros.

Ltac qcases :=
  repeat match goal with
  | |- context [Qmax ?a ?b] => qcase_max a b
  | |- context [Qmin ?a ?b] => qcase_min a b
  | |- context [Qabs ?a] => qcase_abs a
  | _ : context [Qmax ?a ?b] |- _ => qcase_max a b
  | _ : context [Qmin ?a ?b] |- _ => qcase_min a b
  | _ : context [Qabs ?a] |- _ => qcase_abs a
  end.

(* ================================================================== *)
(** ** Calendar and hemisphere *)
(* ================================================================== *)

Lemma month_cases (m : Z) :
  (0 <= m <= 11)%Z ->
  (m = 0 \/ m = 1 \/ m = 2 \/ m = 3 \/ m = 4 \/ m = 5 \/ m = 6 \/
   m = 7 \/ m = 8 \/ m = 9 \/ m = 10 \/ m = 11)%Z.
Proof. lia. Qed.

(** A concrete date is valid. *)
Ltac valid_date_now :=
  unfold valid_date; cbn [getMonth getDate getFullYear];
  repeat split; vm_compute; discriminate.

(** Run the proof once per calendar month. *)
Ltac each_month m H :=
  let C := fresh "Hm" in
  pose proof (month_cases H) as C;
  repeat (destruct C as [C|C]; [subst m|]); [..|subst m].

Lemma addMonths_month (d : Date) (n : Z) :
  getMonth (addMonths d n) = ((getMonth d + n) mod 12)%Z.
Proof.
  unfold addMonths. simpl.
  replace (getFullYear d * 12 + getMonth d + n)%Z
    with (getMonth d + n + getFullYear d * 12)%Z by lia.
  apply Z_mod_plus_full.
Qed.

Lemma addMonths_valid (d : Date) (n : Z) :
  valid_date d -> valid_date (addMonths d n).
Proof.
  intros [_ Hday]. unfold valid_date, addMonths. simpl.
  set (y := ((getFullYear d * 12 + getMonth d + n) / 12)%Z).
  set (m := ((getFullYear d * 12 + getMonth d + n) mod 12)%Z).
  assert (Hm : (0 <= m < 12)%Z) by (apply Z.mod_pos_bound; lia).
  assert (Hdays : (28 <= daysInMonth y m)%Z).
  { unfold daysInMonth.
    destruct (m =? 1)%Z; [destruct (isLeapYear y); lia|].
    destruct ((m =? 3) || (m =? 5) || (m =? 8) || (m =? 10))%Z; lia. }
  lia.
Qed.

Lemma southern_not_northern (lat : Q) :
  (lat <= 0)%Q -> isNorthernHemisphere lat = false.
Proof. intro H. unfold isNorthernHemisphere. now apply Qlt_bool_false. Qed.

Lemma northern_is_northern (lat : Q) :
  (0 < lat)%Q -> isNorthernHemisphere lat = true.
Proof. intro H. unfold isNorthernHemisphere. now apply Qlt_bool_true. Qed.

(** The month the disease table is read at. *)
Lemma adjustedMonth_in_table (d : Date) (northern : bool) :
  valid_date d ->
  exists entry,
    getProperty NORTHERN_HEMISPHERE_DISEASE_RISKS
      (if northern then (getMonth d + 1)%Z
       else (Z.rem (getMonth d + 1 + 5) 12 + 1)%Z) = Some entry
    /\ (0.82 <= infectious entry <= 1.15)%Q.
Proof.
  intros [Hm _]. destruct d as [y m dd]. simpl in *.
  each_month m Hm; destruct northern;
    (eexists; split; [reflexivity|simpl; lra]).
Qed.

(* ================================================================== *)
(** ** The seasonal model *)
(* ================================================================== *)

Section Seasonal.

Context {M : MathLib}.
Local Open Scope Q_scope.

Lemma clamp_0_100 (x : Q) : 0 <= Qmax 0 (Qmin 100 x) <= 100.
Proof. qcases; lra. Qed.

Lemma clamped_complement (x : Q) : 0 <= 100 - Qmin 100 (Qmax 0 x) <= 100.
Proof. qcases; lra. Qed.

Lemma calculateVitaminDSynthesis_range (loc : LocationData) (d : Date) :
  0 <= calculateVitaminDSynthesis loc d <= 100.
Proof. unfold calculateVitaminDSynthesis. cbv zeta. apply clamp_0_100. Qed.

Lemma calculateInfectiousRisk_spec (d : Date) (loc : LocationData) :
  valid_date d ->
  exists x, calculateInfectiousRisk d loc = Normal x /\ 0.82 <= x <= 1.15.
Proof.
  intro Hd. unfold calculateInfectiousRisk. cbv zeta.
  destruct (adjustedMonth_in_table (isNorthernHemisphere (latitude loc)) Hd)
    as (entry & Hentry & Hrange).
  rewrite Hentry. simpl. now exists (infectious entry).
Qed.

Lemma calculateDiseaseRisks_spec (d : Date) (loc : LocationData) :
  valid_date d ->
  exists risks, calculateDiseaseRisks d loc = Normal risks.
Proof.
  intro Hd. unfold calculateDiseaseRisks. cbv zeta.
  destruct (adjustedMonth_in_table (isNorthernHemisphere (latitude loc)) Hd)
    as (entry & Hentry & _).
  rewrite Hentry. simpl. eexists. reflexivity.
Qed.

(** Every country reads a cutoff month between January and September. *)
Lemma cutoffMonth_range (c : string) :
  exists cutoff,
    match getNamed schoolYearCutoffs c with
    | Some cutoff =>
        if (cutoff =? 0)%Z
        then defined (getNamed schoolYearCutoffs "default")
        else Normal cutoff
    | None => defined (getNamed schoolYearCutoffs "default")
    end = Normal cutoff /\ (1 <= cutoff <= 9)%Z.
Proof.
  unfold schoolYearCutoffs. cbn [getNamed].
  repeat match goal with
  | |- context [String.eqb ?a c] => destruct (String.eqb a c)
  end; cbn; eexists; (split; [reflexivity|lia]).
Qed.

Lemma calculateRelativeAgeEffect_spec (d : Date) (c : option string) :
  valid_date d ->
  exists x, calculateRelativeAgeEffect d c = Normal x /\ 0 <= x <= 100.
Proof.
  intros [Hm _]. unfold calculateRelativeAgeEffect. cbv zeta.
  destruct (cutoffMonth_range (match c with Some c0 => c0 | None => "US"%string end))
    as (cutoff & Hcut & Hrange).
  rewrite Hcut. cbn [bindC]. eexists. split; [reflexivity|].
  assert (Hrem : (0 <= Z.rem (getMonth d + 1 - cutoff + 12) 12)%Z)
    by (apply Z.rem_nonneg; lia).
  rewrite Zle_Qle in Hrem. change (inject_Z 0) with 0 in Hrem.
  qcases; lra.
Qed.

(** What [calculateSeasonalRisk] returns on a valid date. *)
Lemma calculateSeasonalRisk_spec (d : Date) (loc : LocationData) :
  valid_date d ->
  exists r,
    calculateSeasonalRisk d loc = Normal r /\
    (0 <= vitaminDScore r <= 100)%Z /\
    (10 <= infectiousRisk r <= 175)%Z /\
    (0 <= relativeAgeAdvantage r <= 100)%Z /\
    (0 <= overallSeasonalScore r <= 100)%Z.
Proof.
  intro Hd. unfold calculateSeasonalRisk. cbv zeta.
  destruct (calculateInfectiousRisk_spec loc Hd) as (inf & -> & Hinf).
  destruct (calculateRelativeAgeEffect_spec (country loc) Hd) as (ra & -> & Hra).
  destruct (calculateDiseaseRisks_spec loc Hd) as (risks & ->).
  cbn [bindC]. eexists. split; [reflexivity|]. cbn [vitaminDScore
    infectiousRisk relativeAgeAdvantage overallSeasonalScore].
  pose proof (calculateVitaminDSynthesis_range loc d) as Hv.
  repeat split.
  1,2: apply (@Math_round_between _ 0 100); change (inject_Z 0) with 0;
       change (inject_Z 100) with 100; lra.
  1,2: apply (@Math_round_between _ 10 175); change (inject_Z 10) with 10;
       change (inject_Z 175) with 175; qcases; lra.
  1,2: apply (@Math_round_between _ 0 100); change (inject_Z 0) with 0;
       change (inject_Z 100) with 100; lra.
  all: apply (@Math_round_between _ 0 100); change (inject_Z 0) with 0;
       change (inject_Z 100) with 100;
       pose proof (clamped_complement ((inf - 0.8) * 500));
       pose proof (clamped_complement ((cardiovascular risks - 0.9) * 500));
       pose proof (clamped_complement ((mentalHealth risks - 0.85) * 400));
       pose proof (clamped_complement (Qabs (autoimmune risks - 1.0) * 1000));
       lra.
Qed.

End Seasonal.

(* ================================================================== *)
(** ** Running effectful steps forward *)
(* ================================================================== *)

Section Running.

Context {A B : Type}.

Lemma bind_step (m : Eff A) (k : A -> Eff B) (w w1 : World) (a : A) :
  m w = Normal (a, w1) -> bind m k w = k a w1.
Proof. intro H. unfold bind. now rewrite H. Qed.

Lemma bind_lift_step (c : Completion A) (k : A -> Eff B) (w : World) (a : A) :
  c = Normal a -> bind (lift c) k w = k a w.
Proof. intros ->. reflexivity. Qed.

Lemma bind_random (k : Q -> Eff B) (w : World) :
  bind Math_random k w =
  k (draws w (consumed w)) (mkWorld (draws w) (S (consumed w)) (engineCalls w)).
Proof. reflexivity. Qed.

Lemma divide_Normal (a b : Q) : ~ b == 0 -> divide a b = Normal (a / b)%Q.
Proof.
  intro H. unfold divide. destruct (Qeq_bool b 0) eqn:E; [|reflexivity].
  apply Qeq_bool_iff in E. contradiction.
Qed.

End Running.

(* ================================================================== *)
(** ** The solar model *)
(* ================================================================== *)

Section Solar.

Context {M : MathLib}.

Lemma table_cycles_wellShaped (c : SolarCycleData) :
  In c SOLAR_CYCLES -> wellShaped c /\ (startYear c < endYear c <= 2030)%Z.
Proof.
  unfold SOLAR_CYCLES. simpl.
  intros [<-|[<-|[<-|[<-|[<-|[<-|[]]]]]]]; unfold wellShaped; simpl; lia.
Qed.

Lemma yearInCycle_true (y : Z) (c : SolarCycleData) :
  yearInCycle y c = true <-> (startYear c <= y <= endYear c)%Z.
Proof. unfold yearInCycle. rewrite andb_true_iff, Z.geb_le, Z.leb_le. tauto. Qed.

Lemma yearInCycle_false (y : Z) (c : SolarCycleData) :
  yearInCycle y c = false <-> (y < startYear c \/ endYear c < y)%Z.
Proof.
  unfold yearInCycle. rewrite andb_false_iff, Z.geb_leb, !Z.leb_gt. tauto.
Qed.

(** The record predicted for a year after the table. *)
Lemma predictFutureSolarCycle_after (d : Date) :
  (2030 < getYear d)%Z ->
  exists k : Z,
    (1 <= k)%Z /\ (11 * (k - 1) < getYear d - 2030 <= 11 * k)%Z /\
    predictFutureSolarCycle d =
    Normal (mkSolarCycleData (25 + k) (2030 + (k - 1) * 11)
              (2030 + (k - 1) * 11 + 4) (2030 + (k - 1) * 11 + 11)
              140 minimum).
Proof.
  intro Hy.
  pose proof (Math_ceil_eleven (getYear d - 2030)) as Hk.
  exists (Math_ceil (inject_Z (getYear d - 2030) / 11)).
  split; [lia|]. split; [lia|].
  unfold predictFutureSolarCycle, SOLAR_CYCLES.
  cbn [List.length Nat.sub nth_error defined bindC endYear cycleNumber].
  destruct (getYear d >? 2030)%Z eqn:E; [reflexivity|lia].
Qed.

Lemma predictFutureSolarCycle_before (d : Date) :
  (getYear d <= 2030)%Z ->
  predictFutureSolarCycle d =
  Normal (mkSolarCycleData 25 2019 2024 2030 137 ascending).
Proof.
  intro Hy. unfold predictFutureSolarCycle, SOLAR_CYCLES.
  cbn [List.length Nat.sub nth_error defined bindC endYear cycleNumber].
  destruct (getYear d >? 2030)%Z eqn:E; [lia|reflexivity].
Qed.

(** The lookup always finds a cycle, of positive length; from 1964 on the
    cycle contains the year. *)
Lemma getSolarCycleForDate_spec (d : Date) :
  exists c,
    getSolarCycleForDate d = Normal c /\ isCycle c /\
    (startYear c < endYear c)%Z /\
    ((1964 <= getYear d)%Z -> yearInCycle (getYear d) c = true).
Proof.
  unfold getSolarCycleForDate. cbv zeta. unfold Array_find.
  destruct (find (yearInCycle (getYear d)) SOLAR_CYCLES) as [c|] eqn:E.
  - apply find_some in E. destruct E as [Hin Hyear].
    exists c. repeat split; auto.
    + now left.
    + now apply table_cycles_wellShaped.
  - destruct (Z_lt_le_dec 2030 (getYear d)) as [Hy|Hy].
    + destruct (predictFutureSolarCycle_after d Hy) as (k & Hk & Hbounds & Hp).
      eexists. split; [exact Hp|]. split; [right; now exists d|].
      split; [cbn [startYear endYear]; lia|].
      intros _. apply yearInCycle_true. cbn [startYear endYear]. lia.
    + rewrite (predictFutureSolarCycle_before d Hy).
      eexists. split; [reflexivity|]. split; [left; simpl; tauto|].
      split; [simpl; lia|]. intro H64. exfalso.
      pose proof (find_none _ _ E) as Hnone.
      assert (Hin : forall c, In c SOLAR_CYCLES ->
                (getYear d < startYear c \/ endYear c < getYear d)%Z)
        by (intros c Hc; apply yearInCycle_false; auto).
      unfold SOLAR_CYCLES in Hin.
      pose proof (Hin _ (or_introl eq_refl)) as H20.
      pose proof (Hin _ (or_intror (or_introl eq_refl))) as H21.
      pose proof (Hin _ (or_intror (or_intror (or_introl eq_refl)))) as H22.
      pose proof (Hin _ (or_intror (or_intror (or_intror (or_introl eq_refl)))))
        as H23.
      pose proof (Hin _ (or_intror (or_intror (or_intror (or_intror
                           (or_introl eq_refl)))))) as H24.
      pose proof (Hin _ (or_intror (or_intror (or_intror (or_intror
                           (or_intror (or_introl eq_refl))))))) as H25.
      cbn [startYear endYear] in *. lia.
Qed.

Lemma cycle_length_nonzero (c : SolarCycleData) :
  (startYear c < endYear c)%Z -> ~ inject_Z (endYear c - startYear c) == 0.
Proof.
  intros Hlt Heq. unfold Qeq in Heq. simpl in Heq. lia.
Qed.

(** The sunspot number is drawn once and is never negative. *)
Lemma calculateSunspotNumber_spec (d : Date) (w : World) :
  exists s,
    calculateSunspotNumber d w =
      Normal (s, mkWorld (draws w) (S (consumed w)) (engineCalls w)) /\
    (0 <= s)%Z.
Proof.
  destruct (getSolarCycleForDate_spec d) as (c & Hc & _ & Hlen & _).
  unfold calculateSunspotNumber.
  rewrite (bind_lift_step _ _ Hc). cbv zeta.
  rewrite (bind_lift_step _ _ (divide_Normal _ (cycle_length_nonzero c Hlen))).
  rewrite bind_random. unfold ret.
  eexists. split; [reflexivity|].
  rewrite <- (Math_round_Z 0). apply Math_round_mono.
  change (inject_Z 0) with 0%Q. apply Q.le_max_l.
Qed.

Local Open Scope Q_scope.

(** The lifespan impact, as [calculateSolarActivityData] computes it from a
    sunspot number and a month. *)
Lemma lifespanImpact_range (s month : Z) :
  (0 <= month <= 11)%Z ->
  let normalizedSunspots := Qmax 0 (Qmin 200 s) in
  let lifespanImpact :=
    if normalizedSunspots <? 30 then
      0.5 - (normalizedSunspots / 30) * 0.8
    else if normalizedSunspots <? 120 then
      -0.3 - ((normalizedSunspots - 30) / 90) * 4.5
    else
      -4.8 - ((normalizedSunspots - 120) / 80) * 1.8 in
  let monthVariation := (month - 6)%Z * 0.1 in
  -7.2 <= Math_round ((lifespanImpact + monthVariation) * 10) / 10 <= 1.
Proof.
  intros Hm n f mv.
  assert (Hn : 0 <= n <= 200) by (subst n; qcases; lra).
  assert (Hf : -6.6 <= f <= 0.5).
  { subst f. clearbody n.
    qcompare n 30; [qlra|]. qcompare n 120; qlra. }
  assert (Hmv : -0.6 <= mv <= 0.5).
  { subst mv. clearbody f n. destruct Hm as [Hlo Hhi].
    in_Q Hlo. in_Q Hhi. qlra. }
  clearbody f mv.
  destruct (@Math_round_between ((f + mv) * 10) (-72) 10) as [Hlo Hhi];
    [qlra|qlra|].
  in_Q Hlo. in_Q Hhi. qlra.
Qed.

Lemma calculateUVFromSolarActivity_range (s : Z) :
  (0 <= s)%Z -> 5 <= calculateUVFromSolarActivity s <= 11.
Proof.
  intro Hs. in_Q Hs.
  unfold calculateUVFromSolarActivity. cbv zeta. qcases; qlra.
Qed.

(** What [calculateSolarActivityData] returns: three draws are consumed and
    the sample is within its ranges. *)
Lemma calculateSolarActivityData_spec (d : Date) (w : World) :
  valid_date d ->
  exists sa,
    calculateSolarActivityData d w =
      Normal (sa, mkWorld (draws w) (S (S (S (consumed w)))) (engineCalls w)) /\
    (0 <= sunspotNumber sa)%Z /\
    -7.2 <= lifespanImpact sa <= 1 /\
    5 <= uvRadiationLevel sa <= 11.
Proof.
  intros [Hm _].
  destruct (calculateSunspotNumber_spec d w) as (s & Hs & Hs0).
  destruct (getSolarCycleForDate_spec d) as (c & Hc & _ & Hlen & _).
  unfold calculateSolarActivityData.
  rewrite (bind_step _ _ _ Hs).
  rewrite (bind_lift_step _ _ Hc). cbv zeta.
  rewrite (bind_lift_step _ _ (divide_Normal _ (cycle_length_nonzero c Hlen))).
  rewrite !bind_random. unfold ret. cbn [draws consumed engineCalls].
  eexists. split; [reflexivity|].
  cbn [sunspotNumber lifespanImpact uvRadiationLevel].
  split; [assumption|]. split.
  - apply (lifespanImpact_range s Hm).
  - now apply calculateUVFromSolarActivity_range.
Qed.

End Solar.

(* ================================================================== *)
(** ** Sorting and deduplication *)
(* ================================================================== *)

Section Sorting.

Context {A : Type}.
Variable cmp : A -> A -> Z.

Lemma sortInsert_In (x y : A) (l : list A) :
  In y (sortInsert cmp x l) <-> y = x \/ In y l.
Proof.
  induction l as [|z l IH]; simpl.
  - intuition.
  - destruct (cmp x z <? 0)%Z; simpl; [|rewrite IH]; intuition.
Qed.

Lemma sortInsert_length (x : A) (l : list A) :
  List.length (sortInsert cmp x l) = S (List.length l).
Proof.
  induction l as [|z l IH]; simpl; [reflexivity|].
  destruct (cmp x z <? 0)%Z; simpl; [reflexivity|now rewrite IH].
Qed.

(** The loop of [Array_sort], from any sorted prefix [acc]. *)
Lemma sort_loop_In (l acc : list A) (y : A) :
  In y (fold_left (fun sorted x => sortInsert cmp x sorted) l acc)
  <-> In y l \/ In y acc.
Proof.
  revert acc. induction l as [|x l IH]; intro acc; simpl.
  - intuition.
  - rewrite IH, sortInsert_In. intuition.
Qed.

Lemma sort_loop_length (l acc : list A) :
  List.length (fold_left (fun sorted x => sortInsert cmp x sorted) l acc)
  = (List.length l + List.length acc)%nat.
Proof.
  revert acc. induction l as [|x l IH]; intro acc; simpl; [reflexivity|].
  rewrite IH, sortInsert_length. lia.
Qed.

Lemma Array_sort_In (l : list A) (y : A) : In y (Array_sort cmp l) <-> In y l.
Proof. unfold Array_sort. rewrite sort_loop_In. simpl. intuition. Qed.

Lemma Array_sort_length (l : list A) :
  List.length (Array_sort cmp l) = List.length l.
Proof. unfold Array_sort. rewrite sort_loop_length. simpl. lia. Qed.

(** A class of elements the comparator always puts first: an element of
    the class compares below everything, an element outside it never
    compares below an element of the class. *)
Variable first : A -> bool.
Hypothesis first_below : forall a b, first a = true -> (cmp a b < 0)%Z.
Hypothesis other_not_below :
  forall a b, first a = false -> first b = true -> (0 <= cmp a b)%Z.

Lemma sortInsert_classFirst (x : A) (l : list A) :
  classFirst first l -> classFirst first (sortInsert cmp x l).
Proof.
  unfold classFirst. induction l as [|y l IH]; intro Hs; simpl.
  - repeat constructor.
  - apply StronglySorted_inv in Hs. destruct Hs as [Hl Hy].
    destruct (first x) eqn:Hx.
    + pose proof (@first_below x y Hx) as Hlt.
      apply Z.ltb_lt in Hlt. rewrite Hlt.
      constructor; [now constructor|].
      rewrite Forall_forall. intros; assumption.
    + destruct (cmp x y <? 0)%Z eqn:Hc.
      * apply Z.ltb_lt in Hc.
        assert (Hfy : first y = false).
        { destruct (first y) eqn:E; [|reflexivity].
          pose proof (@other_not_below x y Hx E). lia. }
        constructor; [now constructor|].
        constructor; [congruence|].
        rewrite Forall_forall in *. intros z Hz Hfz.
        specialize (Hy z Hz Hfz). congruence.
      * constructor; [now apply IH|].
        rewrite Forall_forall in *. intros z Hz Hfz.
        apply sortInsert_In in Hz. destruct Hz as [->|Hz]; [congruence|].
        exact (Hy z Hz Hfz).
Qed.

Lemma sort_loop_classFirst (l acc : list A) :
  classFirst first acc ->
  classFirst first (fold_left (fun sorted x => sortInsert cmp x sorted) l acc).
Proof.
  revert acc. induction l as [|x l IH]; intros acc Hacc; simpl; [assumption|].
  apply IH. now apply sortInsert_classFirst.
Qed.

Lemma Array_sort_classFirst (l : list A) : classFirst first (Array_sort cmp l).
Proof. apply sort_loop_classFirst. constructor. Qed.

(** Positions: an element of the class comes before one outside it. *)
Lemma classFirst_positions (l : list A) (i j : nat) (a b : A) :
  classFirst first l ->
  nth_error l i = Some a -> nth_error l j = Some b ->
  first a = true -> first b = false -> (i < j)%nat.
Proof.
  unfold classFirst. intro Hs. revert i j.
  induction Hs as [|x l Hl IH Hx]; intros i j Hi Hj Ha Hb.
  - destruct i; discriminate.
  - destruct i as [|i], j as [|j]; simpl in *.
    + congruence.
    + lia.
    + injection Hj as ->. apply nth_error_In in Hi.
      rewrite Forall_forall in Hx. specialize (Hx a Hi Ha). congruence.
    + specialize (IH i j Hi Hj Ha Hb). lia.
Qed.

End Sorting.

Lemma uniqueFrom_In (l seen : list string) (x : string) :
  In x (uniqueFrom seen l) -> In x l.
Proof.
  revert seen. induction l as [|y l IH]; intro seen; simpl; [tauto|].
  destruct (existsb (String.eqb y) seen).
  - intro H. right. eapply IH; eauto.
  - simpl. intros [->|H]; [now left|right; eapply IH; eauto].
Qed.

Lemma Set_spread_In (l : list string) (x : string) :
  In x (Set_spread l) -> In x l.
Proof. apply uniqueFrom_In. Qed.

(* ================================================================== *)
(** ** The recommendation cascade *)
(* ================================================================== *)

Section Recommendations.

Context {M : MathLib}.

(** Refute the membership [Hin] of a string in a list of other strings. *)
Ltac absurd_member Hin :=
  repeat match type of Hin with
  | In _ (_ ++ _) => apply in_app_or in Hin; destruct Hin as [Hin|Hin]
  | In _ (_ :: _) => destruct Hin as [Hin|Hin]
  | In _ [] => destruct Hin
  | In _ (if ?c then _ else _) => destruct c
  | (if ?c then _ else _) = _ => destruct c
  | _ = _ => cbn [append] in Hin; discriminate Hin
  | In _ _ => contradiction
  end.

Lemma format_MMMM_valid (d : Date) :
  valid_date d -> exists monthName, format_MMMM d = Normal monthName.
Proof.
  intros [Hm _]. destruct d as [y m dd]. simpl in Hm.
  each_month m Hm; eexists; reflexivity.
Qed.

Lemma getSeasonalRecommendations_spec (d : Date) (loc : LocationData) :
  valid_date d ->
  exists recs,
    getSeasonalRecommendations d loc = Normal recs /\
    ~ In elevatedAdvice recs.
Proof.
  intro Hd. unfold getSeasonalRecommendations.
  destruct (calculateSeasonalRisk_spec loc Hd) as (sr & -> & _).
  cbn [bindC]. eexists. split; [reflexivity|].
  unfold elevatedAdvice. intro Hin. absurd_member Hin.
Qed.

(** Reduce the cascade once the conditions of its fallible branches are
    decided. *)
Ltac decide_branches :=
  repeat match goal with
  | |- context [bindC (if ?c then _ else _) _] =>
      destruct c; cbn [bindC]
  end.

Lemma recommendationsOf_total (sa : SolarActivityData) (sr : SeasonalRiskData)
    (loc : LocationData) (d : Date) (multiplier : Q) (score : Z) :
  valid_date d ->
  exists recs, recommendationsOf sa sr loc d multiplier score = Normal recs.
Proof.
  intro Hd. unfold recommendationsOf. cbv zeta.
  destruct (format_MMMM_valid Hd) as (monthName & ->).
  destruct (getSeasonalRecommendations_spec loc Hd) as (recs & -> & _).
  decide_branches; eexists; reflexivity.
Qed.

(** The mental-health advice is pushed by its own branch only. *)
Lemma recommendationsOf_elevated (sa : SolarActivityData)
    (sr : SeasonalRiskData) (loc : LocationData) (d : Date)
    (multiplier : Q) (score : Z) (recs : list string) :
  valid_date d ->
  (multiplier >? 1.3)%Q = false ->
  recommendationsOf sa sr loc d multiplier score = Normal recs ->
  ~ In elevatedAdvice recs.
Proof.
  intros Hd Hmul. unfold recommendationsOf. cbv zeta.
  destruct (format_MMMM_valid Hd) as (monthName & ->).
  destruct (getSeasonalRecommendations_spec loc Hd) as (srecs & -> & Hsrecs).
  rewrite Hmul.
  decide_branches; intro H; injection H as <-; intro Hin;
    unfold elevatedAdvice in *; absurd_member Hin.
Qed.

End Recommendations.

(* ================================================================== *)
(** ** The engine *)
(* ================================================================== *)

Section Engine.

Context {M : MathLib}.
Local Open Scope Q_scope.


(** A rounded value within [-100, 100]. *)
Lemma Math_round_percent (x : Q) :
  -100 <= x <= 100 -> (-100 <= Math_round x <= 100)%Z.
Proof. intros [Hlo Hhi]. apply Math_round_between; qlra. Qed.

Lemma riskFactorsOf_impacts (sa : SolarActivityData) (sr : SeasonalRiskData)
    (loc : LocationData) (d : Date) :
  -7.2 <= lifespanImpact sa <= 1 ->
  5 <= uvRadiationLevel sa <= 11 ->
  (0 <= vitaminDScore sr <= 100)%Z ->
  (10 <= infectiousRisk sr <= 175)%Z ->
  (0 <= relativeAgeAdvantage sr <= 100)%Z ->
  -90 <= latitude loc <= 90 ->
  forall f, In f (riskFactorsOf sa sr loc d) ->
            (-100 <= impact f <= 100)%Z.
Proof.
  intros Hli Huv [Hv0 Hv1] [Hi0 Hi1] [Hr0 Hr1] Hlat f Hin.
  in_Q Hv0. in_Q Hv1. in_Q Hi0. in_Q Hi1. in_Q Hr0. in_Q Hr1.
  unfold riskFactorsOf in Hin. cbv zeta in Hin.
  assert (Huvr := @Math_round_percent ((uvRadiationLevel sa - 6) * 5)).
  assert (Hvr := @Math_round_percent ((vitaminDScore sr - 60)%Z * 0.5)).
  assert (Hir := @Math_round_percent ((infectiousRisk sr - 50)%Z * 0.6)).
  assert (Hrr := @Math_round_percent ((relativeAgeAdvantage sr - 50)%Z * 0.8)).
  assert (Hlr := @Math_round_percent ((35 - Qabs (latitude loc)) * 0.6)).
  specialize (Huvr ltac:(qlra)). specialize (Hvr ltac:(qlra)).
  specialize (Hir ltac:(qlra)). specialize (Hrr ltac:(qlra)).
  specialize (Hlr ltac:(qcases; qlra)).
  destruct ((getMonth d >=? 3) && (getMonth d <=? 5))%Z;
    [|destruct ((getMonth d >=? 6) && (getMonth d <=? 8))%Z;
      [|destruct ((getMonth d >=? 9) && (getMonth d <=? 11))%Z]];
    cbv beta iota in Hin;
    (apply in_app_or in Hin; destruct Hin as [Hsolar|Hin];
     [ destruct Hsolar as [<-|[]];
       qcompare (lifespanImpact sa) (-1); [|qcompare 0.5 (lifespanImpact sa)];
       cbn [impact]
     | repeat match type of Hin with
         | In _ (_ ++ _) => apply in_app_or in Hin; destruct Hin as [Hin|Hin]
         | In _ (_ :: _) => destruct Hin as [Hin|Hin]
         | In _ [] => destruct Hin
         | In _ (if ?c then _ else _) => destruct c
         | _ = f => subst f; cbn [impact]
         end;
       repeat match goal with
         | |- context [if ?c then _ else _] => destruct c
         end; lia ]).
  all: match goal with
       | |- context [Math_round (Qabs ?x * 12)] =>
           destruct (@Math_round_between (Qabs x * 12) 0 87);
           [qcases; qlra | qcases; qlra | lia]
       | |- context [Math_round (?x * 15)] =>
           destruct (@Math_round_between (x * 15) 0 15); [qlra | qlra | lia]
       | |- context [Math_round (?x * 5)] =>
           destruct (@Math_round_between (x * 5) (-5) 3); [qlra | qlra | lia]
       end.
Qed.

Lemma calculateMentalHealthRisk_values (s : Z) :
  (calculateMentalHealthRisk s == 1.0 \/ calculateMentalHealthRisk s == 1.3) /\
  (calculateMentalHealthRisk s >? 1.3) = false.
Proof.
  unfold calculateMentalHealthRisk. cbv zeta.
  destruct (s >? 90)%Z; split; try reflexivity; [right|left]; reflexivity.
Qed.

(** One run of the engine on a valid date: what it computes from, what it
    returns, and what it leaves in the world. *)
Lemma calculateOptimalTiming_run (loc : LocationData) (d : Date) (w : World) :
  valid_date d ->
  exists sa sr recs r,
    (-7.2 <= lifespanImpact sa <= 1 /\ 5 <= uvRadiationLevel sa <= 11) /\
    calculateSeasonalRisk d loc = Normal sr /\
    recommendationsOf sa sr loc d
      (calculateMentalHealthRisk (sunspotNumber sa))
      (overallScoreOf sa sr loc) = Normal recs /\
    calculateOptimalTiming loc d w =
      Normal (r, mkWorld (draws w) (S (S (S (consumed w))))
                         (d :: engineCalls w)) /\
    birthDate r = d /\
    overallScore r = overallScoreOf sa sr loc /\
    riskFactors r = riskFactorsOf sa sr loc d /\
    recommendations r = Array_sort byPriority (Set_spread recs) /\
    SolarData.mentalHealthMultiplier (solarData r) =
      calculateMentalHealthRisk (sunspotNumber sa) /\
    seasonalData r =
      SeasonalData.mk (vitaminDScore sr) (infectiousRisk sr)
                      (relativeAgeAdvantage sr) (overallSeasonalScore sr).
Proof.
  intro Hd.
  destruct (calculateSolarActivityData_spec
              (mkWorld (draws w) (consumed w) (d :: engineCalls w)) Hd)
    as (sa & Hsa & _ & Hli & Huv).
  destruct (calculateSeasonalRisk_spec loc Hd) as (sr & Hsr & _).
  destruct (recommendationsOf_total sa sr loc
              (calculateMentalHealthRisk (sunspotNumber sa))
              (overallScoreOf sa sr loc) Hd) as (recs & Hrecs).
  exists sa, sr, recs. eexists.
  split; [now split|]. split; [exact Hsr|]. split; [exact Hrecs|].
  split.
  - unfold calculateOptimalTiming.
    rewrite (bind_step (enterEngine d) _ w (a := tt)
               (w1 := mkWorld (draws w) (consumed w) (d :: engineCalls w)))
      by reflexivity.
    rewrite (bind_step _ _ _ Hsa). cbv zeta.
    rewrite (bind_lift_step _ _ Hsr).
    rewrite (bind_lift_step _ _ Hrecs).
    unfold ret. cbn [draws consumed engineCalls]. reflexivity.
  - cbn. repeat split; reflexivity.
Qed.

End Engine.

(* ================================================================== *)
(** ** The range analysis *)
(* ================================================================== *)

Section Range.

Context {M : MathLib}.

Lemma fromTo_length (lo hi : Z) :
  List.length (fromTo lo hi) = Z.to_nat (hi - lo + 1).
Proof. unfold fromTo. now rewrite length_map, length_seq. Qed.

(** The loop of [analyzeTimingRange]: one run of the engine per index, in
    order. *)
Lemma forEach_engine (loc : LocationData) (d : Date) (indices : list Z)
    (w : World) :
  valid_date d ->
  exists results w',
    forEach indices
      (fun i => calculateOptimalTiming loc (addMonths d i)) w
    = Normal (results, w') /\
    map birthDate results = map (addMonths d) indices /\
    draws w' = draws w /\
    engineCalls w' = rev (map (addMonths d) indices) ++ engineCalls w.
Proof.
  intro Hd. revert w. induction indices as [|i rest IH]; intro w.
  - exists [], w. repeat split.
  - destruct (calculateOptimalTiming_run loc w (addMonths_valid i Hd))
      as (sa & sr & recs & r & _ & _ & _ & Hrun & Hdate & _).
    destruct (IH (mkWorld (draws w) (S (S (S (consumed w))))
                          (addMonths d i :: engineCalls w)))
      as (results & w' & Hrest & Hdates & Hdraws & Hcalls).
    exists (r :: results), w'. cbn [forEach].
    rewrite (bind_step _ _ _ Hrun), (bind_step _ _ _ Hrest).
    unfold ret. split; [reflexivity|].
    cbn [map rev]. rewrite Hdate, Hdates, Hdraws, Hcalls.
    cbn [draws engineCalls]. rewrite <- app_assoc. repeat split.
Qed.

Lemma quartile_count (n : nat) :
  (1 <= n)%nat ->
  (0 <= Math_ceil (Z.of_nat n * 0.25) <= Z.of_nat n)%Z.
Proof.
  intro Hn. unfold Math_ceil.
  pose proof (Qle_ceiling (Z.of_nat n * 0.25)) as Hle.
  pose proof (Qceiling_lt (Z.of_nat n * 0.25)) as Hlt.
  set (c := Qceiling (Z.of_nat n * 0.25)) in *. clearbody c.
  assert (Hpos : (1 <= Z.of_nat n)%Z) by lia. in_Q Hpos.
  split.
  - assert (H : (-1 < c)%Z); [|lia].
    rewrite Zlt_Qlt. qlra.
  - assert (H : (c - 1 < Z.of_nat n)%Z); [|lia].
    rewrite Zlt_Qlt. qlra.
Qed.

(** One run of the range analysis over [rangeMonths = N]. *)
Lemma analyzeTimingRange_run (loc : LocationData) (d : Date) (N : Z)
    (w : World) :
  valid_date d -> (0 <= N)%Z ->
  exists ta w',
    analyzeTimingRange loc d N w = Normal (ta, w') /\
    engineCalls w' =
      d :: rev (map (addMonths d) (fromTo (- N) N)) ++ engineCalls w /\
    Z.of_nat (List.length (optimalWindows ta)) =
      Math_ceil ((2 * N + 1)%Z * 0.25).
Proof.
  intros Hd HN.
  destruct (forEach_engine loc (fromTo (- N) N) w Hd)
    as (analyses & w1 & Hloop & Hdates & Hdraws & Hcalls).
  assert (Hlen : List.length analyses = Z.to_nat (2 * N + 1)).
  { rewrite <- (length_map birthDate), Hdates, length_map, fromTo_length.
    f_equal. lia. }
  destruct (calculateOptimalTiming_run loc w1 Hd)
    as (sa & sr & recs & current & _ & _ & _ & Hrun & _).
  set (byScore := fun a b : OptimalTimingResult =>
                    (overallScore b - overallScore a)%Z).
  assert (Hsorted : List.length (Array_sort byScore analyses)
                    = Z.to_nat (2 * N + 1))
    by now rewrite Array_sort_length.
  destruct (nth_error (Array_sort byScore analyses) 0) as [best|] eqn:Hbest.
  2: { apply nth_error_None in Hbest. lia. }
  destruct (nth_error (Array_sort byScore analyses)
              (List.length (Array_sort byScore analyses) - 1))
    as [worst|] eqn:Hworst.
  2: { apply nth_error_None in Hworst. lia. }
  unfold analyzeTimingRange.
  rewrite (bind_step _ _ _ Hloop). cbv zeta. fold byScore.
  rewrite (bind_step _ _ _ Hrun).
  rewrite Hbest, Hworst. cbn [defined lift bind ret].
  eexists. eexists. split; [reflexivity|].
  cbn [engineCalls optimalWindows]. split; [now rewrite Hcalls|].
  unfold slice0. rewrite length_firstn, Hsorted, Hlen.
  pose proof (@quartile_count (Z.to_nat (2 * N + 1)) ltac:(lia)) as Hq.
  rewrite Z2Nat.id in Hq |- * by lia. lia.
Qed.

End Range.

(* ================================================================== *)
(** ** Properties of the seasonal model *)
(* ================================================================== *)

(** C1.  The [infectiousRisk] field that [calculateSeasonalRisk] returns is
    the rounded normalised risk without the upper clamp: for a birth on
    15 January 2024 in New York the field is 175, above the scale of 0 to
    100 that the code announces for it. *)
Theorem infectiousRisk_january_is_175 :
  forall M : MathLib,
  exists r,
    calculateSeasonalRisk (mkDate 2024 0 15) newYork = Normal r /\
    infectiousRisk r = 175%Z.
Proof.
  intro M. eexists. split; [reflexivity|]. reflexivity.
Qed.

(** C7.  For a date of birth month [m] and a location of latitude at most
    zero, [calculateDiseaseRisks] returns exactly the entry of the Northern
    Hemisphere table for month [((m + 5) mod 12) + 1]; this is the entry a
    northern location reads six months later. *)
Theorem southern_lookup_is_northern_offset (d : Date) (south : LocationData) :
  valid_date d ->
  (latitude south <= 0)%Q ->
  exists entry,
    getProperty NORTHERN_HEMISPHERE_DISEASE_RISKS
      ((monthOf d + 5) mod 12 + 1)%Z = Some entry /\
    calculateDiseaseRisks d south = Normal entry /\
    forall north : LocationData,
      (0 < latitude north)%Q ->
      calculateDiseaseRisks (addMonths d 6) north = Normal entry.
Proof.
  intros [Hm _] Hsouth.
  assert (Hnorth : forall north : LocationData, (0 < latitude north)%Q ->
            isNorthernHemisphere (latitude north) = true)
    by (intros; now apply northern_is_northern).
  unfold calculateDiseaseRisks, monthOf. cbv zeta.
  rewrite (southern_not_northern Hsouth).
  rewrite addMonths_month.
  destruct d as [y m dd]. cbn [getMonth] in *.
  each_month m Hm;
    (eexists; split; [reflexivity|]; split; [reflexivity|];
     intros north Hn; rewrite (Hnorth north Hn); reflexivity).
Qed.

(** Sydney, July: the entry read is the northern one of January. *)
Lemma southern_lookup_is_northern_offset_witness :
  exists entry,
    getProperty NORTHERN_HEMISPHERE_DISEASE_RISKS 1%Z = Some entry /\
    calculateDiseaseRisks (mkDate 2024 6 15) sydney = Normal entry.
Proof.
  destruct (@southern_lookup_is_northern_offset (mkDate 2024 6 15) sydney)
    as (entry & Hentry & Hcalc & _).
  - valid_date_now.
  - unfold sydney, Qle. simpl. lia.
  - exists entry. split; [exact Hentry|exact Hcalc].
Defined.

(* ================================================================== *)
(** ** Properties of the solar cycles *)
(* ================================================================== *)

(** The cycles of the model, one by one. *)
Lemma isCycle_cases (c : SolarCycleData) :
  isCycle c ->
  In c SOLAR_CYCLES \/
  exists k : Z,
    (1 <= k)%Z /\
    c = mkSolarCycleData (25 + k) (2030 + (k - 1) * 11)
          (2030 + (k - 1) * 11 + 4) (2030 + (k - 1) * 11 + 11) 140 minimum.
Proof.
  intros [Hin|[d Hd]]; [now left|].
  destruct (Z_lt_le_dec 2030 (getYear d)) as [Hy|Hy].
  - destruct (predictFutureSolarCycle_after d Hy) as (k & Hk & _ & Hp).
    right. exists k. split; [assumption|]. congruence.
  - rewrite (predictFutureSolarCycle_before d Hy) in Hd.
    injection Hd as <-. left. simpl. tauto.
Qed.

(** C4, as stated, fails: under the year-membership test of the lookup the
    year 1976 belongs both to cycle 20 and to cycle 21. *)
Lemma year_1976_in_two_cycles :
  ~ (forall (c1 c2 : SolarCycleData) (y : Z),
       isCycle c1 -> isCycle c2 ->
       yearInCycle y c1 = true -> yearInCycle y c2 = true -> c1 = c2).
Proof.
  intro H.
  specialize (H (mkSolarCycleData 20 1964 1968 1976 156 minimum)
                (mkSolarCycleData 21 1976 1979 1986 232 minimum) 1976%Z).
  assert (Habs : mkSolarCycleData 20 1964 1968 1976 156 minimum =
                 mkSolarCycleData 21 1976 1979 1986 232 minimum).
  { apply H; try reflexivity; left; simpl; tauto. }
  discriminate Habs.
Qed.

(** C4, amended.  Every cycle, tabulated or predicted, has
    [startYear < peakYear < endYear]; every year from 1964 on lies in the
    cycle the lookup returns for it; two different cycles have a year in
    common only when it is the end year of one and the start year of the
    other; and the cycles are contiguous: every cycle has a next one, the
    cycle of the next number, and each cycle ends in the year the next one
    starts. *)
Theorem solar_cycles_contiguous :
  (forall c, isCycle c -> wellShaped c) /\
  (forall d, (1964 <= getYear d)%Z ->
     exists c, getSolarCycleForDate d = Normal c /\ isCycle c /\
               yearInCycle (getYear d) c = true) /\
  (forall c1 c2 y,
     isCycle c1 -> isCycle c2 -> c1 <> c2 ->
     yearInCycle y c1 = true -> yearInCycle y c2 = true ->
     (endYear c1 = y /\ startYear c2 = y) \/
     (endYear c2 = y /\ startYear c1 = y)) /\
  (forall c, isCycle c ->
     exists next, isCycle next /\
                  cycleNumber next = (cycleNumber c + 1)%Z) /\
  (forall c next,
     isCycle c -> isCycle next ->
     cycleNumber next = (cycleNumber c + 1)%Z ->
     startYear next = endYear c).
Proof.
  split; [|split; [|split; [|split]]].
  - intros c Hc. apply isCycle_cases in Hc.
    destruct Hc as [Hin|(k & Hk & ->)].
    + now apply table_cycles_wellShaped.
    + unfold wellShaped. cbn [startYear peakYear endYear]. lia.
  - intros d Hy.
    destruct (getSolarCycleForDate_spec d) as (c & Hc & Hcycle & _ & Hin).
    exists c. auto.
  - intros c1 c2 y H1 H2 Hneq Hy1 Hy2.
    apply yearInCycle_true in Hy1. apply yearInCycle_true in Hy2.
    apply isCycle_cases in H1. apply isCycle_cases in H2.
    destruct H1 as [H1|(k1 & Hk1 & ->)], H2 as [H2|(k2 & Hk2 & ->)].
    + unfold SOLAR_CYCLES in H1, H2. cbn [In] in H1, H2.
      repeat (destruct H1 as [H1|H1]; [subst c1|]); try contradiction;
        repeat (destruct H2 as [H2|H2]; [subst c2|]); try contradiction;
        cbn [startYear endYear] in *; try lia; now contradiction Hneq.
    + apply table_cycles_wellShaped in H1. destruct H1 as [_ H1].
      cbn [startYear endYear] in *. lia.
    + apply table_cycles_wellShaped in H2. destruct H2 as [_ H2].
      cbn [startYear endYear] in *. lia.
    + destruct (Z.eq_dec k1 k2) as [->|Hk]; [now contradiction Hneq|].
      cbn [startYear endYear] in *. lia.
  - intros c Hc. apply isCycle_cases in Hc.
    destruct Hc as [Hin|(k & Hk & ->)].
    + unfold SOLAR_CYCLES in Hin. cbn [In] in Hin.
      repeat (destruct Hin as [Hin|Hin]; [subst c|]); try contradiction;
        cbn [cycleNumber].
      * exists (mkSolarCycleData 21 1976 1979 1986 232 minimum).
        split; [left; unfold SOLAR_CYCLES; cbn [In]; tauto|reflexivity].
      * exists (mkSolarCycleData 22 1986 1989 1996 212 minimum).
        split; [left; unfold SOLAR_CYCLES; cbn [In]; tauto|reflexivity].
      * exists (mkSolarCycleData 23 1996 2000 2008 180 minimum).
        split; [left; unfold SOLAR_CYCLES; cbn [In]; tauto|reflexivity].
      * exists (mkSolarCycleData 24 2008 2012 2019 146 minimum).
        split; [left; unfold SOLAR_CYCLES; cbn [In]; tauto|reflexivity].
      * exists (mkSolarCycleData 25 2019 2024 2030 137 ascending).
        split; [left; unfold SOLAR_CYCLES; cbn [In]; tauto|reflexivity].
      * exists (mkSolarCycleData 26 2030 2034 2041 140 minimum).
        split; [|reflexivity].
        right. exists (mkDate 2031 0 1). reflexivity.
    + destruct (predictFutureSolarCycle_after
                  (mkDate (2030 + 11 * (k + 1)) 0 1))
        as (k' & Hk' & Hb & Hp); [cbn [getYear getFullYear]; lia|].
      cbn [getYear getFullYear] in Hb.
      assert (k' = k + 1)%Z as -> by lia.
      eexists. split; [right; eexists; exact Hp|].
      cbn [cycleNumber]. lia.
  - intros c next Hc Hnext Hnumber.
    apply isCycle_cases in Hc. apply isCycle_cases in Hnext.
    destruct Hc as [Hc|(k & Hk & ->)], Hnext as [Hn|(k' & Hk' & ->)].
    + unfold SOLAR_CYCLES in Hc, Hn. cbn [In] in Hc, Hn.
      repeat (destruct Hc as [Hc|Hc]; [subst c|]); try contradiction;
        repeat (destruct Hn as [Hn|Hn]; [subst next|]); try contradiction;
        cbn [cycleNumber startYear endYear] in *; lia.
    + unfold SOLAR_CYCLES in Hc. cbn [In] in Hc.
      repeat (destruct Hc as [Hc|Hc]; [subst c|]); try contradiction;
        cbn [cycleNumber startYear endYear] in *; lia.
    + unfold SOLAR_CYCLES in Hn. cbn [In] in Hn.
      repeat (destruct Hn as [Hn|Hn]; [subst next|]); try contradiction;
        cbn [cycleNumber startYear endYear] in *; lia.
    + cbn [cycleNumber startYear endYear] in *.
      assert (k' = k + 1)%Z as -> by lia. lia.
Qed.

(* ================================================================== *)
(** ** Properties of the engine *)
(* ================================================================== *)

(** Run the engine on a sample input and keep the equation of the run. *)
Ltac run_sample H :=
  match goal with
  | |- context [calculateOptimalTiming ?loc ?d ?w] =>
      let r := fresh "r" in
      let w' := fresh "w'" in
      destruct (calculateOptimalTiming loc d w) as [[r w']|?] eqn:H;
      [exists r, w' | vm_compute in H; discriminate H]
  end.



(** C6.  Every risk factor the engine produces, in each of its seven
    branches, has an impact between -100 and 100, for every location of
    latitude within [-90, 90], every valid date and every noise draw. *)
Theorem riskFactor_impact_in_range {M : MathLib} (loc : LocationData)
    (d : Date) (w w' : World) (r : OptimalTimingResult) :
  valid_date d ->
  (-90 <= latitude loc <= 90)%Q ->
  calculateOptimalTiming loc d w = Normal (r, w') ->
  forall f, In f (riskFactors r) -> (-100 <= impact f <= 100)%Z.
Proof.
  intros Hd Hlat Hrun.
  destruct (calculateOptimalTiming_run loc w Hd)
    as (sa & sr & recs & r0 & [Hli Huv] & Hsr & _ & Hrun0 & _ & _ & Hfs & _).
  rewrite Hrun0 in Hrun. injection Hrun as <- _. rewrite Hfs.
  destruct (calculateSeasonalRisk_spec loc Hd)
    as (sr' & Hsr' & Hv & Hi & Hra & _).
  assert (sr' = sr) as -> by congruence.
  now apply riskFactorsOf_impacts.
Qed.

(** Longyearbyen, 15 January 2024, with draws at the top of the band. *)
Lemma riskFactor_impact_in_range_witness :
  exists r w',
    calculateOptimalTiming (M := sampleMath) svalbard midJanuary2024 loudWorld
      = Normal (r, w') /\
    forall f, In f (riskFactors r) -> (-100 <= impact f <= 100)%Z.
Proof.
  run_sample Hrun. split; [reflexivity|].
  eapply riskFactor_impact_in_range; [| |exact Hrun].
  - valid_date_now.
  - unfold svalbard, Qle. simpl. lia.
Defined.

(** C8.  On every valid date the engine runs to completion and returns a
    result, for every location and every noise draw: the month the disease
    table is read at lies in [1, 12], and the length of the cycle the
    progress is divided by is not zero. *)
Theorem calculateOptimalTiming_total {M : MathLib} (loc : LocationData)
    (d : Date) (w : World) :
  valid_date d ->
  (exists r w', calculateOptimalTiming loc d w = Normal (r, w')) /\
  (1 <= (if isNorthernHemisphere (latitude loc) then monthOf d
         else Z.rem (monthOf d + 5) 12 + 1) <= 12)%Z /\
  (exists c, getSolarCycleForDate d = Normal c /\
             (endYear c - startYear c <> 0)%Z).
Proof.
  intro Hd. split; [|split].
  - destruct (calculateOptimalTiming_run loc w Hd)
      as (sa & sr & recs & r & _ & _ & _ & Hrun & _).
    eauto.
  - destruct Hd as [Hm _]. unfold monthOf.
    destruct (isNorthernHemisphere (latitude loc)); [lia|].
    pose proof (Z.rem_bound_pos (getMonth d + 1 + 5) 12). lia.
  - destruct (getSolarCycleForDate_spec d) as (c & Hc & _ & Hlen & _).
    exists c. split; [assumption|lia].
Qed.

(** Sydney, 15 January 2024. *)
Lemma calculateOptimalTiming_total_witness :
  exists r w',
    calculateOptimalTiming (M := sampleMath) sydney midJanuary2024 sampleWorld
      = Normal (r, w').
Proof.
  refine (proj1 (calculateOptimalTiming_total (M := sampleMath) sydney
                   sampleWorld (d := midJanuary2024) _)).
  valid_date_now.
Defined.

(** C9.  Two runs of the engine on the same location and date, whatever
    their noise draws, return the same [seasonalData]. *)
Theorem seasonalData_deterministic {M : MathLib} (loc : LocationData)
    (d : Date) (w1 w2 w1' w2' : World) (r1 r2 : OptimalTimingResult) :
  valid_date d ->
  calculateOptimalTiming loc d w1 = Normal (r1, w1') ->
  calculateOptimalTiming loc d w2 = Normal (r2, w2') ->
  seasonalData r1 = seasonalData r2.
Proof.
  intros Hd H1 H2.
  destruct (calculateOptimalTiming_run loc w1 Hd)
    as (sa1 & sr1 & recs1 & r1' & _ & Hsr1 & _ & Hrun1 & _ & _ & _ & _ & _ & Hs1).
  destruct (calculateOptimalTiming_run loc w2 Hd)
    as (sa2 & sr2 & recs2 & r2' & _ & Hsr2 & _ & Hrun2 & _ & _ & _ & _ & _ & Hs2).
  rewrite Hrun1 in H1. injection H1 as <- _.
  rewrite Hrun2 in H2. injection H2 as <- _.
  rewrite Hs1, Hs2. congruence.
Qed.

(** New York, 15 July 2024, under two different sequences of draws. *)
Lemma seasonalData_deterministic_witness :
  exists r1 w1',
    calculateOptimalTiming (M := sampleMath) newYork midJuly2024 sampleWorld
      = Normal (r1, w1') /\
    exists r2 w2',
      calculateOptimalTiming (M := sampleMath) newYork midJuly2024 loudWorld
        = Normal (r2, w2') /\
      seasonalData r1 = seasonalData r2.
Proof.
  destruct (calculateOptimalTiming (M := sampleMath) newYork midJuly2024
              sampleWorld) as [[r1 w1']|?] eqn:H1;
    [|vm_compute in H1; discriminate H1].
  destruct (calculateOptimalTiming (M := sampleMath) newYork midJuly2024
              loudWorld) as [[r2 w2']|?] eqn:H2;
    [|vm_compute in H2; discriminate H2].
  exists r1, w1'. split; [reflexivity|].
  exists r2, w2'. split; [reflexivity|].
  eapply seasonalData_deterministic; [|exact H1|exact H2]. valid_date_now.
Defined.

Lemma byPriority_critical_below (a b : string) :
  isCritical a = true -> (byPriority a b < 0)%Z.
Proof.
  unfold isCritical, byPriority. intros ->. lia.
Qed.

Lemma byPriority_other_not_below (a b : string) :
  isCritical a = false -> isCritical b = true -> (0 <= byPriority a b)%Z.
Proof.
  unfold isCritical, byPriority. intros -> ->. lia.
Qed.

(** C5.  In the recommendations of every result of the engine, a string
    that contains the critical marker stands before every string that does
    not contain it. *)
Theorem critical_recommendations_first {M : MathLib} (loc : LocationData)
    (d : Date) (w w' : World) (r : OptimalTimingResult) :
  valid_date d ->
  calculateOptimalTiming loc d w = Normal (r, w') ->
  forall (i j : nat) (a b : string),
    nth_error (recommendations r) i = Some a ->
    nth_error (recommendations r) j = Some b ->
    isCritical a = true -> isCritical b = false ->
    (i < j)%nat.
Proof.
  intros Hd Hrun.
  destruct (calculateOptimalTiming_run loc w Hd)
    as (sa & sr & recs & r0 & _ & _ & _ & Hrun0 & _ & _ & _ & Hrecs & _).
  rewrite Hrun0 in Hrun. injection Hrun as <- _. rewrite Hrecs.
  intros i j a b. apply classFirst_positions.
  apply (Array_sort_classFirst byPriority isCritical
           byPriority_critical_below byPriority_other_not_below).
Qed.

(** Longyearbyen, 15 January 2024: the list opens with the critical
    vitamin D advice. *)
Lemma critical_recommendations_first_witness :
  exists r w',
    calculateOptimalTiming (M := sampleMath) svalbard midJanuary2024 loudWorld
      = Normal (r, w') /\
    forall (i j : nat) (a b : string),
      nth_error (recommendations r) i = Some a ->
      nth_error (recommendations r) j = Some b ->
      isCritical a = true -> isCritical b = false ->
      (i < j)%nat.
Proof.
  run_sample Hrun. split; [reflexivity|].
  eapply critical_recommendations_first; [|exact Hrun]. valid_date_now.
Defined.

(** C10.  The mental-health branch of the recommendations never fires:
    [calculateMentalHealthRisk] returns 1.0 or 1.3, its guard asks for more
    than 1.3, and no recommendations list the engine returns contains the
    advice of that branch. *)
Theorem mental_health_advice_never_given {M : MathLib} (loc : LocationData)
    (d : Date) (w w' : World) (r : OptimalTimingResult) :
  valid_date d ->
  calculateOptimalTiming loc d w = Normal (r, w') ->
  let multiplier := SolarData.mentalHealthMultiplier (solarData r) in
  (multiplier == 1.0 \/ multiplier == 1.3)%Q /\
  (multiplier >? 1.3)%Q = false /\
  ~ In elevatedAdvice (recommendations r).
Proof.
  intros Hd Hrun.
  destruct (calculateOptimalTiming_run loc w Hd)
    as (sa & sr & recs & r0 & _ & _ & Hadvice & Hrun0 & _ & _ & _ & Hrecs
        & Hmul & _).
  rewrite Hrun0 in Hrun. injection Hrun as <- _.
  cbv zeta. rewrite Hmul, Hrecs.
  destruct (calculateMentalHealthRisk_values (sunspotNumber sa))
    as [Hvalues Hguard].
  split; [assumption|]. split; [assumption|].
  intro Hin. apply Array_sort_In, Set_spread_In in Hin.
  revert Hin. eapply recommendationsOf_elevated; eassumption.
Qed.

(** New York, 15 July 2024, with draws at the top of the band. *)
Lemma mental_health_advice_never_given_witness :
  exists r w',
    calculateOptimalTiming (M := sampleMath) newYork midJuly2024 loudWorld
      = Normal (r, w') /\
    ~ In elevatedAdvice (recommendations r).
Proof.
  run_sample Hrun. split; [reflexivity|].
  assert (Hd : valid_date midJuly2024) by valid_date_now.
  exact (proj2 (proj2 (@mental_health_advice_never_given
                         sampleMath _ _ _ _ _ Hd Hrun))).
Defined.

(* ================================================================== *)
(** ** Further properties: sorting by a score *)
(* ================================================================== *)

Section SortingByKey.

Context {A : Type}.
Variable cmp : A -> A -> Z.

Lemma sortInsert_perm (x : A) (l : list A) :
  Permutation (x :: l) (sortInsert cmp x l).
Proof.
  induction l as [|y l IH]; simpl; [reflexivity|].
  destruct (cmp x y <? 0)%Z; [reflexivity|].
  rewrite perm_swap. now constructor.
Qed.

Lemma sort_loop_perm (l acc : list A) :
  Permutation (l ++ acc)
    (fold_left (fun sorted x => sortInsert cmp x sorted) l acc).
Proof.
  revert acc. induction l as [|x l IH]; intro acc; simpl; [reflexivity|].
  rewrite <- IH. rewrite <- sortInsert_perm.
  apply Permutation_middle.
Qed.

Lemma Array_sort_perm (l : list A) : Permutation l (Array_sort cmp l).
Proof.
  unfold Array_sort. rewrite <- sort_loop_perm. now rewrite app_nil_r.
Qed.

(** A comparator that subtracts scores: higher scores first. *)
Variable key : A -> Z.
Hypothesis cmp_key : forall a b, cmp a b = (key b - key a)%Z.



End SortingByKey.


Lemma In_firstn_In {A : Type} (n : nat) (l : list A) (x : A) :
  In x (firstn n l) -> In x l.
Proof.
  intro H. rewrite <- (firstn_skipn n l). apply in_or_app. now left.
Qed.


(* ================================================================== *)
(** ** Further properties of the seasonal model *)
(* ================================================================== *)

Lemma Normal_eq {A : Type} (a b : A) : Normal a = Normal b -> a = b.
Proof. intro H. now injection H. Qed.

Section SeasonalMore.

Context {M : MathLib}.
Local Open Scope Q_scope.

(** The entry the disease table is read at, with the ranges of its
    columns. *)
Lemma adjustedMonth_entry_bounds (d : Date) (northern : bool) :
  valid_date d ->
  exists entry,
    getProperty NORTHERN_HEMISPHERE_DISEASE_RISKS
      (if northern then (getMonth d + 1)%Z
       else (Z.rem (getMonth d + 1 + 5) 12 + 1)%Z) = Some entry /\
    0.90 <= cardiovascular entry <= 1.06 /\
    0.85 <= mentalHealth entry <= 1.08 /\
    0.94 <= autoimmune entry <= 1.10 /\
    (autoimmune entry <= 0.98 \/ 1.02 <= autoimmune entry).
Proof.
  intros [Hm _]. destruct d as [y m dd]. simpl in *.
  each_month m Hm; destruct northern;
    (eexists; split; [reflexivity|]; cbn;
     repeat split; try lra; (left; lra) || (right; lra)).
Qed.

(** X1.  Unlike [infectiousRisk], the three other normalised risks that
    [calculateSeasonalRisk] returns stay on their scale of 0 to 100:
    the cardiovascular risk is at most 80, the mental health risk at most
    92, the autoimmune risk between 20 and 100; and [birthMonth] is the
    month of the date, from 1 to 12. *)
Theorem other_normalised_risks_in_range (d : Date) (loc : LocationData)
    (r : SeasonalRiskData) :
  valid_date d ->
  calculateSeasonalRisk d loc = Normal r ->
  (0 <= cardiovascularRisk r <= 80)%Z /\
  (0 <= mentalHealthRisk r <= 92)%Z /\
  (20 <= autoImmuneRisk r <= 100)%Z /\
  birthMonth r = monthOf d /\ (1 <= birthMonth r <= 12)%Z.
Proof.
  intros Hd. unfold calculateSeasonalRisk. cbv zeta.
  destruct (calculateInfectiousRisk_spec loc Hd) as (inf & -> & _).
  destruct (calculateRelativeAgeEffect_spec (country loc) Hd) as (ra & -> & _).
  unfold calculateDiseaseRisks. cbv zeta.
  destruct (adjustedMonth_entry_bounds (isNorthernHemisphere (latitude loc)) Hd)
    as (entry & -> & Hc & Hm & Ha & Ha').
  cbn [bindC defined cardiovascular mentalHealth autoimmune].
  intro H. apply Normal_eq in H. subst r.
  cbn [cardiovascularRisk mentalHealthRisk autoImmuneRisk birthMonth].
  destruct Hd as [Hmonth _]. unfold monthOf.
  repeat split; try lia.
  1,2: apply (@Math_round_between _ 0 80); qcases; qlra.
  1,2: apply (@Math_round_between _ 0 92); qcases; qlra.
  1,2: apply (@Math_round_between _ 20 100); destruct Ha'; qcases; qlra.
Qed.

End SeasonalMore.

(** A January birth in New York. *)
Lemma other_normalised_risks_in_range_witness :
  exists r,
    calculateSeasonalRisk (M := sampleMath) midJanuary2024 newYork = Normal r /\
    (0 <= cardiovascularRisk r <= 80)%Z /\
    (0 <= mentalHealthRisk r <= 92)%Z /\
    (20 <= autoImmuneRisk r <= 100)%Z.
Proof.
  destruct (calculateSeasonalRisk (M := sampleMath) midJanuary2024 newYork)
    as [r|e] eqn:Hr; [|vm_compute in Hr; discriminate Hr].
  exists r. split; [reflexivity|].
  assert (Hd : valid_date midJanuary2024) by valid_date_now.
  destruct (@other_normalised_risks_in_range sampleMath _ _ _ Hd Hr)
    as (Hc & Hm & Ha & _).
  repeat split; tauto.
Defined.

Lemma mod_12_two_years (a : Z) :
  (0 <= a < 24)%Z ->
  (a mod 12 = if a <? 12 then a else a - 12)%Z.
Proof.
  intro Ha. destruct (a <? 12)%Z eqn:E.
  - apply Z.ltb_lt in E. apply Z.mod_small. lia.
  - apply Z.ltb_ge in E.
    replace a with (a - 12 + 1 * 12)%Z at 1 by lia.
    rewrite Z_mod_plus_full. apply Z.mod_small. lia.
Qed.

Section SeasonalMore2.

Context {M : MathLib}.
Local Open Scope Q_scope.

(** X2.  The relative age score falls by 8.33 for each month the birth month
    lies after the school cutoff month of the country, counted round the
    year: it is 100 exactly for a birth in the cutoff month and never below
    8.37, so its clamp at zero is never reached.  The cutoff is the one of
    the table's row for the country (September when the country is missing
    or is not a row).  The country is taken not to be a name every
    JavaScript object inherits, for which the table is not what answers. *)
Theorem relativeAge_by_months_after_cutoff (d : Date) (c : option string) :
  valid_date d ->
  plainCountry c ->
  exists x,
    calculateRelativeAgeEffect d c = Normal x /\
    In (cutoffOf c) [1; 4; 6; 9]%Z /\
    x == 100 - inject_Z ((monthOf d - cutoffOf c) mod 12) * 8.33 /\
    8.37 <= x <= 100 /\
    (x == 100 <-> monthOf d = cutoffOf c).
Proof.
  intros [Hm _] _. unfold calculateRelativeAgeEffect, cutoffOf, monthOf.
  cbv zeta. unfold schoolYearCutoffs. cbn [getNamed].
  set (key := match c with Some c0 => c0 | None => "US"%string end).
  repeat match goal with
  | |- context [String.eqb ?a key] => destruct (String.eqb a key)
  end;
  cbn [Z.eqb bindC defined];
  (eexists; split; [reflexivity|]; split; [cbn; tauto|]);
  match goal with
  | |- context [Z.rem ?a 12] =>
      rewrite (Z.rem_mod_nonneg a 12) by lia;
      match goal with
      | |- context [(?b mod 12)%Z] =>
          replace (b mod 12)%Z with (a mod 12)%Z
            by (replace a with (b + 1 * 12)%Z by lia;
                apply Z_mod_plus_full)
      end;
      pose proof (@mod_12_two_years a ltac:(lia)) as Hmod;
      set (k := (a mod 12)%Z) in *;
      assert (Hk : (0 <= k <= 11)%Z)
        by (destruct (a <? 12)%Z eqn:E;
            [apply Z.ltb_lt in E|apply Z.ltb_ge in E]; lia);
      assert (Hk0 : (k = 0 <-> a = 12)%Z)
        by (destruct (a <? 12)%Z eqn:E;
            [apply Z.ltb_lt in E|apply Z.ltb_ge in E]; lia);
      clearbody k; clear Hmod
  end;
  destruct Hk as [Hlo Hhi]; in_Q Hlo; in_Q Hhi;
  (split; [qcases; qlra|]); (split; [qcases; qlra|]);
  (split; intro H;
   [ assert (Hz : inject_Z k == 0) by (revert H; qcases; intros; qlra);
     assert (k = 0)%Z by (apply inject_Z_injective; exact Hz); lia
   | assert (Hz : (k = 0)%Z) by lia; subst k; qcases; qlra ]).
Qed.

End SeasonalMore2.

(** A July birth in Australia, six months after the January cutoff. *)
Lemma relativeAge_by_months_after_cutoff_witness :
  exists x,
    calculateRelativeAgeEffect midJuly2024 (Some "Australia"%string) = Normal x /\
    x == 100 - 6 * 8.33.
Proof.
  destruct (@relativeAge_by_months_after_cutoff midJuly2024
              (Some "Australia"%string)) as (x & Hx & _ & Hval & _).
  - valid_date_now.
  - cbn. intuition discriminate.
  - exists x. split; [exact Hx|]. rewrite Hval. reflexivity.
Defined.

Section Poles.

Context {M : MathLib}.
Local Open Scope Q_scope.

Lemma calculateUVIntensityByLatitude_pole (lat : Q) (month : Z) :
  90 <= Qabs lat -> calculateUVIntensityByLatitude lat month == 0.
Proof.
  intro Hpole. unfold calculateUVIntensityByLatitude. cbv zeta.
  unfold calculateDistanceFromEquator.
  set (multiplier :=
         if isNorthernHemisphere lat
         then Math_cos ((month - 6)%Z * Math_PI / 6) * 0.3 + 1
         else Math_cos ((month - 12)%Z * Math_PI / 6) * 0.3 + 1).
  clearbody multiplier.
  assert (Hbase : Qmax 0 (10 - Qabs lat / 90 * 10) == 0)
    by (apply Q.max_l; qlra).
  rewrite Hbase, Qmult_0_l.
  rewrite Q.min_r by lra. apply Q.max_l. lra.
Qed.

(** X3.  At a pole (a latitude of 90 degrees or more either way) the
    ultraviolet intensity is zero in every month, whatever the host's
    cosine, and so are the vitamin D synthesis and the vitamin D score of
    the seasonal risk. *)
Theorem no_sun_at_the_poles (d : Date) (loc : LocationData) :
  90 <= Qabs (latitude loc) ->
  (forall month, calculateUVIntensityByLatitude (latitude loc) month == 0) /\
  calculateVitaminDSynthesis loc d == 0 /\
  (forall r, calculateSeasonalRisk d loc = Normal r -> vitaminDScore r = 0%Z).
Proof.
  intro Hpole.
  assert (Huv : forall month,
             calculateUVIntensityByLatitude (latitude loc) month == 0)
    by (intro; now apply calculateUVIntensityByLatitude_pole).
  assert (Hd : calculateVitaminDSynthesis loc d == 0).
  { unfold calculateVitaminDSynthesis. cbv zeta. cbn [map fold_left].
    rewrite !Huv. reflexivity. }
  split; [exact Huv|]. split; [exact Hd|].
  intros r Hr. unfold calculateSeasonalRisk in Hr. cbv zeta in Hr.
  destruct (calculateInfectiousRisk d loc); [|discriminate Hr].
  destruct (calculateRelativeAgeEffect d (country loc)); [|discriminate Hr].
  destruct (calculateDiseaseRisks d loc); [|discriminate Hr].
  cbn [bindC] in Hr. apply Normal_eq in Hr. subst r. cbn [vitaminDScore].
  unfold Math_round.
  rewrite (Qfloor_comp _ (0 + (1 # 2))) by (now rewrite Hd).
  reflexivity.
Qed.

End Poles.


(** The North Pole in July. *)
Lemma no_sun_at_the_poles_witness :
  calculateVitaminDSynthesis (M := sampleMath) northPole midJuly2024 == 0.
Proof.
  refine (proj1 (proj2 (@no_sun_at_the_poles sampleMath midJuly2024
                          northPole _))).
  vm_compute. discriminate.
Defined.

Section BestMonths.

Context {M : MathLib}.


Lemma fromTo_In (lo hi i : Z) : In i (fromTo lo hi) <-> (lo <= i <= hi)%Z.
Proof.
  unfold fromTo. rewrite in_map_iff. split.
  - intros (k & <- & Hk). apply in_seq in Hk. lia.
  - intro H. exists (Z.to_nat (i - lo)). split; [lia|].
    apply in_seq. lia.
Qed.

Lemma fromTo_NoDup (lo hi : Z) : NoDup (fromTo lo hi).
Proof.
  unfold fromTo. apply Finite.Injective_map_NoDup; [|apply seq_NoDup].
  intros a b H. lia.
Qed.


End BestMonths.


(* ================================================================== *)
(** ** Further properties of the solar model *)
(* ================================================================== *)

Section SolarMore.

Context {M : MathLib}.
Local Open Scope Q_scope.

(** X5.  From 1965 on, the cycle the lookup returns for a date starts
    before the year of the date and ends in it or later: a year in which one
    cycle ends and the next starts is given to the cycle that ends. *)
Theorem boundary_year_goes_to_ending_cycle (d : Date) :
  (1964 < getYear d)%Z ->
  exists c,
    getSolarCycleForDate d = Normal c /\
    (startYear c < getYear d <= endYear c)%Z.
Proof.
  intro Hy. destruct (Z_lt_le_dec 2030 (getYear d)) as [Hlate|Hearly].
  - destruct (predictFutureSolarCycle_after d Hlate) as (k & Hk & Hb & Hp).
    assert (Hfind : Array_find (yearInCycle (getYear d)) SOLAR_CYCLES = None).
    { unfold Array_find, SOLAR_CYCLES, yearInCycle. cbn [find startYear endYear].
      repeat match goal with
      | |- context [(getYear d <=? ?e)%Z] =>
          replace (getYear d <=? e)%Z with false by (symmetry; apply Z.leb_gt; lia)
      end.
      rewrite !andb_false_r. reflexivity. }
    unfold getSolarCycleForDate. cbv zeta. rewrite Hfind.
    eexists. split; [exact Hp|]. cbn [startYear endYear]. lia.
  - unfold getSolarCycleForDate, Array_find, SOLAR_CYCLES. cbv zeta.
    cbn [find].
    repeat match goal with
    | |- context [yearInCycle (getYear d) ?c] =>
        let E := fresh "E" in
        destruct (yearInCycle (getYear d) c) eqn:E;
        [ apply yearInCycle_true in E | apply yearInCycle_false in E ];
        cbn [startYear endYear] in E
    end;
    try (eexists; split; [reflexivity|]; cbn [startYear endYear]; lia).
    exfalso. lia.
Qed.

(** X6.  A date before 1964 is not in any tabulated cycle, and the lookup
    answers with the last tabulated cycle (cycle 25, 2019 to 2030), which
    does not contain the year of the date. *)
Theorem dates_before_1964_get_cycle_25 (d : Date) :
  (getYear d < 1964)%Z ->
  exists c,
    getSolarCycleForDate d = Normal c /\
    cycleNumber c = 25%Z /\ startYear c = 2019%Z /\ endYear c = 2030%Z /\
    yearInCycle (getYear d) c = false.
Proof.
  intro Hy.
  assert (Hfind : Array_find (yearInCycle (getYear d)) SOLAR_CYCLES = None).
  { unfold Array_find, SOLAR_CYCLES, yearInCycle. cbn [find startYear endYear].
    repeat match goal with
    | |- context [(getYear d >=? ?e)%Z] =>
        replace (getYear d >=? e)%Z with false
          by (symmetry; rewrite Z.geb_leb; apply Z.leb_gt; lia)
    end.
    reflexivity. }
  unfold getSolarCycleForDate. cbv zeta. rewrite Hfind.
  rewrite predictFutureSolarCycle_before by lia.
  eexists. split; [reflexivity|]. cbn [cycleNumber startYear endYear].
  repeat split. apply yearInCycle_false. cbn [startYear endYear]. lia.
Qed.

(** X7.  [getCurrentSolarCycle] and [getSolarCycleForDate] agree on every
    date up to 2030.  After 2030 they part: the first keeps answering with
    cycle 25, which no longer contains the year, while the second predicts
    a later cycle. *)
Theorem current_cycle_is_stale_after_2030 (now : Date) :
  ((getYear now <= 2030)%Z ->
   getCurrentSolarCycle now = getSolarCycleForDate now) /\
  ((2030 < getYear now)%Z ->
   exists last,
     getCurrentSolarCycle now = Normal last /\
     cycleNumber last = 25%Z /\
     yearInCycle (getYear now) last = false /\
     getSolarCycleForDate now <> getCurrentSolarCycle now).
Proof.
  split; intro Hy.
  - unfold getCurrentSolarCycle, getSolarCycleForDate. cbv zeta.
    destruct (Array_find (yearInCycle (getYear now)) SOLAR_CYCLES);
      [reflexivity|].
    now rewrite predictFutureSolarCycle_before.
  - destruct (predictFutureSolarCycle_after now Hy) as (k & Hk & Hb & Hp).
    assert (Hfind : Array_find (yearInCycle (getYear now)) SOLAR_CYCLES = None).
    { unfold Array_find, SOLAR_CYCLES, yearInCycle.
      cbn [find startYear endYear].
      repeat match goal with
      | |- context [(getYear now <=? ?e)%Z] =>
          replace (getYear now <=? e)%Z with false
            by (symmetry; apply Z.leb_gt; lia)
      end.
      rewrite !andb_false_r. reflexivity. }
    unfold getCurrentSolarCycle, getSolarCycleForDate. cbv zeta.
    rewrite Hfind, Hp. cbn [SOLAR_CYCLES List.length Nat.sub nth_error defined].
    eexists. split; [reflexivity|]. cbn [cycleNumber].
    split; [reflexivity|]. split.
    + apply yearInCycle_false. cbn [startYear endYear]. lia.
    + intro H. apply Normal_eq in H.
      apply (f_equal cycleNumber) in H. cbn [cycleNumber] in H. lia.
Qed.

(** X8.  After 2030 every predicted cycle is eleven years long, peaks four
    years after its start at 140 sunspots and contains the year it is
    predicted for; the cycle predicted for eleven years later is the next
    one: its number is one higher and it starts where this one ends. *)
Theorem predicted_cycles_follow_each_other (d d' : Date) :
  (2030 < getYear d)%Z ->
  (getYear d' = getYear d + 11)%Z ->
  exists c c',
    predictFutureSolarCycle d = Normal c /\
    predictFutureSolarCycle d' = Normal c' /\
    (endYear c = startYear c + 11)%Z /\ (peakYear c = startYear c + 4)%Z /\
    maxSunspots c == 140 /\
    (startYear c < getYear d <= endYear c)%Z /\
    (cycleNumber c' = cycleNumber c + 1)%Z /\
    startYear c' = endYear c.
Proof.
  intros Hy Hy'.
  destruct (predictFutureSolarCycle_after d Hy) as (k & Hk & Hb & Hp).
  destruct (predictFutureSolarCycle_after d' ltac:(lia))
    as (k' & Hk' & Hb' & Hp').
  assert (k' = k + 1)%Z as -> by lia.
  eexists. eexists. split; [exact Hp|]. split; [exact Hp'|].
  cbn [startYear endYear peakYear cycleNumber maxSunspots].
  repeat split; try lia. 
Qed.

End SolarMore.

(** A date in 2035 and one in 2046: cycles 26 and 27. *)
Lemma predicted_cycles_follow_each_other_witness :
  exists c c',
    predictFutureSolarCycle (mkDate 2035 0 1) = Normal c /\
    predictFutureSolarCycle (mkDate 2046 0 1) = Normal c' /\
    startYear c' = endYear c.
Proof.
  destruct (@predicted_cycles_follow_each_other (mkDate 2035 0 1)
              (mkDate 2046 0 1))
    as (c & c' & Hc & Hc' & _ & _ & _ & _ & _ & Hnext).
  - cbn. lia.
  - reflexivity.
  - exists c, c'. repeat split; assumption.
Defined.

(** June 1976, the year cycle 20 ends and cycle 21 starts. *)
Lemma boundary_year_goes_to_ending_cycle_witness :
  exists c,
    getSolarCycleForDate (mkDate 1976 5 1) = Normal c /\
    (startYear c < 1976 <= endYear c)%Z.
Proof.
  apply (@boundary_year_goes_to_ending_cycle (mkDate 1976 5 1)).
  cbn. lia.
Defined.

(** A date in 1950. *)
Lemma dates_before_1964_get_cycle_25_witness :
  exists c,
    getSolarCycleForDate (mkDate 1950 0 1) = Normal c /\
    cycleNumber c = 25%Z.
Proof.
  destruct (@dates_before_1964_get_cycle_25 (mkDate 1950 0 1))
    as (c & Hc & Hn & _).
  - cbn. lia.
  - exists c. split; assumption.
Defined.

(** A date in 2035: the current cycle is still cycle 25. *)
Lemma current_cycle_is_stale_after_2030_witness :
  exists last,
    getCurrentSolarCycle (mkDate 2035 0 1) = Normal last /\
    cycleNumber last = 25%Z /\
    getSolarCycleForDate (mkDate 2035 0 1)
    <> getCurrentSolarCycle (mkDate 2035 0 1).
Proof.
  destruct (proj2 (@current_cycle_is_stale_after_2030 (mkDate 2035 0 1)))
    as (last & Hlast & Hnumber & _ & Hparted).
  - cbn. lia.
  - exists last. split; [exact Hlast|]. split; [exact Hnumber|exact Hparted].
Defined.

Section SolarSample.

Context {M : MathLib}.
Local Open Scope Q_scope.

(** The sunspot number as a function of the first draw. *)
Lemma calculateSunspotNumber_form (d : Date) :
  exists activity : Q,
    forall w,
      calculateSunspotNumber d w =
      Normal (Math_round (Qmax 0 (activity + (draws w (consumed w) - 0.5) * 20)),
              mkWorld (draws w) (S (consumed w)) (engineCalls w)).
Proof.
  destruct (getSolarCycleForDate_spec d) as (c & Hc & _ & Hlen & _).
  eexists. intro w. unfold calculateSunspotNumber.
  rewrite (bind_lift_step _ _ Hc). cbv zeta.
  rewrite (bind_lift_step _ _ (divide_Normal _ (cycle_length_nonzero c Hlen))).
  rewrite bind_random. unfold ret. reflexivity.
Qed.

Lemma Math_round_shift (x : Q) (k : Z) :
  Math_round (x + inject_Z k) = (Math_round x + k)%Z.
Proof.
  unfold Math_round.
  pose proof (Qfloor_le (x + (1 # 2))) as Hlo.
  pose proof (Qlt_floor (x + (1 # 2))) as Hhi.
  pose proof (Qfloor_le (x + inject_Z k + (1 # 2))) as Hlo'.
  pose proof (Qlt_floor (x + inject_Z k + (1 # 2))) as Hhi'.
  set (a := Qfloor (x + (1 # 2))) in *.
  set (b := Qfloor (x + inject_Z k + (1 # 2))) in *.
  clearbody a b.
  assert (H1 : (b < a + k + 1)%Z) by (rewrite Zlt_Qlt; qlra).
  assert (H2 : (a + k < b + 1)%Z) by (rewrite Zlt_Qlt; qlra).
  lia.
Qed.

(** X9.  Two evaluations of the sunspot number of the same date differ only
    through their noise draw: with both draws between 0 and 1 the two
    numbers are at most 20 apart, and the larger draw never gives the
    smaller number. *)
Theorem sunspot_noise_band (d : Date) (w1 w2 w1' w2' : World) (s1 s2 : Z) :
  0 <= draws w1 (consumed w1) <= 1 ->
  0 <= draws w2 (consumed w2) <= 1 ->
  calculateSunspotNumber d w1 = Normal (s1, w1') ->
  calculateSunspotNumber d w2 = Normal (s2, w2') ->
  (Z.abs (s1 - s2) <= 20)%Z /\
  (draws w1 (consumed w1) <= draws w2 (consumed w2) -> (s1 <= s2)%Z).
Proof.
  intros Hr1 Hr2 H1 H2.
  destruct (calculateSunspotNumber_form d) as (activity & Hform).
  rewrite Hform in H1, H2.
  apply Normal_eq in H1. apply Normal_eq in H2.
  injection H1 as <- _. injection H2 as <- _.
  set (r1 := draws w1 (consumed w1)) in *.
  set (r2 := draws w2 (consumed w2)) in *. clearbody r1 r2.
  assert (Hband : forall a b, 0 <= a <= 1 -> 0 <= b <= 1 ->
            (Math_round (Qmax 0 (activity + (a - 0.5) * 20))
             <= Math_round (Qmax 0 (activity + (b - 0.5) * 20)) + 20)%Z).
  { intros a b Ha Hb. rewrite <- Math_round_shift.
    apply Math_round_mono. qcases; qlra. }
  split.
  - pose proof (Hband r1 r2 Hr1 Hr2). pose proof (Hband r2 r1 Hr2 Hr1). lia.
  - intro Hle. apply Math_round_mono. qcases; qlra.
Qed.

(** X10.  The ultraviolet level derived from the sunspot number never
    decreases when the sunspot number grows: it starts at 5 without
    sunspots, and stays at its cap of 11 from 800 sunspots on. *)
Theorem calculateUVFromSolarActivity_monotone (s1 s2 : Z) :
  (0 <= s1 <= s2)%Z ->
  calculateUVFromSolarActivity 0 == 5 /\
  calculateUVFromSolarActivity s1 <= calculateUVFromSolarActivity s2 /\
  calculateUVFromSolarActivity s2 <= 11 /\
  calculateUVFromSolarActivity (Z.max 800 s2) == 11.
Proof.
  intros [H0 H]. split; [reflexivity|].
  assert (Hcap : (800 <= Z.max 800 s2)%Z) by lia.
  set (top := Z.max 800 s2) in *. clearbody top.
  in_Q H0. in_Q H. in_Q Hcap.
  unfold calculateUVFromSolarActivity. cbv zeta.
  repeat split; qcases; qlra.
Qed.

(** What [calculateSolarActivityData] returns, field by field. *)
Lemma calculateSolarActivityData_fields (d : Date) (w : World) :
  valid_date d ->
  exists sa s c,
    calculateSolarActivityData d w =
      Normal (sa, mkWorld (draws w) (S (S (S (consumed w)))) (engineCalls w)) /\
    calculateSunspotNumber d w =
      Normal (s, mkWorld (draws w) (S (consumed w)) (engineCalls w)) /\
    getSolarCycleForDate d = Normal c /\
    (0 <= s)%Z /\
    date sa = d /\ sunspotNumber sa = s /\
    solarFluxIndex sa =
      Qmax 70 (s + 70 + draws w (S (consumed w)) * 30) /\
    geomagneticIndex sa =
      Qmax 0 (Qmin 9 (s / 30 + draws w (S (S (consumed w))) * 2)) /\
    cosmicRayIntensity sa = Qmax 0 (100 - (s / 2)) /\
    uvRadiationLevel sa = calculateUVFromSolarActivity s /\
    cyclePhase sa =
      (let cycleProgress :=
         (getYear d - startYear c)%Z / (endYear c - startYear c)%Z in
       if cycleProgress <? 0.2 then "minimum"%string
       else if cycleProgress <? 0.5 then "ascending"%string
       else if cycleProgress <? 0.7 then "maximum"%string
       else "descending"%string).
Proof.
  intros [Hm _].
  destruct (calculateSunspotNumber_spec d w) as (s & Hs & Hs0).
  destruct (getSolarCycleForDate_spec d) as (c & Hc & _ & Hlen & _).
  eexists. exists s, c.
  split.
  - unfold calculateSolarActivityData.
    rewrite (bind_step _ _ _ Hs).
    rewrite (bind_lift_step _ _ Hc). cbv zeta.
    rewrite (bind_lift_step _ _ (divide_Normal _ (cycle_length_nonzero c Hlen))).
    rewrite !bind_random. unfold ret. cbn [draws consumed engineCalls].
    reflexivity.
  - cbn. repeat split; auto.
Qed.

(** X11.  Every solar sample keeps its ranges, for every valid date, every
    draw and every host: the sunspot number is not negative, the solar
    flux index is at least 70, the geomagnetic index lies in [0, 9], the
    cosmic ray intensity in [0, 100], the ultraviolet level in [5, 11], the
    lifespan impact in [-7.2, 1], and three draws are consumed. *)
Theorem solar_sample_ranges (d : Date) (w w' : World)
    (sa : SolarActivityData) :
  valid_date d ->
  calculateSolarActivityData d w = Normal (sa, w') ->
  (0 <= sunspotNumber sa)%Z /\
  70 <= solarFluxIndex sa /\
  0 <= geomagneticIndex sa <= 9 /\
  0 <= cosmicRayIntensity sa <= 100 /\
  5 <= uvRadiationLevel sa <= 11 /\
  -7.2 <= lifespanImpact sa <= 1 /\
  consumed w' = (consumed w + 3)%nat.
Proof.
  intros Hd Hrun.
  destruct (calculateSolarActivityData_fields w Hd)
    as (sa' & s & c & Hrun' & _ & _ & Hs & _ & Hsun & Hflux & Hgeo & Hcos
        & Huv & _).
  destruct (calculateSolarActivityData_spec w Hd)
    as (sa'' & Hrun'' & _ & Hli & _).
  rewrite Hrun' in Hrun''. apply Normal_eq in Hrun''.
  injection Hrun'' as <-.
  rewrite Hrun' in Hrun. apply Normal_eq in Hrun.
  injection Hrun as <- <-.
  rewrite Hsun, Hflux, Hgeo, Hcos, Huv. cbn [consumed].
  pose proof (calculateUVFromSolarActivity_range Hs) as Huvr.
  pose proof Hs as HsQ. in_Q HsQ.
  repeat split; try tauto; try lia; try (qcases; qlra).
Qed.

End SolarSample.

(** New York's date in July 2024 under two sequences of draws. *)
Lemma sunspot_noise_band_witness :
  exists s1 s2 w1' w2',
    calculateSunspotNumber (M := sampleMath) midJuly2024 sampleWorld
      = Normal (s1, w1') /\
    calculateSunspotNumber (M := sampleMath) midJuly2024 loudWorld
      = Normal (s2, w2') /\
    (Z.abs (s1 - s2) <= 20)%Z.
Proof.
  destruct (calculateSunspotNumber (M := sampleMath) midJuly2024 sampleWorld)
    as [[s1 w1']|?] eqn:H1; [|vm_compute in H1; discriminate H1].
  destruct (calculateSunspotNumber (M := sampleMath) midJuly2024 loudWorld)
    as [[s2 w2']|?] eqn:H2; [|vm_compute in H2; discriminate H2].
  exists s1, s2, w1', w2'. split; [reflexivity|]. split; [reflexivity|].
  refine (proj1 (@sunspot_noise_band sampleMath midJuly2024 sampleWorld
                   loudWorld w1' w2' s1 s2 _ _ H1 H2));
    cbn; split; unfold Qle; cbn; lia.
Defined.

(** July 2024 under the sample draws. *)
Lemma solar_sample_ranges_witness :
  exists sa w',
    calculateSolarActivityData (M := sampleMath) midJuly2024 sampleWorld
      = Normal (sa, w') /\
    (0 <= sunspotNumber sa)%Z /\ consumed w' = 3%nat.
Proof.
  destruct (calculateSolarActivityData (M := sampleMath) midJuly2024
              sampleWorld) as [[sa w']|?] eqn:H;
    [|vm_compute in H; discriminate H].
  exists sa, w'. split; [reflexivity|].
  assert (Hd : valid_date midJuly2024) by valid_date_now.
  destruct (@solar_sample_ranges sampleMath _ _ _ _ Hd H)
    as (Hs & _ & _ & _ & _ & _ & Hc).
  split; [exact Hs|exact Hc].
Defined.

(** No sunspots and a hundred. *)
Lemma calculateUVFromSolarActivity_monotone_witness :
  calculateUVFromSolarActivity 0 == 5 /\
  calculateUVFromSolarActivity 0 <= calculateUVFromSolarActivity 100.
Proof.
  destruct (@calculateUVFromSolarActivity_monotone 0 100 ltac:(lia))
    as (Hzero & Hmono & _).
  split; [exact Hzero|exact Hmono].
Defined.

(* ================================================================== *)
(** ** Further properties: the cache of solar samples *)
(* ================================================================== *)

Section MapFacts.

Context {V : Type}.

Lemma Map_get_set_same (m : list (string * V)) (k : string) (v : V) :
  Map_get (Map_set m k v) k = Some v.
Proof.
  induction m as [|[k0 v0] m IH]; cbn [Map_set Map_get].
  - now rewrite String.eqb_refl.
  - destruct (String.eqb k0 k) eqn:E; cbn [Map_get]; rewrite E; auto.
Qed.

Lemma Map_get_set_other (m : list (string * V)) (k k' : string) (v : V) :
  k <> k' -> Map_get (Map_set m k v) k' = Map_get m k'.
Proof.
  intro Hne. induction m as [|[k0 v0] m IH]; cbn [Map_set Map_get].
  - destruct (String.eqb k k') eqn:E; [|reflexivity].
    apply String.eqb_eq in E. contradiction.
  - destruct (String.eqb k0 k) eqn:E; cbn [Map_get].
    + apply String.eqb_eq in E. subst k0.
      destruct (String.eqb k k') eqn:E'; [|reflexivity].
      apply String.eqb_eq in E'. contradiction.
    + now rewrite IH.
Qed.

Lemma Map_has_false (m : list (string * V)) (k : string) :
  Map_has m k = false -> Map_get m k = None.
Proof. unfold Map_has. destruct (Map_get m k); [discriminate|reflexivity]. Qed.

End MapFacts.

Section SolarCache.

Context {M : MathLib}.

(** The two ways a fetch completes normally: a hit, or a miss that computes
    the sample and stores it. *)
Lemma fetchNOAASolarData_cases (date : option Date) (now : Date)
    (s s1 : Session) (data : SolarActivityData) :
  fetchNOAASolarData date now s = Normal (data, s1) ->
  exists key,
    match date with
    | Some d => format_yyyy_MM_dd d
    | None => Normal "current"%string
    end = Normal key /\
    ((Map_get (solarDataCache s) key = Some data /\ s1 = s) \/
     (Map_get (solarDataCache s) key = None /\
      calculateSolarActivityData
        (match date with Some d => d | None => now end) (world s)
        = Normal (data, world s1) /\
      solarDataCache s1 = Map_set (solarDataCache s) key data)).
Proof.
  unfold fetchNOAASolarData.
  destruct (match date with
            | Some d => format_yyyy_MM_dd d
            | None => Normal "current"%string
            end) as [key|e]; cbn [bindC]; [|discriminate].
  intro H. exists key. split; [reflexivity|].
  destruct (Map_has (solarDataCache s) key) eqn:Hhas.
  - left. unfold Map_has in Hhas.
    destruct (Map_get (solarDataCache s) key) as [cached|];
      [|discriminate Hhas].
    cbn [defined bindC] in H. apply Normal_eq in H.
    injection H as -> ->. now split.
  - right. split; [now apply Map_has_false|].
    cbv zeta in H.
    destruct (calculateSolarActivityData
                (match date with Some d => d | None => now end) (world s))
      as [[simulated w']|e]; [|discriminate H].
    apply Normal_eq in H. injection H as -> <-. cbn. now split.
Qed.

(** X12.  A fetch that completed is memoised: fetching the same date again,
    at any later reading of the clock, returns the same sample and changes
    nothing, neither the cache nor the random draws. *)
Theorem fetchNOAASolarData_memoised (date : option Date) (now now' : Date)
    (s s1 : Session) (data : SolarActivityData) :
  fetchNOAASolarData date now s = Normal (data, s1) ->
  fetchNOAASolarData date now' s1 = Normal (data, s1).
Proof.
  intro H. apply fetchNOAASolarData_cases in H.
  destruct H as (key & Hkey & [[Hget ->]|(Hnone & _ & Hcache)]);
    unfold fetchNOAASolarData; rewrite Hkey; cbn [bindC]; unfold Map_has.
  - rewrite Hget. reflexivity.
  - rewrite Hcache, Map_get_set_same. reflexivity.
Qed.

(** X13.  Without a date the sample is cached under the one key
    ["current"]: the first such fetch computes the sample of the clock
    reading at that moment, and every later fetch without a date returns
    that same sample, whatever the clock then reads. *)
Theorem current_sample_is_frozen (now later : Date) (s s1 : Session)
    (data : SolarActivityData) :
  valid_date now ->
  Map_has (solarDataCache s) "current" = false ->
  fetchNOAASolarData None now s = Normal (data, s1) ->
  date data = now /\
  fetchNOAASolarData None later s1 = Normal (data, s1).
Proof.
  intros Hd Hmiss H. split.
  - apply fetchNOAASolarData_cases in H.
    destruct H as (key & Hkey & [[Hget _]|(_ & Hcalc & _)]).
    + apply Normal_eq in Hkey. subst key.
      apply Map_has_false in Hmiss. congruence.
    + destruct (calculateSolarActivityData_fields (world s) Hd)
        as (sa & ? & ? & Hrun & _ & _ & _ & Hdate & _).
      rewrite Hrun in Hcalc. apply Normal_eq in Hcalc.
      injection Hcalc as <- _. exact Hdate.
  - apply fetchNOAASolarData_cases in H.
    destruct H as (key & Hkey & [[Hget ->]|(_ & _ & Hcache)]);
      unfold fetchNOAASolarData; cbn [bindC]; apply Normal_eq in Hkey;
      subst key; unfold Map_has.
    + rewrite Hget. reflexivity.
    + rewrite Hcache, Map_get_set_same. reflexivity.
Qed.

(** X14.  The cache never forgets and never overwrites: a sample that was
    stored under some key before a fetch is still stored under that key
    after it, whatever date is fetched. *)
Theorem solarDataCache_keeps_entries (date : option Date) (now : Date)
    (s s1 : Session) (data : SolarActivityData) (key : string)
    (stored : SolarActivityData) :
  fetchNOAASolarData date now s = Normal (data, s1) ->
  Map_get (solarDataCache s) key = Some stored ->
  Map_get (solarDataCache s1) key = Some stored.
Proof.
  intros H Hstored. apply fetchNOAASolarData_cases in H.
  destruct H as (key' & _ & [[_ ->]|(Hnone & _ & ->)]); [assumption|].
  rewrite Map_get_set_other; [assumption|]. congruence.
Qed.

(** A fetch of what is not in the cache: the sample is computed and
    stored. *)
Lemma fetchNOAASolarData_fresh (date : option Date) (now : Date)
    (s : Session) (key : string) :
  valid_date (match date with Some d => d | None => now end) ->
  match date with
  | Some d => format_yyyy_MM_dd d
  | None => Normal "current"%string
  end = Normal key ->
  Map_has (solarDataCache s) key = false ->
  exists data w1,
    calculateSolarActivityData
      (match date with Some d => d | None => now end) (world s)
    = Normal (data, w1) /\
    consumed w1 = (consumed (world s) + 3)%nat /\
    fetchNOAASolarData date now s =
      Normal (data, mkSession w1 (Map_set (solarDataCache s) key data)).
Proof.
  intros Hd Hkey Hmiss.
  destruct (calculateSolarActivityData_spec (world s) Hd)
    as (sa & Hrun & _).
  exists sa. eexists. split; [exact Hrun|].
  split; [cbn [consumed]; lia|].
  unfold fetchNOAASolarData. rewrite Hkey. cbn [bindC].
  rewrite Hmiss. cbv zeta. rewrite Hrun. reflexivity.
Qed.

(** X15.  On a valid date that is not in the cache a fetch always
    completes: it computes the sample of that date, consumes exactly three
    draws, and stores the sample under the key of the date. *)
Theorem fetchNOAASolarData_miss (d now : Date) (s : Session) (key : string) :
  valid_date d ->
  format_yyyy_MM_dd d = Normal key ->
  Map_has (solarDataCache s) key = false ->
  exists data s1,
    fetchNOAASolarData (Some d) now s = Normal (data, s1) /\
    calculateSolarActivityData d (world s) = Normal (data, world s1) /\
    consumed (world s1) = (consumed (world s) + 3)%nat /\
    Map_get (solarDataCache s1) key = Some data.
Proof.
  intros Hd Hkey Hmiss.
  destruct (@fetchNOAASolarData_fresh (Some d) now s key Hd Hkey Hmiss)
    as (data & w1 & Hrun & Hconsumed & Hfetch).
  exists data. eexists. split; [exact Hfetch|].
  cbn [world solarDataCache]. split; [exact Hrun|].
  split; [exact Hconsumed|]. apply Map_get_set_same.
Qed.

End SolarCache.


(** Two fetches of 15 July 2024 in a fresh session. *)
Lemma fetchNOAASolarData_memoised_witness :
  exists data s1,
    fetchNOAASolarData (M := sampleMath) (Some midJuly2024) midJanuary2024
      freshSession = Normal (data, s1) /\
    fetchNOAASolarData (M := sampleMath) (Some midJuly2024) midJuly2024 s1
      = Normal (data, s1).
Proof.
  destruct (@fetchNOAASolarData_fresh sampleMath (Some midJuly2024)
              midJanuary2024 freshSession "2024-07-15")
    as (data & w1 & _ & _ & Hfetch);
    [valid_date_now|reflexivity|reflexivity|].
  exists data. eexists. split; [exact Hfetch|].
  exact (@fetchNOAASolarData_memoised sampleMath _ _ _ _ _ _ Hfetch).
Defined.

(** A fetch without a date in January, asked again in July. *)
Lemma current_sample_is_frozen_witness :
  exists data s1,
    fetchNOAASolarData (M := sampleMath) None midJanuary2024 freshSession
      = Normal (data, s1) /\
    date data = midJanuary2024 /\
    fetchNOAASolarData (M := sampleMath) None midJuly2024 s1
      = Normal (data, s1).
Proof.
  destruct (@fetchNOAASolarData_fresh sampleMath None midJanuary2024
              freshSession "current")
    as (data & w1 & _ & _ & Hfetch);
    [valid_date_now|reflexivity|reflexivity|].
  exists data. eexists. split; [exact Hfetch|].
  apply (@current_sample_is_frozen sampleMath midJanuary2024 midJuly2024
           freshSession _ data); [valid_date_now|reflexivity|exact Hfetch].
Defined.

(** A July sample stays in the cache when January is fetched. *)
Lemma solarDataCache_keeps_entries_witness :
  exists july s1 january s2,
    fetchNOAASolarData (M := sampleMath) (Some midJuly2024) midJuly2024
      freshSession = Normal (july, s1) /\
    fetchNOAASolarData (M := sampleMath) (Some midJanuary2024) midJuly2024 s1
      = Normal (january, s2) /\
    Map_get (solarDataCache s2) "2024-07-15" = Some july.
Proof.
  destruct (@fetchNOAASolarData_fresh sampleMath (Some midJuly2024)
              midJuly2024 freshSession "2024-07-15")
    as (july & w1 & _ & _ & Hfirst);
    [valid_date_now|reflexivity|reflexivity|].
  destruct (@fetchNOAASolarData_fresh sampleMath (Some midJanuary2024)
              midJuly2024
              (mkSession w1 (Map_set (solarDataCache freshSession)
                                     "2024-07-15" july))
              "2024-01-15")
    as (january & w2 & _ & _ & Hsecond);
    [valid_date_now|reflexivity|reflexivity|].
  exists july. eexists. exists january. eexists.
  split; [exact Hfirst|]. split; [exact Hsecond|].
  apply (@solarDataCache_keeps_entries sampleMath _ _ _ _ _ _ _ Hsecond).
  reflexivity.
Defined.

(** 15 July 2024 in a fresh session. *)
Lemma fetchNOAASolarData_miss_witness :
  exists data s1,
    fetchNOAASolarData (M := sampleMath) (Some midJuly2024) midJanuary2024
      freshSession = Normal (data, s1) /\
    consumed (world s1) = 3%nat /\
    Map_get (solarDataCache s1) "2024-07-15" = Some data.
Proof.
  destruct (@fetchNOAASolarData_miss sampleMath midJuly2024 midJanuary2024
              freshSession "2024-07-15")
    as (data & s1 & H & _ & Hc & Hget);
    [valid_date_now|reflexivity|reflexivity|].
  exists data, s1. split; [exact H|]. split; [exact Hc|exact Hget].
Defined.

(* ================================================================== *)
(** ** Further properties: the engine *)
(* ================================================================== *)

Lemma uniqueFrom_complete (l seen : list string) (x : string) :
  In x l -> In x (uniqueFrom seen l) \/ In x seen.
Proof.
  revert seen. induction l as [|y l IH]; intros seen Hin; [destruct Hin|].
  cbn [uniqueFrom].
  destruct (existsb (String.eqb y) seen) eqn:E.
  - destruct Hin as [->|Hin]; [|now apply IH].
    right. apply existsb_exists in E. destruct E as (z & Hz & Heq).
    apply String.eqb_eq in Heq. now subst z.
  - destruct Hin as [->|Hin]; [left; now left|].
    destruct (IH (y :: seen) Hin) as [H|[->|H]];
      [left; now right|left; now left|now right].
Qed.

Lemma Set_spread_complete (l : list string) (x : string) :
  In x l -> In x (Set_spread l).
Proof.
  intro Hin. destruct (@uniqueFrom_complete l [] x Hin) as [H|[]]. exact H.
Qed.

Lemma uniqueFrom_fresh (l seen : list string) (x : string) :
  In x (uniqueFrom seen l) -> ~ In x seen.
Proof.
  revert seen. induction l as [|y l IH]; intros seen Hin; [destruct Hin|].
  cbn [uniqueFrom] in Hin.
  destruct (existsb (String.eqb y) seen) eqn:E.
  - now apply IH.
  - destruct Hin as [<-|Hin].
    + intro Hseen.
      assert (existsb (String.eqb y) seen = true); [|congruence].
      apply existsb_exists. exists y. split; [assumption|].
      apply String.eqb_refl.
    + intro Hseen. apply (IH _ Hin). now right.
Qed.

Lemma uniqueFrom_NoDup (l seen : list string) : NoDup (uniqueFrom seen l).
Proof.
  revert seen. induction l as [|y l IH]; intro seen; cbn [uniqueFrom].
  - constructor.
  - destruct (existsb (String.eqb y) seen); [apply IH|].
    constructor; [|apply IH].
    intro Hin. apply uniqueFrom_fresh in Hin. apply Hin. now left.
Qed.

(** Refute the membership [Hin] of a string in a list of other strings. *)
Ltac absurd_member Hin :=
  repeat match type of Hin with
  | In _ (_ ++ _) => apply in_app_or in Hin; destruct Hin as [Hin|Hin]
  | In _ (_ :: _) => destruct Hin as [Hin|Hin]
  | In _ [] => destruct Hin
  | In _ (if ?c then _ else _) => destruct c
  | (if ?c then _ else _) = _ => destruct c
  | _ = _ => cbn [append] in Hin; discriminate Hin
  | In _ _ => contradiction
  end.

Section EngineResults.

Context {M : MathLib}.
Local Open Scope Q_scope.

(** The whole record one run of the engine returns on a valid date. *)
Lemma calculateOptimalTiming_result (loc : LocationData) (d : Date)
    (w : World) :
  valid_date d ->
  exists sa sr recs,
    ((0 <= sunspotNumber sa)%Z /\ -7.2 <= lifespanImpact sa <= 1 /\
     5 <= uvRadiationLevel sa <= 11) /\
    calculateSeasonalRisk d loc = Normal sr /\
    recommendationsOf sa sr loc d
      (calculateMentalHealthRisk (sunspotNumber sa))
      (overallScoreOf sa sr loc) = Normal recs /\
    calculateOptimalTiming loc d w =
      Normal
        ({| birthDate := d;
            overallScore := overallScoreOf sa sr loc;
            lifeExpectancyDelta := lifespanImpact sa;
            confidenceLevel :=
              if (overallScoreOf sa sr loc >=? 80)%Z then HIGH
              else if (overallScoreOf sa sr loc >=? 60)%Z then MEDIUM
              else LOW;
            riskFactors := riskFactorsOf sa sr loc d;
            recommendations := Array_sort byPriority (Set_spread recs);
            solarData :=
              {| SolarData.sunspotNumber := sunspotNumber sa;
                 SolarData.solarRisk := getSolarRiskLevel (sunspotNumber sa);
                 SolarData.lifespanImpact := lifespanImpact sa;
                 SolarData.mentalHealthMultiplier :=
                   calculateMentalHealthRisk (sunspotNumber sa);
                 SolarData.uvRadiationLevel := uvRadiationLevel sa |};
            seasonalData :=
              {| SeasonalData.vitaminDScore := vitaminDScore sr;
                 SeasonalData.infectiousRisk := infectiousRisk sr;
                 SeasonalData.relativeAgeAdvantage := relativeAgeAdvantage sr;
                 SeasonalData.overallSeasonalScore :=
                   overallSeasonalScore sr |} |},
         mkWorld (draws w) (S (S (S (consumed w)))) (d :: engineCalls w)) /\
    calculateSolarActivityData d
      (mkWorld (draws w) (consumed w) (d :: engineCalls w)) =
      Normal (sa, mkWorld (draws w) (S (S (S (consumed w))))
                          (d :: engineCalls w)).
Proof.
  intro Hd.
  destruct (calculateSolarActivityData_spec
              (mkWorld (draws w) (consumed w) (d :: engineCalls w)) Hd)
    as (sa & Hsa & Hs & Hli & Huv).
  destruct (calculateSeasonalRisk_spec loc Hd) as (sr & Hsr & _).
  destruct (recommendationsOf_total sa sr loc
              (calculateMentalHealthRisk (sunspotNumber sa))
              (overallScoreOf sa sr loc) Hd) as (recs & Hrecs).
  exists sa, sr, recs.
  split; [now repeat split|]. split; [exact Hsr|]. split; [exact Hrecs|].
  split; [|exact Hsa].
  unfold calculateOptimalTiming.
  rewrite (bind_step (enterEngine d) _ w (a := tt)
             (w1 := mkWorld (draws w) (consumed w) (d :: engineCalls w)))
    by reflexivity.
  rewrite (bind_step _ _ _ Hsa). cbv zeta.
  rewrite (bind_lift_step _ _ Hsr).
  rewrite (bind_lift_step _ _ Hrecs).
  unfold ret. cbn [draws consumed engineCalls]. reflexivity.
Qed.

End EngineResults.

Section Advice.

Context {M : MathLib}.
Local Open Scope Q_scope.

(** The cascade as one list: where the source pushes inside a branch, the
    list has the branch inside a segment. *)
Lemma recommendationsOf_list (sa : SolarActivityData) (sr : SeasonalRiskData)
    (loc : LocationData) (d : Date) (multiplier : Q) (score : Z)
    (monthName : string) :
  format_MMMM d = Normal monthName ->
  calculateSeasonalRisk d loc = Normal sr ->
  recommendationsOf sa sr loc d multiplier score =
  Normal
    ((if lifespanImpact sa <? -5 then
        [ ("⚠️ CRITICAL: Consider delaying conception by 12-18 months - peak solar maximum detected with significant lifespan impact (-"
             ++ toFixed1 (Qabs (lifespanImpact sa)) ++ " years)")%string ]
      else if lifespanImpact sa <? -3 then
        [ ("Consider delaying conception by 6-12 months to avoid peak solar activity (current impact: "
             ++ toFixed1 (lifespanImpact sa) ++ " years)")%string ]
      else if lifespanImpact sa >? 2 then
        [ ("Excellent solar conditions detected - optimal timing from a solar cycle perspective (+"
             ++ toFixed1 (lifespanImpact sa) ++ " years lifespan benefit)")%string ]
      else [])
     ++ (if (vitaminDScore sr <? 30)%Z then
           [ ("⚠️ CRITICAL: Start high-dose vitamin D supplementation immediately (2000-4000 IU daily) - severe deficiency risk in "
                ++ monthName)%string;
             "Schedule vitamin D blood test before conception and monitor levels throughout pregnancy"%string ]
         else if (vitaminDScore sr <? 50)%Z then
           [ "Begin vitamin D supplementation (1000-2000 IU daily) at least 3 months before conception"%string;
             ("Consider light therapy during pregnancy months if born in "
                ++ monthName)%string ]
         else if (vitaminDScore sr >? 80)%Z then
           [ "Excellent vitamin D synthesis expected - maintain outdoor activities for natural production"%string ]
         else [])
     ++ (if (infectiousRisk sr >? 80)%Z then
           [ "⚠️ High infection risk period - implement strict hygiene protocols during first trimester"%string;
             "Consider flu vaccination before conception and pertussis vaccine during pregnancy"%string;
             ("Limit exposure to crowded spaces during peak " ++ monthName
                ++ " infection season")%string ]
         else if (infectiousRisk sr >? 60)%Z then
           [ "Moderate infection risk - maintain good hygiene practices and consider immune support supplements"%string ]
         else [])
     ++ (if (relativeAgeAdvantage sr >? 70)%Z then
           [ "Excellent school entry timing - child will be among oldest in class with documented academic advantages"%string;
             "Consider early enrichment programs to maximize age-related developmental advantages"%string ]
         else if (relativeAgeAdvantage sr <? 30)%Z then
           [ ("Child will be among youngest in class - consider delayed kindergarten entry or "
                ++ dquote ++ "redshirting" ++ dquote)%string;
             "Focus on early childhood development programs to offset relative age disadvantage"%string ]
         else [])
     ++ (if Qabs (latitude loc) >? 50 then
           [ "Northern latitude detected - ensure adequate indoor air quality and humidity control during winter months"%string;
             "Consider seasonal affective disorder (SAD) prevention with light therapy during pregnancy"%string ]
         else [])
     ++ (if multiplier >? 1.3 then
           [ "Elevated mental health risks detected - establish care team including mental health specialist"%string;
             ("Create postpartum support plan with emphasis on " ++ monthName
                ++ " seasonal factors")%string ]
         else [])
     ++ ((if (vitaminDScore sr <? 50)%Z
          then ["Consider vitamin D supplementation during pregnancy and early infancy"%string]
          else [])
         ++ (if (infectiousRisk sr >? 70)%Z
             then ["Take extra precautions against infections during the first 6 months"%string]
             else [])
         ++ (if (relativeAgeAdvantage sr <? 30)%Z
             then ["Child may benefit from delayed school entry or summer programs"%string]
             else [])
         ++ (if (cardiovascularRisk sr >? 60)%Z
             then ["Monitor cardiovascular health markers throughout life"%string]
             else [])
         ++ (if (mentalHealthRisk sr >? 60)%Z
             then ["Be aware of increased mental health risks and ensure good support systems"%string]
             else []))
     ++ [ if (score >=? 80)%Z then
            "Optimal timing confirmed - proceed with standard prenatal care and preparation"%string
          else if (score >=? 60)%Z then
            "Good timing with manageable risks - focus on addressing specific risk factors identified above"%string
          else
            "Consider alternative timing or implement comprehensive risk mitigation strategies"%string ]).
Proof.
  intros Hname Hsr. unfold recommendationsOf, getSeasonalRecommendations.
  cbv zeta. rewrite Hname, Hsr. cbn [bindC].
  destruct (vitaminDScore sr <? 30)%Z;
    [|destruct (vitaminDScore sr <? 50)%Z;
      [|destruct (vitaminDScore sr >? 80)%Z]];
    (destruct (infectiousRisk sr >? 80)%Z;
     [|destruct (infectiousRisk sr >? 60)%Z]);
    destruct (multiplier >? 1.3); reflexivity.
Qed.

Lemma app_six {A : Type} (a b c d e f rest : list A) :
  a ++ b ++ c ++ d ++ e ++ f ++ rest = (a ++ b ++ c ++ d ++ e ++ f) ++ rest.
Proof. now rewrite <- !app_assoc. Qed.

(** The recommendations before deduplication end with the seasonal
    recommendations and the closing advice. *)
Lemma recommendationsOf_segments (sa : SolarActivityData)
    (sr : SeasonalRiskData) (loc : LocationData) (d : Date)
    (multiplier : Q) (score : Z) (recs : list string) :
  valid_date d ->
  calculateSeasonalRisk d loc = Normal sr ->
  recommendationsOf sa sr loc d multiplier score = Normal recs ->
  exists front seasonalAdvice,
    getSeasonalRecommendations d loc = Normal seasonalAdvice /\
    recs = front ++ seasonalAdvice ++
           [ if (score >=? 80)%Z then
               "Optimal timing confirmed - proceed with standard prenatal care and preparation"%string
             else if (score >=? 60)%Z then
               "Good timing with manageable risks - focus on addressing specific risk factors identified above"%string
             else
               "Consider alternative timing or implement comprehensive risk mitigation strategies"%string ].
Proof.
  intros Hd Hsr Hrecs.
  destruct (format_MMMM_valid Hd) as (monthName & Hname).
  rewrite (@recommendationsOf_list sa sr loc d _ _ monthName Hname Hsr)
    in Hrecs.
  apply Normal_eq in Hrecs. subst recs.
  unfold getSeasonalRecommendations. rewrite Hsr. cbn [bindC].
  rewrite app_six. eexists. eexists. split; reflexivity.
Qed.

(** The recommendations of a run, as the sorted, deduplicated cascade. *)
Lemma calculateOptimalTiming_advice (loc : LocationData) (d : Date)
    (w w' : World) (r : OptimalTimingResult) :
  valid_date d ->
  calculateOptimalTiming loc d w = Normal (r, w') ->
  exists sa sr recs,
    ((0 <= sunspotNumber sa)%Z /\ -7.2 <= lifespanImpact sa <= 1 /\
     5 <= uvRadiationLevel sa <= 11) /\
    calculateSeasonalRisk d loc = Normal sr /\
    recommendationsOf sa sr loc d
      (calculateMentalHealthRisk (sunspotNumber sa))
      (overallScoreOf sa sr loc) = Normal recs /\
    (forall text, In text (recommendations r) <-> In text recs) /\
    recommendations r = Array_sort byPriority (Set_spread recs) /\
    overallScore r = overallScoreOf sa sr loc /\
    lifeExpectancyDelta r = lifespanImpact sa /\
    confidenceLevel r =
      (if (overallScoreOf sa sr loc >=? 80)%Z then HIGH
       else if (overallScoreOf sa sr loc >=? 60)%Z then MEDIUM else LOW) /\
    riskFactors r = riskFactorsOf sa sr loc d /\
    seasonalData r =
      SeasonalData.mk (vitaminDScore sr) (infectiousRisk sr)
                      (relativeAgeAdvantage sr) (overallSeasonalScore sr) /\
    solarData r =
      SolarData.mk (sunspotNumber sa) (getSolarRiskLevel (sunspotNumber sa))
                   (lifespanImpact sa)
                   (calculateMentalHealthRisk (sunspotNumber sa))
                   (uvRadiationLevel sa) /\
    calculateSolarActivityData d
      (mkWorld (draws w) (consumed w) (d :: engineCalls w)) =
      Normal (sa, mkWorld (draws w) (S (S (S (consumed w))))
                          (d :: engineCalls w)).
Proof.
  intros Hd Hrun.
  destruct (calculateOptimalTiming_result loc w Hd)
    as (sa & sr & recs & Hsa & Hsr & Hrecs & Hrun0 & Hsolar).
  rewrite Hrun0 in Hrun. apply Normal_eq in Hrun.
  injection Hrun as <- _.
  exists sa, sr, recs. cbn [recommendations overallScore lifeExpectancyDelta
    confidenceLevel riskFactors seasonalData solarData].
  repeat (split; [assumption || reflexivity|]).
  split; [|repeat split; (reflexivity || exact Hsolar)].
  intro text. rewrite Array_sort_In. split.
  - apply Set_spread_In.
  - apply Set_spread_complete.
Qed.

End Advice.

(** Split the membership [Hin] of a list of segments into its cases, with
    the member in place of [text]. *)
Ltac each_member Hin :=
  repeat match type of Hin with
  | In _ (_ ++ _) => apply in_app_or in Hin; destruct Hin as [Hin|Hin]
  | In _ (_ :: _) => destruct Hin as [Hin|Hin]
  | In _ [] => destruct Hin
  | In _ (if ?c then _ else _) => destruct c
  end.

Section EngineProperties.

Context {M : MathLib}.
Local Open Scope Q_scope.

(** X16.  The recommendations of a result never repeat a text: what the
    cascade pushes twice is kept once. *)
Theorem recommendations_never_repeat (loc : LocationData) (d : Date)
    (w w' : World) (r : OptimalTimingResult) :
  valid_date d ->
  calculateOptimalTiming loc d w = Normal (r, w') ->
  NoDup (recommendations r).
Proof.
  intros Hd Hrun.
  destruct (@calculateOptimalTiming_advice _ loc _ _ _ _ Hd Hrun)
    as (sa & sr & recs & _ & _ & _ & _ & -> & _).
  eapply Permutation_NoDup; [apply Array_sort_perm|].
  apply uniqueFrom_NoDup.
Qed.


(** X18.  The advice of excellent solar conditions is never given: it asks
    for a lifespan impact above 2, and the impact of a solar sample is at
    most 1. *)
Theorem excellent_solar_advice_never_given (loc : LocationData) (d : Date)
    (w w' : World) (r : OptimalTimingResult) :
  valid_date d ->
  calculateOptimalTiming loc d w = Normal (r, w') ->
  (lifeExpectancyDelta r <= 1) /\
  forall text, In text (recommendations r) ->
    String.prefix "Excellent solar conditions detected" text = false.
Proof.
  intros Hd Hrun.
  destruct (@calculateOptimalTiming_advice _ loc _ _ _ _ Hd Hrun)
    as (sa & sr & recs & (_ & Hli & _) & Hsr & Hrecs & Hin & _ & _ & -> & _).
  split; [apply Hli|].
  destruct (format_MMMM_valid Hd) as (monthName & Hname).
  rewrite (@recommendationsOf_list _ sa sr loc d _ _ monthName Hname Hsr) in Hrecs.
  apply Normal_eq in Hrecs. intros text Hmember.
  apply Hin in Hmember. clear Hin. subst recs.
  assert (Hguard : (lifespanImpact sa >? 2) = false)
    by (apply Qlt_bool_false; lra).
  rewrite Hguard in Hmember.
  each_member Hmember; subst text;
    repeat match goal with
    | |- context [if ?c then _ else _] => destruct c
    end; reflexivity.
Qed.

(** X19.  The advice for northern latitudes goes by the distance from the
    equator alone: it is given exactly when the latitude is more than 50
    degrees away from it, to the north or to the south. *)
Theorem northern_advice_by_distance (loc : LocationData) (d : Date)
    (w w' : World) (r : OptimalTimingResult) :
  valid_date d ->
  calculateOptimalTiming loc d w = Normal (r, w') ->
  (In "Northern latitude detected - ensure adequate indoor air quality and humidity control during winter months"%string
      (recommendations r)
   <-> (50 < latitude loc \/ latitude loc < -50)).
Proof.
  intros Hd Hrun.
  destruct (@calculateOptimalTiming_advice _ loc _ _ _ _ Hd Hrun)
    as (sa & sr & recs & _ & Hsr & Hrecs & Hin & _).
  destruct (format_MMMM_valid Hd) as (monthName & Hname).
  rewrite (@recommendationsOf_list _ sa sr loc d _ _ monthName Hname Hsr) in Hrecs.
  apply Normal_eq in Hrecs. rewrite Hin. clear Hin. subst recs.
  destruct (Qlt_bool_spec 50 (Qabs (latitude loc))) as [Hfar|Hnear].
  - split.
    + intros _. destruct (Qabs_spec (latitude loc)) as [[_ Habs]|[_ Habs]];
        rewrite Habs in Hfar; [left|right]; lra.
    + intros _. do 4 (apply in_or_app; right). apply in_or_app. left.
      left. reflexivity.
  - split; [intro Hmember; exfalso; absurd_member Hmember|].
    intro Hside.
    destruct (Qabs_spec (latitude loc)) as [[? Habs]|[? Habs]];
      rewrite Habs in Hnear; destruct Hside; lra.
Qed.

(** X20.  Every recommendation of [getSeasonalRecommendations] for the date
    and location is among the recommendations of the engine. *)
Theorem seasonal_recommendations_included (loc : LocationData) (d : Date)
    (w w' : World) (r : OptimalTimingResult) (seasonalAdvice : list string) :
  valid_date d ->
  calculateOptimalTiming loc d w = Normal (r, w') ->
  getSeasonalRecommendations d loc = Normal seasonalAdvice ->
  forall text, In text seasonalAdvice -> In text (recommendations r).
Proof.
  intros Hd Hrun Hseasonal text Hmember.
  destruct (@calculateOptimalTiming_advice _ loc _ _ _ _ Hd Hrun)
    as (sa & sr & recs & _ & Hsr & Hrecs & Hin & _).
  destruct (@recommendationsOf_segments _ _ _ _ _ _ _ _ Hd Hsr Hrecs)
    as (front & srecs & Hsrecs & ->).
  rewrite Hseasonal in Hsrecs. apply Normal_eq in Hsrecs. subst srecs.
  apply Hin. apply in_or_app. right. apply in_or_app. now left.
Qed.

End EngineProperties.

Section RiskFactorProperties.

Context {M : MathLib}.
Local Open Scope Q_scope.

(** X21.  Severity measures the size of an impact, not its direction: when
    the infectious risk of the birth month is at most 19 of 100, the risk
    factors contain the benefit [Low Infection Period] with an impact of +19
    to +24 and severity HIGH, so the factors of severity HIGH, which the
    report counts as high-risk factors, include a benefit. *)
Theorem low_infection_benefit_has_high_severity (loc : LocationData)
    (d : Date) (w w' : World) (r : OptimalTimingResult) :
  valid_date d ->
  calculateOptimalTiming loc d w = Normal (r, w') ->
  (SeasonalData.infectiousRisk (seasonalData r) <= 19)%Z ->
  (exists f,
     In f (riskFactors r) /\
     name f = "Low Infection Period"%string /\
     severity f = HIGH /\
     (19 <= impact f <= 24)%Z) /\
  (1 <= List.length (filter (fun f => isHIGH (severity f)) (riskFactors r)))%nat.
Proof.
  intros Hd Hrun Hlow.
  destruct (@calculateOptimalTiming_advice _ loc _ _ _ _ Hd Hrun)
    as (sa & sr & recs & _ & Hsr & _ & _ & _ & _ & _ & _ & Hfactors & Hdata
        & _).
  rewrite Hdata in Hlow. cbn [SeasonalData.infectiousRisk] in Hlow.
  destruct (calculateSeasonalRisk_spec loc Hd)
    as (sr' & Hsr' & _ & [Hrisk _] & _).
  rewrite Hsr in Hsr'. apply Normal_eq in Hsr'. subst sr'.
  assert (Hfactor :
    exists f, In f (riskFactors r) /\
              name f = "Low Infection Period"%string /\
              severity f = HIGH /\ (19 <= impact f <= 24)%Z).
  { rewrite Hfactors. unfold riskFactorsOf. cbv zeta.
    set (infectionImpact := Math_round ((infectiousRisk sr - 50)%Z * 0.6)).
    assert (Himpact : (-24 <= infectionImpact <= -19)%Z).
    { split.
      - change (-24)%Z with (Math_round (-24)). apply Math_round_mono.
        in_Q Hrisk. qlra.
      - change (-19)%Z with (Math_round (-18.6)). apply Math_round_mono.
        in_Q Hlow. qlra. }
    assert (E1 : (Z.abs infectionImpact >? 3)%Z = true)
      by (apply Z.gtb_lt; lia).
    assert (E2 : (infectionImpact >? 0)%Z = false)
      by (rewrite Z.gtb_ltb; apply Z.ltb_ge; lia).
    assert (E3 : (Z.abs infectionImpact >? 18)%Z = true)
      by (apply Z.gtb_lt; lia).
    rewrite E1, E2, E3.
    destruct ((getMonth d >=? 3) && (getMonth d <=? 5))%Z;
      [|destruct ((getMonth d >=? 6) && (getMonth d <=? 8))%Z;
        [|destruct ((getMonth d >=? 9) && (getMonth d <=? 11))%Z]];
      cbv beta iota;
      (eexists; split;
       [ do 3 (apply in_or_app; right); apply in_or_app; left; left;
         reflexivity
       | cbn [name severity impact]; repeat split; lia ]). }
  split; [exact Hfactor|].
  destruct Hfactor as (f & Hin & _ & Hsev & _).
  assert (Hkept : In f (filter (fun f => isHIGH (severity f)) (riskFactors r)))
    by (apply filter_In; split; [assumption|now rewrite Hsev]).
  destruct (filter (fun f => isHIGH (severity f)) (riskFactors r));
    [destruct Hkept|cbn [List.length]; lia].
Qed.

(** X22.  The environmental factor is the last risk factor and the only one
    of its category, and it goes by the quarter of the calendar alone, in
    both hemispheres: January to March count as winter, April to June as
    spring, July to September as summer and October to December as fall. *)
Theorem environmental_factor_by_quarter (loc : LocationData) (d : Date)
    (w w' : World) (r : OptimalTimingResult) :
  valid_date d ->
  calculateOptimalTiming loc d w = Normal (r, w') ->
  exists front f,
    riskFactors r = front ++ [f] /\
    (forall g, In g front -> category g <> environmental) /\
    category f = environmental /\
    name f = nth (Z.to_nat (getMonth d / 3))
                 [ "Winter Environmental Risk"; "Spring Allergen Exposure";
                   "Summer Air Quality"; "Fall Transition Period" ]%string
                 EmptyString /\
    impact f = nth (Z.to_nat (getMonth d / 3)) [-18; -12; 8; 5]%Z 0%Z.
Proof.
  intros Hd Hrun.
  destruct (@calculateOptimalTiming_advice _ loc _ _ _ _ Hd Hrun)
    as (sa & sr & recs & _ & _ & _ & _ & _ & _ & _ & _ & Hfactors & _).
  rewrite Hfactors. clear Hfactors Hrun.
  destruct Hd as [Hm _]. destruct d as [y m dd]. cbn [getMonth] in *.
  unfold riskFactorsOf. cbv zeta. cbn [getMonth].
  each_month m Hm;
    repeat match goal with
    | |- context [(?a && ?b)%bool] =>
        let v := eval vm_compute in (a && b)%bool in
        change (a && b)%bool with v
    end;
    cbv beta iota;
    (eexists; eexists; split;
     [ rewrite !app_assoc; reflexivity
     | split;
       [ intros g Hin; each_member Hin; subst g;
         repeat match goal with
         | |- context [if ?c then _ else _] => destruct c
         end; discriminate
       | repeat split; reflexivity ] ]).
Qed.

End RiskFactorProperties.

(** New York, 15 July 2024. *)
Lemma recommendations_never_repeat_witness :
  exists r w',
    calculateOptimalTiming (M := sampleMath) newYork midJuly2024 sampleWorld
      = Normal (r, w') /\
    NoDup (recommendations r).
Proof.
  assert (Hd : valid_date midJuly2024) by valid_date_now.
  destruct (@calculateOptimalTiming_run sampleMath newYork midJuly2024
              sampleWorld Hd) as (sa & sr & recs & r & _ & _ & _ & Hrun & _).
  exists r. eexists. split; [exact Hrun|].
  exact (@recommendations_never_repeat sampleMath _ _ _ _ _ Hd Hrun).
Defined.


(** New York, 15 January 2024. *)
Lemma excellent_solar_advice_never_given_witness :
  exists r w',
    calculateOptimalTiming (M := sampleMath) newYork midJanuary2024
      sampleWorld = Normal (r, w') /\
    (lifeExpectancyDelta r <= 1)%Q.
Proof.
  assert (Hd : valid_date midJanuary2024) by valid_date_now.
  destruct (@calculateOptimalTiming_run sampleMath newYork midJanuary2024
              sampleWorld Hd) as (sa & sr & recs & r & _ & _ & _ & Hrun & _).
  exists r. eexists. split; [exact Hrun|].
  exact (proj1 (@excellent_solar_advice_never_given
                  sampleMath _ _ _ _ _ Hd Hrun)).
Defined.

(** Ushuaia, in the south: the advice for northern latitudes is given. *)
Lemma northern_advice_by_distance_witness :
  exists r w',
    calculateOptimalTiming (M := sampleMath) ushuaia midJuly2024 sampleWorld
      = Normal (r, w') /\
    In "Northern latitude detected - ensure adequate indoor air quality and humidity control during winter months"%string
       (recommendations r).
Proof.
  assert (Hd : valid_date midJuly2024) by valid_date_now.
  destruct (@calculateOptimalTiming_run sampleMath ushuaia midJuly2024
              sampleWorld Hd) as (sa & sr & recs & r & _ & _ & _ & Hrun & _).
  exists r. eexists. split; [exact Hrun|].
  apply (@northern_advice_by_distance sampleMath _ _ _ _ _ Hd Hrun).
  right. reflexivity.
Defined.

(** Longyearbyen, 15 January 2024. *)
Lemma seasonal_recommendations_included_witness :
  exists r w' seasonalAdvice,
    calculateOptimalTiming (M := sampleMath) svalbard midJanuary2024
      sampleWorld = Normal (r, w') /\
    getSeasonalRecommendations (M := sampleMath) midJanuary2024 svalbard
      = Normal seasonalAdvice /\
    forall text, In text seasonalAdvice -> In text (recommendations r).
Proof.
  assert (Hd : valid_date midJanuary2024) by valid_date_now.
  destruct (@calculateOptimalTiming_run sampleMath svalbard midJanuary2024
              sampleWorld Hd) as (sa & sr & recs & r & _ & _ & _ & Hrun & _).
  destruct (@getSeasonalRecommendations_spec sampleMath midJanuary2024
              svalbard Hd) as (seasonalAdvice & Hseasonal & _).
  exists r. eexists. exists seasonalAdvice.
  split; [exact Hrun|]. split; [exact Hseasonal|].
  exact (@seasonal_recommendations_included sampleMath _ _ _ _ _ _
           Hd Hrun Hseasonal).
Defined.

(** New York, 15 July 2024: the infectious risk of July is 10. *)
Lemma low_infection_benefit_has_high_severity_witness :
  exists r w',
    calculateOptimalTiming (M := sampleMath) newYork midJuly2024 sampleWorld
      = Normal (r, w') /\
    (SeasonalData.infectiousRisk (seasonalData r) <= 19)%Z /\
    (1 <= List.length (filter (fun f => isHIGH (severity f)) (riskFactors r)))%nat.
Proof.
  assert (Hd : valid_date midJuly2024) by valid_date_now.
  destruct (@calculateOptimalTiming_run sampleMath newYork midJuly2024
              sampleWorld Hd)
    as (sa & sr & recs & r & _ & Hsr & _ & Hrun & _ & _ & _ & _ & _ & Hdata).
  exists r. eexists. split; [exact Hrun|].
  assert (Hlow : (SeasonalData.infectiousRisk (seasonalData r) <= 19)%Z).
  { rewrite Hdata. cbn [SeasonalData.infectiousRisk].
    assert (Hjuly : match calculateSeasonalRisk (M := sampleMath)
                            midJuly2024 newYork with
                    | Normal x => (infectiousRisk x <=? 19)%Z
                    | Abrupt _ => false
                    end = true) by (vm_compute; reflexivity).
    rewrite Hsr in Hjuly. now apply Z.leb_le. }
  split; [exact Hlow|].
  exact (proj2 (@low_infection_benefit_has_high_severity
                  sampleMath _ _ _ _ _ Hd Hrun Hlow)).
Defined.

(** New York, 15 January 2024. *)
Lemma environmental_factor_by_quarter_witness :
  exists r w' front f,
    calculateOptimalTiming (M := sampleMath) newYork midJanuary2024
      sampleWorld = Normal (r, w') /\
    riskFactors r = front ++ [f] /\
    name f = "Winter Environmental Risk"%string /\ impact f = (-18)%Z.
Proof.
  assert (Hd : valid_date midJanuary2024) by valid_date_now.
  destruct (@calculateOptimalTiming_run sampleMath newYork midJanuary2024
              sampleWorld Hd) as (sa & sr & recs & r & _ & _ & _ & Hrun & _).
  destruct (@environmental_factor_by_quarter sampleMath _ _ _ _ _ Hd Hrun)
    as (front & f & Hfactors & _ & _ & Hname & Himpact).
  exists r. eexists. exists front, f.
  split; [exact Hrun|]. split; [exact Hfactors|].
  split; [exact Hname|exact Himpact].
Defined.

(* ================================================================== *)
(** ** Further properties: the range analysis *)
(* ================================================================== *)



Lemma filter_none {A : Type} (p : A -> bool) (l : list A) :
  (forall a, In a l -> p a = false) -> filter p l = [].
Proof.
  induction l as [|x l IH]; intro H; [reflexivity|].
  cbn [filter]. rewrite (H x) by now left.
  apply IH. intros a Ha. apply H. now right.
Qed.

Section RangeProperties.

Context {M : MathLib}.
Local Open Scope Q_scope.

(** The comparator of the range analysis: higher scores first. *)
Local Abbreviation byScore :=
  (fun a b : OptimalTimingResult => (overallScore b - overallScore a)%Z).

(** The record the range analysis returns once its loop has run. *)
Lemma analyzeTimingRange_fields (loc : LocationData) (d : Date) (N : Z)
    (w w1 : World) (analyses : list OptimalTimingResult) :
  valid_date d ->
  forEach (fromTo (- N) N)
    (fun i => calculateOptimalTiming loc (addMonths d i)) w
  = Normal (analyses, w1) ->
  analyses <> [] ->
  exists current best worst,
    calculateOptimalTiming loc d w1 =
      Normal (current, mkWorld (draws w1) (S (S (S (consumed w1))))
                               (d :: engineCalls w1)) /\
    nth_error (Array_sort byScore analyses) 0 = Some best /\
    nth_error (Array_sort byScore analyses)
              (List.length (Array_sort byScore analyses) - 1) = Some worst /\
    analyzeTimingRange loc d N w =
      Normal
        ({| optimalWindows :=
              slice0 (Math_ceil (Z.of_nat (List.length analyses) * 0.25))
                     (Array_sort byScore analyses);
            currentTiming := current;
            bestOverallMonth := getMonth (birthDate best) + 1;
            worstOverallMonth := getMonth (birthDate worst) + 1;
            yearlyTrend :=
              if ((Z.of_nat (List.length
                     (filter (fun a => (getYear (birthDate a) =? getYear d + 1)%Z)
                             analyses)) >? 0)
                  && (Z.of_nat (List.length
                        (filter (fun a => (getYear (birthDate a) =? getYear d)%Z)
                                analyses)) >? 0))%Z
              then
                if averageScore
                     (filter (fun a => (getYear (birthDate a) =? getYear d + 1)%Z)
                             analyses)
                   >? averageScore
                        (filter (fun a => (getYear (birthDate a) =? getYear d)%Z)
                                analyses) + 5
                then improving
                else if averageScore
                          (filter (fun a => (getYear (birthDate a) =? getYear d + 1)%Z)
                                  analyses)
                        <? averageScore
                             (filter (fun a => (getYear (birthDate a) =? getYear d)%Z)
                                     analyses) - 5
                then declining
                else stable
              else stable |},
         mkWorld (draws w1) (S (S (S (consumed w1)))) (d :: engineCalls w1)).
Proof.
  intros Hd Hloop Hsome.
  destruct (calculateOptimalTiming_run loc w1 Hd)
    as (sa & sr & recs & current & _ & _ & _ & Hrun & _).
  assert (Hlen : List.length (Array_sort byScore analyses)
                 = List.length analyses) by apply Array_sort_length.
  assert (Hpos : (1 <= List.length analyses)%nat).
  { destruct analyses; [contradiction|cbn; lia]. }
  destruct (nth_error (Array_sort byScore analyses) 0) as [best|] eqn:Hbest.
  2: { apply nth_error_None in Hbest. lia. }
  destruct (nth_error (Array_sort byScore analyses)
              (List.length (Array_sort byScore analyses) - 1))
    as [worst|] eqn:Hworst.
  2: { apply nth_error_None in Hworst. lia. }
  exists current, best, worst.
  split; [exact Hrun|]. split; [reflexivity|]. split; [reflexivity|].
  unfold analyzeTimingRange.
  rewrite (bind_step _ _ _ Hloop). cbv zeta.
  rewrite (bind_step _ _ _ Hrun).
  rewrite Hbest, Hworst. cbn [defined lift bind ret]. reflexivity.
Qed.

(** The loop of the range analysis, for a range that is not negative. *)
Lemma analyses_of_range (loc : LocationData) (d : Date) (N : Z)
    (w w1 : World) (analyses : list OptimalTimingResult) :
  valid_date d -> (0 <= N)%Z ->
  forEach (fromTo (- N) N)
    (fun i => calculateOptimalTiming loc (addMonths d i)) w
  = Normal (analyses, w1) ->
  map birthDate analyses = map (addMonths d) (fromTo (- N) N) /\
  List.length analyses = Z.to_nat (2 * N + 1) /\
  analyses <> [] /\
  draws w1 = draws w /\
  engineCalls w1 = rev (map (addMonths d) (fromTo (- N) N)) ++ engineCalls w.
Proof.
  intros Hd HN Hloop.
  destruct (forEach_engine loc (fromTo (- N) N) w Hd)
    as (analyses' & w1' & Hloop' & Hdates & Hdraws & Hcalls).
  rewrite Hloop in Hloop'. apply Normal_eq in Hloop'.
  injection Hloop' as <- <-.
  assert (Hlen : List.length analyses = Z.to_nat (2 * N + 1)).
  { rewrite <- (length_map birthDate), Hdates, length_map, fromTo_length.
    f_equal. lia. }
  repeat split; try assumption.
  intros ->. cbn [List.length] in Hlen. lia.
Qed.

(** C3.  For [rangeMonths = N], the loop of [analyzeTimingRange] makes
    exactly [2N+1] monthly evaluations of the engine, one for each month
    from [N] months before the centre date to [N] months after it, in that
    order; the optimal windows are taken from these analyses, and their
    list has length exactly [ceil((2N+1) * 0.25)].  The evaluation of the
    centre date that the return statement makes for [currentTiming] comes
    after the monthly ones and is not one of them. *)
Theorem analyzeTimingRange_evaluations (loc : LocationData) (d : Date)
    (N : Z) (w : World) :
  valid_date d -> (0 <= N)%Z ->
  exists analyses w1 ta w',
    forEach (fromTo (- N) N)
      (fun i => calculateOptimalTiming loc (addMonths d i)) w
    = Normal (analyses, w1) /\
    analyzeTimingRange loc d N w = Normal (ta, w') /\
    Z.of_nat (List.length analyses) = (2 * N + 1)%Z /\
    map birthDate analyses = map (addMonths d) (fromTo (- N) N) /\
    engineCalls w1 =
      rev (map (addMonths d) (fromTo (- N) N)) ++ engineCalls w /\
    evaluationsBetween w w1 = (2 * N + 1)%Z /\
    engineCalls w' = d :: engineCalls w1 /\
    (forall a, In a (optimalWindows ta) -> In a analyses) /\
    Z.of_nat (List.length (optimalWindows ta)) =
      Math_ceil ((2 * N + 1)%Z * 0.25).
Proof.
  intros Hd HN.
  destruct (forEach_engine loc (fromTo (- N) N) w Hd)
    as (analyses & w1 & Hloop & _).
  destruct (@analyses_of_range loc d N _ _ _ Hd HN Hloop)
    as (Hdates & Hlen & Hsome & _ & Hcalls).
  destruct (@analyzeTimingRange_fields loc d N _ _ _ Hd Hloop Hsome)
    as (current & best & worst & _ & _ & _ & Hrun).
  exists analyses, w1. eexists. eexists.
  split; [exact Hloop|]. split; [exact Hrun|].
  cbn [engineCalls optimalWindows].
  split; [rewrite Hlen; lia|]. split; [exact Hdates|].
  split; [exact Hcalls|]. split.
  { unfold evaluationsBetween. rewrite Hcalls.
    rewrite length_app, length_rev, length_map, fromTo_length. lia. }
  split; [reflexivity|]. split.
  - intros a Ha. unfold slice0 in Ha. apply In_firstn_In in Ha.
    now apply Array_sort_In in Ha.
  - unfold slice0. rewrite length_firstn, Array_sort_length, Hlen.
    pose proof (@quartile_count (Z.to_nat (2 * N + 1)) ltac:(lia)) as Hq.
    rewrite Z2Nat.id in Hq |- * by lia. lia.
Qed.


(** X24.  A negative range is an error: the loop runs no evaluation, the
    engine is evaluated once for the centre, and reading the best analysis
    of the empty list raises a [TypeError]. *)
Theorem negative_range_raises_TypeError (loc : LocationData) (d : Date)
    (N : Z) (w : World) :
  valid_date d -> (N < 0)%Z ->
  forEach (fromTo (- N) N)
    (fun i => calculateOptimalTiming loc (addMonths d i)) w
  = Normal ([], w) /\
  analyzeTimingRange loc d N w = Abrupt TypeError.
Proof.
  intros Hd HN.
  assert (Hempty : fromTo (- N) N = []).
  { unfold fromTo. replace (Z.to_nat (N - - N + 1)) with 0%nat by lia.
    reflexivity. }
  assert (Hloop : forEach (fromTo (- N) N)
            (fun i => calculateOptimalTiming loc (addMonths d i)) w
          = Normal ([], w)) by (rewrite Hempty; reflexivity).
  split; [exact Hloop|].
  destruct (calculateOptimalTiming_run loc w Hd)
    as (sa & sr & recs & current & _ & _ & _ & Hrun & _).
  unfold analyzeTimingRange.
  rewrite (bind_step _ _ _ Hloop). cbv zeta.
  rewrite (bind_step _ _ _ Hrun). reflexivity.
Qed.

(** X25.  A range that ends within the year of its centre has no month of
    the next year to compare with, and its yearly trend is [stable]
    whatever the scores. *)
Theorem trend_is_stable_within_the_year (loc : LocationData) (d : Date)
    (N : Z) (w w' : World) (ta : TimingAnalysis) :
  valid_date d -> (0 <= N)%Z -> (getMonth d + N <= 11)%Z ->
  analyzeTimingRange loc d N w = Normal (ta, w') ->
  yearlyTrend ta = stable.
Proof.
  intros Hd HN Hend Hrun.
  destruct (forEach_engine loc (fromTo (- N) N) w Hd)
    as (analyses & w1 & Hloop & _).
  destruct (@analyses_of_range loc d N _ _ _ Hd HN Hloop)
    as (Hdates & _ & Hsome & _).
  destruct (@analyzeTimingRange_fields loc d N _ _ _ Hd Hloop Hsome)
    as (current & best & worst & _ & _ & _ & Hrun').
  rewrite Hrun' in Hrun. apply Normal_eq in Hrun. injection Hrun as <- _.
  cbn [yearlyTrend].
  rewrite (@filter_none _
             (fun a => (getYear (birthDate a) =? getYear d + 1)%Z) analyses);
    [reflexivity|].
  intros a Ha. apply Z.eqb_neq.
  apply (in_map birthDate) in Ha. rewrite Hdates in Ha.
  apply in_map_iff in Ha. destruct Ha as (i & <- & Hi).
  apply fromTo_In in Hi.
  unfold getYear, addMonths. cbn [getFullYear].
  assert (H : ((getFullYear d * 12 + getMonth d + i) / 12
               < getFullYear d + 1)%Z); [|lia].
  apply Z.div_lt_upper_bound; lia.
Qed.

End RangeProperties.

(** New York, two months either side of July 2024: five monthly
    evaluations, two optimal windows. *)
Lemma analyzeTimingRange_evaluations_witness :
  exists analyses w1 ta w',
    forEach (fromTo (- 2) 2)
      (fun i => calculateOptimalTiming (M := sampleMath) newYork
                  (addMonths midJuly2024 i)) sampleWorld
    = Normal (analyses, w1) /\
    analyzeTimingRange (M := sampleMath) newYork midJuly2024 2 sampleWorld
      = Normal (ta, w') /\
    Z.of_nat (List.length analyses) = 5%Z /\
    evaluationsBetween sampleWorld w1 = 5%Z /\
    Z.of_nat (List.length (optimalWindows ta)) = 2%Z.
Proof.
  assert (Hd : valid_date midJuly2024) by valid_date_now.
  destruct (@analyzeTimingRange_evaluations sampleMath newYork midJuly2024 2
              sampleWorld Hd ltac:(lia))
    as (analyses & w1 & ta & w' & Hloop & Hrun & Hlen & _ & _ & Hcount & _
        & _ & Hwindows).
  exists analyses, w1, ta, w'.
  split; [exact Hloop|]. split; [exact Hrun|]. split; [exact Hlen|].
  split; [exact Hcount|exact Hwindows].
Defined.


(** New York, 15 July 2024, with a range of -1. *)
Lemma negative_range_raises_TypeError_witness :
  analyzeTimingRange (M := sampleMath) newYork midJuly2024 (-1) sampleWorld
  = Abrupt TypeError.
Proof.
  apply (@negative_range_raises_TypeError sampleMath newYork midJuly2024
           (-1) sampleWorld); [valid_date_now|lia].
Defined.

(** New York, December 2023 to February 2024. *)
Lemma trend_is_stable_within_the_year_witness :
  exists ta w',
    analyzeTimingRange (M := sampleMath) newYork midJanuary2024 1 sampleWorld
    = Normal (ta, w') /\
    yearlyTrend ta = stable.
Proof.
  assert (Hd : valid_date midJanuary2024) by valid_date_now.
  destruct (@analyzeTimingRange_run sampleMath newYork midJanuary2024 1
              sampleWorld Hd ltac:(lia)) as (ta & w' & Hrun & _).
  exists ta, w'. split; [exact Hrun|].
  apply (@trend_is_stable_within_the_year sampleMath newYork midJanuary2024
           1 sampleWorld w' ta Hd); [lia|vm_compute; discriminate|exact Hrun].
Defined.

(* ================================================================== *)
(** ** Further properties: the report *)
(* ================================================================== *)

Lemma sameTime_true (a b : Date) : sameTime a b = true <-> a = b.
Proof.
  unfold sameTime. rewrite !andb_true_iff, !Z.eqb_eq.
  destruct a, b. cbn. split.
  - intros [[-> ->] ->]. reflexivity.
  - intro H. injection H as -> -> ->. repeat split.
Qed.

Lemma addMonths_zero (d : Date) : valid_date d -> addMonths d 0 = d.
Proof.
  intros [Hm Hd]. destruct d as [y m dd]. unfold addMonths.
  cbn [getFullYear getMonth getDate] in *.
  replace (y * 12 + m + 0)%Z with (m + y * 12)%Z by lia.
  rewrite Z_div_plus_full, Z_mod_plus_full by lia.
  rewrite Z.div_small, Z.mod_small by lia.
  cbv zeta. rewrite Z.add_0_l. f_equal. apply Z.min_l. lia.
Qed.

Lemma addMonths_injective (d : Date) (i j : Z) :
  addMonths d i = addMonths d j -> i = j.
Proof.
  unfold addMonths. cbv zeta. intro H. injection H as Hy Hm _.
  pose proof (Z.div_mod (getFullYear d * 12 + getMonth d + i) 12
                ltac:(lia)) as Hi.
  pose proof (Z.div_mod (getFullYear d * 12 + getMonth d + j) 12
                ltac:(lia)) as Hj.
  rewrite Hy, Hm in Hi. lia.
Qed.

Lemma filter_all {A : Type} (p : A -> bool) (l : list A) :
  (forall a, In a l -> p a = true) -> filter p l = l.
Proof.
  induction l as [|x l IH]; intro H; [reflexivity|].
  cbn [filter]. rewrite (H x) by now left.
  f_equal. apply IH. intros a Ha. apply H. now right.
Qed.

(** A filter that only rejects the elements of one key removes at most one
    element of a list whose keys are all different. *)
Lemma filter_out_one {A K : Type} (f : A -> K) (p : A -> bool) (x : K)
    (l : list A) :
  (forall a, p a = false -> f a = x) ->
  NoDup (map f l) ->
  (List.length l <= S (List.length (filter p l)))%nat.
Proof.
  intro Hp. induction l as [|a l IH]; intro Hnd; [cbn; lia|].
  cbn [map] in Hnd. apply NoDup_cons_iff in Hnd. destruct Hnd as [Hnew Hnd].
  cbn [filter]. destruct (p a) eqn:Ea.
  - cbn [List.length]. specialize (IH Hnd). lia.
  - rewrite filter_all; [cbn [List.length]; lia|].
    intros b Hb. destruct (p b) eqn:Eb; [reflexivity|].
    exfalso. apply Hnew. rewrite (Hp a Ea), <- (Hp b Eb).
    now apply in_map.
Qed.

Section ReportProperties.

Context {M : MathLib}.
Local Open Scope Q_scope.

(** The draws a loop of engine runs consumes: three per run. *)
Lemma forEach_engine_consumed (loc : LocationData) (d : Date)
    (indices : list Z) (w w' : World) (results : list OptimalTimingResult) :
  valid_date d ->
  forEach indices (fun i => calculateOptimalTiming loc (addMonths d i)) w
  = Normal (results, w') ->
  consumed w' = (consumed w + 3 * List.length indices)%nat.
Proof.
  intro Hd. revert w results.
  induction indices as [|i rest IH]; intros w results Hloop.
  - cbn in Hloop. apply Normal_eq in Hloop. injection Hloop as _ <-.
    cbn. lia.
  - destruct (calculateOptimalTiming_run loc w (addMonths_valid i Hd))
      as (sa & sr & recs & r & _ & _ & _ & Hrun & _).
    cbn [forEach] in Hloop. rewrite (bind_step _ _ _ Hrun) in Hloop.
    destruct (forEach rest
                (fun i => calculateOptimalTiming loc (addMonths d i))
                (mkWorld (draws w) (S (S (S (consumed w))))
                         (addMonths d i :: engineCalls w)))
      as [[results' w1]|e] eqn:Hrest.
    + rewrite (bind_step _ _ _ Hrest) in Hloop. unfold ret in Hloop.
      apply Normal_eq in Hloop. injection Hloop as _ <-.
      rewrite (IH _ _ Hrest). cbn [consumed List.length]. lia.
    + unfold bind in Hloop. rewrite Hrest in Hloop. discriminate Hloop.
Qed.

(** X26.  A report on a valid date always completes.  It evaluates the
    engine 27 times and consumes 81 draws: once for its own analysis, then
    the 25 months of the range of 12 and the centre again.  It proposes
    exactly three alternatives; each is another month of the range, never
    the selected date, and no two are the same month. *)
Theorem report_proposes_three_other_months (loc : LocationData) (d : Date)
    (w : World) :
  valid_date d ->
  exists report w',
    generateOptimalityReport loc d w = Normal (report, w') /\
    birthDate (Report.analysis report) = d /\
    List.length (Report.alternatives report) = 3%nat /\
    (forall a, In a (Report.alternatives report) ->
       birthDate a <> d /\
       exists i, (-12 <= i <= 12)%Z /\ i <> 0%Z /\
                 birthDate a = addMonths d i) /\
    NoDup (map birthDate (Report.alternatives report)) /\
    evaluationsBetween w w' = 27%Z /\
    consumed w' = (consumed w + 81)%nat.
Proof.
  intro Hd.
  destruct (calculateOptimalTiming_run loc w Hd)
    as (sa & sr & recs & analysis & _ & _ & _ & Hfirst & Hdate & _).
  set (w0 := mkWorld (draws w) (S (S (S (consumed w)))) (d :: engineCalls w))
    in *.
  destruct (forEach_engine loc (fromTo (- 12) 12) w0 Hd)
    as (analyses & w1 & Hloop & _).
  destruct (@analyses_of_range _ loc d 12 _ _ _ Hd ltac:(lia) Hloop)
    as (Hdates & Hlen & Hsome & _ & Hcalls).
  pose proof (@forEach_engine_consumed loc d _ _ _ _ Hd Hloop) as Hconsumed.
  destruct (@analyzeTimingRange_fields _ loc d 12 _ _ _ Hd Hloop Hsome)
    as (current & best & worst & _ & _ & _ & Hrange).
  destruct (format_MMMM_valid Hd) as (monthName & Hname).
  assert (Hformat : format_MMMM_yyyy d
                    = Normal (monthName ++ " " ++ format_yyyy d)%string)
    by (unfold format_MMMM_yyyy; rewrite Hname; reflexivity).
  eexists. eexists. split.
  { unfold generateOptimalityReport.
    rewrite (bind_step _ _ _ Hfirst).
    rewrite (bind_step _ _ _ Hrange).
    rewrite (bind_lift_step _ _ Hformat). cbv zeta. unfold ret.
    reflexivity. }
  cbn [Report.analysis Report.alternatives optimalWindows].
  change (Z.to_nat (2 * 12 + 1)) with 25%nat in Hlen. rewrite Hlen.
  change (slice0 (Math_ceil (Z.of_nat 25 * 0.25))) with (@firstn OptimalTimingResult 7).
  change (slice0 3) with (@firstn OptimalTimingResult 3).
  set (sorted := Array_sort
                   (fun a b => (overallScore b - overallScore a)%Z) analyses).
  set (others := filter (fun a => negb (sameTime (birthDate a) d))
                        (firstn 7 sorted)).
  assert (Hperm : Permutation analyses sorted) by apply Array_sort_perm.
  assert (Hkeys : NoDup (map birthDate sorted)).
  { eapply Permutation_NoDup; [apply Permutation_map; exact Hperm|].
    rewrite Hdates.
    apply Finite.Injective_map_NoDup; [|apply fromTo_NoDup].
    intros i j. apply addMonths_injective. }
  assert (Hwindows : NoDup (map birthDate (firstn 7 sorted))).
  { rewrite <- (firstn_skipn 7 sorted), map_app in Hkeys.
    eapply NoDup_app_remove_r. exact Hkeys. }
  assert (Hothers : (6 <= List.length others)%nat).
  { pose proof (@filter_out_one _ _ birthDate
                  (fun a => negb (sameTime (birthDate a) d)) d
                  (firstn 7 sorted)) as H.
    specialize (H ltac:(intros a Ha; apply negb_false_iff in Ha;
                        now apply sameTime_true) Hwindows).
    rewrite length_firstn in H.
    assert (Hs : List.length sorted = 25%nat)
      by (unfold sorted; now rewrite Array_sort_length).
    rewrite Hs in H. fold others in H. lia. }
  split; [exact Hdate|].
  split; [rewrite length_firstn; lia|].
  split.
  { intros a Ha. apply In_firstn_In in Ha. apply filter_In in Ha.
    destruct Ha as [Ha Hother]. apply In_firstn_In in Ha.
    apply (Permutation_in _ (Permutation_sym Hperm)) in Ha.
    apply negb_true_iff in Hother.
    assert (Hne : birthDate a <> d).
    { intro Heq. apply sameTime_true in Heq. congruence. }
    split; [exact Hne|].
    apply (in_map birthDate) in Ha. rewrite Hdates in Ha.
    apply in_map_iff in Ha. destruct Ha as (i & Hi & Hrange').
    apply fromTo_In in Hrange'. exists i.
    split; [lia|]. split; [|now symmetry].
    intros ->. rewrite (addMonths_zero Hd) in Hi. congruence. }
  split.
  { assert (Hsub : NoDup (map birthDate others)).
    { unfold others. clear Hothers. clearbody sorted.
      induction (firstn 7 sorted) as [|x l IH]; [constructor|].
      cbn [map] in Hwindows. apply NoDup_cons_iff in Hwindows.
      destruct Hwindows as [Hnew Hrest]. cbn [filter].
      destruct (negb (sameTime (birthDate x) d)); [|now apply IH].
      cbn [map]. constructor; [|now apply IH].
      intro Hin. apply Hnew. apply in_map_iff in Hin.
      destruct Hin as (y & Hy & Hyin). apply filter_In in Hyin.
      rewrite <- Hy. apply in_map. tauto. }
    rewrite <- (firstn_skipn 3 others), map_app in Hsub.
    eapply NoDup_app_remove_r. exact Hsub. }
  split.
  - unfold evaluationsBetween. cbn [engineCalls]. rewrite Hcalls.
    unfold w0. cbn [engineCalls List.length].
    rewrite length_app, length_rev, length_map, fromTo_length.
    cbn [List.length].
    change (Z.to_nat (12 - - 12 + 1)) with 25%nat. lia.
  - cbn [consumed]. rewrite Hconsumed, fromTo_length. unfold w0.
    cbn [consumed]. change (Z.to_nat (12 - - 12 + 1)) with 25%nat. lia.
Qed.

End ReportProperties.

(** New York, 15 July 2024. *)
Lemma report_proposes_three_other_months_witness :
  exists report w',
    generateOptimalityReport (M := sampleMath) newYork midJuly2024 sampleWorld
    = Normal (report, w') /\
    List.length (Report.alternatives report) = 3%nat /\
    consumed w' = 81%nat.
Proof.
  destruct (@report_proposes_three_other_months sampleMath newYork
              midJuly2024 sampleWorld ltac:(valid_date_now))
    as (report & w' & Hrun & _ & Hthree & _ & _ & _ & Hdraws).
  exists report, w'. split; [exact Hrun|]. split; [exact Hthree|].
  exact Hdraws.
Defined.

Section SolarAdvice.

Context {M : MathLib}.
Local Open Scope Q_scope.

(** The lifespan impact at the two ends of the sunspot scale. *)
Lemma lifespanImpact_by_sunspots (s month : Z) :
  (0 <= month <= 11)%Z ->
  let normalizedSunspots := Qmax 0 (Qmin 200 s) in
  let lifespanImpact :=
    if normalizedSunspots <? 30 then
      0.5 - (normalizedSunspots / 30) * 0.8
    else if normalizedSunspots <? 120 then
      -0.3 - ((normalizedSunspots - 30) / 90) * 4.5
    else
      -4.8 - ((normalizedSunspots - 120) / 80) * 1.8 in
  let monthVariation := (month - 6)%Z * 0.1 in
  ((100 <= s)%Z ->
   Math_round ((lifespanImpact + monthVariation) * 10) / 10 <= -3.3) /\
  ((0 <= s < 50)%Z ->
   -1.9 <= Math_round ((lifespanImpact + monthVariation) * 10) / 10).
Proof.
  intros Hm n f mv.
  assert (Hmv : -0.6 <= mv <= 0.5).
  { subst mv. clearbody f n. destruct Hm as [Hlo Hhi].
    in_Q Hlo. in_Q Hhi. qlra. }
  split.
  - intro Hs. in_Q Hs.
    assert (Hn : 100 <= n <= 200) by (subst n; qcases; qlra).
    assert (Hf : -6.6 <= f <= -3.8).
    { subst f. clearbody n.
      qcompare n 30; [qlra|]. qcompare n 120; qlra. }
    clearbody f mv.
    destruct (@Math_round_between ((f + mv) * 10) (-200) (-33)) as [_ Hhi];
      [qlra|qlra|].
    in_Q Hhi. qlra.
  - intros [Hs0 Hs]. in_Q Hs0. in_Q Hs.
    assert (Hn : 0 <= n < 50) by (subst n; qcases; qlra).
    assert (Hf : -1.3 <= f <= 0.5).
    { subst f. clearbody n.
      qcompare n 30; [qlra|]. qcompare n 120; qlra. }
    clearbody f mv.
    destruct (@Math_round_between ((f + mv) * 10) (-19) 200) as [Hlo _];
      [qlra|qlra|].
    in_Q Hlo. qlra.
Qed.

(** The lifespan impact of a solar sample, by its sunspot number. *)
Lemma calculateSolarActivityData_lifespan (d : Date) (w w' : World)
    (sa : SolarActivityData) :
  valid_date d ->
  calculateSolarActivityData d w = Normal (sa, w') ->
  ((100 <= sunspotNumber sa)%Z -> lifespanImpact sa <= -3.3) /\
  ((sunspotNumber sa < 50)%Z -> -1.9 <= lifespanImpact sa).
Proof.
  intros Hd Hrun. pose proof Hd as [Hm _].
  destruct (calculateSunspotNumber_spec d w) as (s & Hs & Hs0).
  destruct (getSolarCycleForDate_spec d) as (c & Hc & _ & Hlen & _).
  unfold calculateSolarActivityData in Hrun.
  rewrite (bind_step _ _ _ Hs) in Hrun.
  rewrite (bind_lift_step _ _ Hc) in Hrun. cbv zeta in Hrun.
  rewrite (bind_lift_step _ _ (divide_Normal _ (cycle_length_nonzero c Hlen)))
    in Hrun.
  rewrite !bind_random in Hrun. unfold ret in Hrun.
  apply Normal_eq in Hrun.
  assert (Hsa : sa = fst (sa, w')) by reflexivity.
  rewrite <- Hrun in Hsa. cbn [fst] in Hsa. subst sa.
  cbn [sunspotNumber lifespanImpact].
  destruct (@lifespanImpact_by_sunspots s (getMonth d) Hm) as [Hhigh Hlow].
  split; [exact Hhigh|]. intro H. apply Hlow. lia.
Qed.

(** X27.  The solar fields of a result agree with its advice.  With a solar
    risk of HIGH the mental health multiplier is 1.3, the lifespan impact is
    -3.3 years or worse, and the recommendations advise to delay conception;
    with a solar risk of LOW the multiplier is 1.0, the impact is no worse
    than -1.9 years, and no recommendation advises a delay.  The life
    expectancy delta of the result is the lifespan impact of its solar
    data. *)
Theorem solar_risk_and_delay_advice (loc : LocationData) (d : Date)
    (w w' : World) (r : OptimalTimingResult) :
  valid_date d ->
  calculateOptimalTiming loc d w = Normal (r, w') ->
  lifeExpectancyDelta r = SolarData.lifespanImpact (solarData r) /\
  (SolarData.solarRisk (solarData r) = HIGH ->
   SolarData.mentalHealthMultiplier (solarData r) == 1.3 /\
   lifeExpectancyDelta r <= -3.3 /\
   exists text, In text (recommendations r) /\ advisesDelay text = true) /\
  (SolarData.solarRisk (solarData r) = LOW ->
   SolarData.mentalHealthMultiplier (solarData r) == 1.0 /\
   -1.9 <= lifeExpectancyDelta r /\
   forall text, In text (recommendations r) -> advisesDelay text = false).
Proof.
  intros Hd Hrun.
  destruct (@calculateOptimalTiming_advice _ loc _ _ _ _ Hd Hrun)
    as (sa & sr & recs & ((Hs0 & Hli & _) & Hsr & Hrecs & Hin & _ & _ & Hdelta
        & _ & _ & _ & Hsolar & Hsample)).
  destruct (format_MMMM_valid Hd) as (monthName & Hname).
  rewrite (@recommendationsOf_list _ sa sr loc d _ _ monthName Hname Hsr)
    in Hrecs.
  apply Normal_eq in Hrecs.
  destruct (@calculateSolarActivityData_lifespan d _ _ sa Hd Hsample)
    as [Hhigh Hlow].
  rewrite Hdelta, Hsolar.
  cbn [SolarData.lifespanImpact SolarData.solarRisk
       SolarData.mentalHealthMultiplier].
  split; [reflexivity|].
  unfold getSolarRiskLevel, calculateMentalHealthRisk. cbv zeta.
  destruct (Z.ltb_spec (sunspotNumber sa) 50) as [Hlt50|Hge50];
    [|destruct (Z.ltb_spec (sunspotNumber sa) 100) as [Hlt100|Hge100]].
  - split; [discriminate|]. intros _.
    replace (sunspotNumber sa >? 90)%Z with false
      by (symmetry; rewrite Z.gtb_ltb; apply Z.ltb_ge; lia).
    split; [reflexivity|]. specialize (Hlow Hlt50). split; [exact Hlow|].
    intros text Hmember. apply Hin in Hmember. clear Hin. subst recs.
    assert (G1 : (lifespanImpact sa <? -5) = false)
      by (apply Qlt_bool_false; lra).
    assert (G2 : (lifespanImpact sa <? -3) = false)
      by (apply Qlt_bool_false; lra).
    assert (G3 : (lifespanImpact sa >? 2) = false)
      by (apply Qlt_bool_false; lra).
    rewrite G1, G2, G3 in Hmember.
    each_member Hmember; subst text;
      repeat match goal with
      | |- context [if ?c then _ else _] => destruct c
      end; reflexivity.
  - split; discriminate.
  - split; [|discriminate]. intros _.
    replace (sunspotNumber sa >? 90)%Z with true
      by (symmetry; apply Z.gtb_lt; lia).
    split; [reflexivity|]. specialize (Hhigh Hge100). split; [exact Hhigh|].
    subst recs.
    assert (G2 : (lifespanImpact sa <? -3) = true)
      by (apply Qlt_bool_true; lra).
    rewrite G2 in Hin.
    destruct (lifespanImpact sa <? -5);
      (eexists; split;
       [apply Hin; apply in_or_app; left; left; reflexivity|reflexivity]).
Qed.

End SolarAdvice.

(** New York, 15 January 2020: a solar risk of HIGH, and the advice to
    delay. *)
Lemma solar_risk_and_delay_advice_witness :
  exists r w',
    calculateOptimalTiming (M := sampleMath) newYork midJanuary2020 sampleWorld
      = Normal (r, w') /\
    SolarData.solarRisk (solarData r) = HIGH /\
    exists text, In text (recommendations r) /\ advisesDelay text = true.
Proof.
  assert (Hd : valid_date midJanuary2020) by valid_date_now.
  destruct (@calculateOptimalTiming_run sampleMath newYork midJanuary2020
              sampleWorld Hd) as (sa0 & sr0 & recs0 & r & _ & _ & _ & Hrun & _).
  destruct (@calculateOptimalTiming_advice sampleMath newYork _ _ _ _ Hd Hrun)
    as (sa & sr & recs & _ & _ & _ & _ & _ & _ & _ & _ & _ & _ & Hsolar
        & Hsample).
  assert (Hhigh : SolarData.solarRisk (solarData r) = HIGH).
  { rewrite Hsolar. cbn [SolarData.solarRisk].
    assert (Hvalue :
      match calculateSolarActivityData (M := sampleMath) midJanuary2020
              (mkWorld (draws sampleWorld) (consumed sampleWorld)
                       (midJanuary2020 :: engineCalls sampleWorld)) with
      | Normal (x, _) => getSolarRiskLevel (sunspotNumber x)
      | Abrupt _ => LOW
      end = HIGH) by (vm_compute; reflexivity).
    rewrite Hsample in Hvalue. exact Hvalue. }
  exists r. eexists. split; [exact Hrun|]. split; [exact Hhigh|].
  destruct (@solar_risk_and_delay_advice sampleMath _ _ _ _ _ Hd Hrun)
    as (_ & Hdelay & _).
  exact (proj2 (proj2 (Hdelay Hhigh))).
Defined.

(* ================================================================== *)
(** ** Further properties: the charts *)
(* ================================================================== *)

Section Charts.

Local Open Scope Q_scope.

(** The life expectancy the full-width analysis draws, before rounding to
    tenths, grows with the score. *)
Lemma fullWidth_curve_monotone (s1 s2 : Q) :
  s1 <= s2 ->
  (78.5 + (if (s1 - 50) / 50 >? 0 then (s1 - 50) / 50 * 2.5
           else (s1 - 50) / 50 * 3.2)) * 10
  <= (78.5 + (if (s2 - 50) / 50 >? 0 then (s2 - 50) / 50 * 2.5
              else (s2 - 50) / 50 * 3.2)) * 10.
Proof.
  intro H.
  destruct (Qlt_bool_spec 0 ((s1 - 50) / 50)) as [H1|H1];
    destruct (Qlt_bool_spec 0 ((s2 - 50) / 50)) as [H2|H2]; qlra.
Qed.

(** X28.  For the scores from 0 to 100 the life expectancy the full-width
    analysis draws never falls when the score rises, and it stays between
    75.3 and 81 years. *)
Theorem fullWidth_lifespan_monotone_and_bounded (s1 s2 : Q) :
  0 <= s1 -> s1 <= s2 -> s2 <= 100 ->
  75.3 <= FullWidthAnalysis.calculateLifespanImpactForScore s1 /\
  FullWidthAnalysis.calculateLifespanImpactForScore s1
    <= FullWidthAnalysis.calculateLifespanImpactForScore s2 /\
  FullWidthAnalysis.calculateLifespanImpactForScore s2 <= 81.
Proof.
  assert (Hmono : forall a b, a <= b ->
            FullWidthAnalysis.calculateLifespanImpactForScore a
            <= FullWidthAnalysis.calculateLifespanImpactForScore b).
  { intros a b Hab. unfold FullWidthAnalysis.calculateLifespanImpactForScore.
    cbv zeta.
    pose proof (Math_round_mono (fullWidth_curve_monotone Hab)) as H.
    in_Q H. unfold Qdiv. apply Qmult_le_compat_r; [exact H|].
    discriminate. }
  intros Hlo H Hhi.
  assert (H0 : FullWidthAnalysis.calculateLifespanImpactForScore 0 == 75.3)
    by (vm_compute; reflexivity).
  assert (H100 : FullWidthAnalysis.calculateLifespanImpactForScore 100 == 81)
    by (vm_compute; reflexivity).
  pose proof (Hmono 0 s1 Hlo). pose proof (Hmono s2 100 Hhi).
  pose proof (Hmono s1 s2 H).
  repeat split; lra.
Qed.

(** X29.  The life expectancy the other chart draws is linear in the score:
    for an integer score it is exactly 73 years and a tenth of a year per
    point.  The two charts do not draw the same figure for the same score:
    at the neutral score of 50 the full-width analysis draws 78.5 years and
    this chart 78. *)
Theorem lifeExpectancyChart_is_linear (score : Z) :
  LifeExpectancyChart.calculateLifespanImpactForScore score
    == 73 + score / 10 /\
  FullWidthAnalysis.calculateLifespanImpactForScore 50 == 78.5 /\
  LifeExpectancyChart.calculateLifespanImpactForScore 50 == 78.
Proof.
  split; [|split; vm_compute; reflexivity].
  unfold LifeExpectancyChart.calculateLifespanImpactForScore. cbv zeta.
  assert (Hexact : (78 + (score - 50) * 0.1) * 10
                   == inject_Z (730 + score)).
  { rewrite inject_Z_plus. change (inject_Z 730) with 730. field. }
  unfold Math_round. rewrite Hexact.
  fold (Math_round (inject_Z (730 + score))).
  rewrite Math_round_Z, inject_Z_plus. change (inject_Z 730) with 730.
  field.
Qed.

End Charts.

(** The scores 40 and 60. *)
Lemma fullWidth_lifespan_monotone_and_bounded_witness :
  (75.3 <= FullWidthAnalysis.calculateLifespanImpactForScore 40 /\
   FullWidthAnalysis.calculateLifespanImpactForScore 40
     <= FullWidthAnalysis.calculateLifespanImpactForScore 60 /\
   FullWidthAnalysis.calculateLifespanImpactForScore 60 <= 81)%Q.
Proof.
  apply (@fullWidth_lifespan_monotone_and_bounded 40 60); discriminate.
Defined.
